(** * benchbot_sim_omni: the simulator daemon of [run.py]

    A shallow embedding of [SimulatorDaemon] (lifecycle state machine,
    idempotent resource loading, multi-rate tick scheduler, drift check)
    together with the properties its specification states about it.

    Conventions of the embedding:
    - the attributes of [SimulatorDaemon] are the fields of the record
      [daemon], under their Python names;
    - every method is a computation in the monad [M]: it reads and writes the
      daemon, emits the calls it makes into the engine (and what it prints)
      as a list of [event]s, and either returns or raises;  an exception
      leaves the daemon as it was when it was raised, as in Python;
    - engine calls are taken to succeed;  the one engine answer the daemon
      looks at, the live pose of the robot, is an argument of the tick;
    - what the engine has loaded is read off the calls it has received;
    - a Python float is read as a real number or as NaN (rounding and
      infinities are not modelled), a Python [int] as [Z];  a [start_pose]
      that parses is an array of seven floats;
    - a route that raises is answered with an error page: the daemon keeps
      what the route had assigned before, and the loop of [run] goes on. *)

From Stdlib Require Import ZArith List String Bool Lia Reals Lra RNsatz.
Import ListNotations.
Local Open Scope string_scope.

(** ** Pose math: [numpy] poses and the [spatialmath] transforms *)

Module PoseMath.
Local Open Scope R_scope.

Record vec3 := mkvec3 { v0 : R; v1 : R; v2 : R }.

(** A pose as the daemon stores it: [pose[0]], [pose[1:4]] is the
    orientation quaternion (scalar first), [pose[4::]] the translation. *)
Record pose := mkpose {
  q_s : R; q_x : R; q_y : R; q_z : R;
  t_x : R; t_y : R; t_z : R }.

(** [DEFAULT_POSE = np.array([1, 0, 0, 0, 0, 0, 0])] *)
Definition DEFAULT_POSE : pose := mkpose 1 0 0 0 0 0 0.

(** What [dc.get_rigid_body_pose] answers: a position [p] and a rotation
    [r] as a quaternion with the scalar last. *)
Record dc_transform := mkdc {
  p_x : R; p_y : R; p_z : R;
  r_x : R; r_y : R; r_z : R; r_w : R }.

(** Row-major 3x3 rotation matrix. *)
Record mat3 := mkmat3 {
  m00 : R; m01 : R; m02 : R;
  m10 : R; m11 : R; m12 : R;
  m20 : R; m21 : R; m22 : R }.

Record SE3 := mkSE3 { rot : mat3; t : vec3 }.

Definition mat3_id : mat3 := mkmat3 1 0 0 0 1 0 0 0 1.

Definition mat3_mul (a b : mat3) : mat3 :=
  mkmat3
    (m00 a * m00 b + m01 a * m10 b + m02 a * m20 b)
    (m00 a * m01 b + m01 a * m11 b + m02 a * m21 b)
    (m00 a * m02 b + m01 a * m12 b + m02 a * m22 b)
    (m10 a * m00 b + m11 a * m10 b + m12 a * m20 b)
    (m10 a * m01 b + m11 a * m11 b + m12 a * m21 b)
    (m10 a * m02 b + m11 a * m12 b + m12 a * m22 b)
    (m20 a * m00 b + m21 a * m10 b + m22 a * m20 b)
    (m20 a * m01 b + m21 a * m11 b + m22 a * m21 b)
    (m20 a * m02 b + m21 a * m12 b + m22 a * m22 b).

Definition mat3_transpose (a : mat3) : mat3 :=
  mkmat3 (m00 a) (m10 a) (m20 a)
         (m01 a) (m11 a) (m21 a)
         (m02 a) (m12 a) (m22 a).

Definition mat3_apply (a : mat3) (v : vec3) : vec3 :=
  mkvec3 (m00 a * v0 v + m01 a * v1 v + m02 a * v2 v)
         (m10 a * v0 v + m11 a * v1 v + m12 a * v2 v)
         (m20 a * v0 v + m21 a * v1 v + m22 a * v2 v).

Definition vec3_add (u v : vec3) : vec3 :=
  mkvec3 (v0 u + v0 v) (v1 u + v1 v) (v2 u + v2 v).

Definition vec3_opp (u : vec3) : vec3 := mkvec3 (- v0 u) (- v1 u) (- v2 u).

(** [SE3(v)] for a 3-vector [v]: the pure translation. *)
Definition SE3_translation (v : vec3) : SE3 := mkSE3 mat3_id v.

(** [a * b] on [SE3]. *)
Definition SE3_mul (a b : SE3) : SE3 :=
  mkSE3 (mat3_mul (rot a) (rot b)) (vec3_add (mat3_apply (rot a) (t b)) (t a)).

(** [a.inv()] *)
Definition SE3_inv (a : SE3) : SE3 :=
  mkSE3 (mat3_transpose (rot a))
        (vec3_opp (mat3_apply (mat3_transpose (rot a)) (t a))).

(** [UnitQuaternion(s, v)]: the constructor normalises [(s, v)]; a
    quaternion of norm zero cannot be normalised (the library raises
    [ValueError]), which is the [None] here. *)
Record quaternion := mkquat { qs : R; qx : R; qy : R; qz : R }.

Definition quat_norm (s x y z : R) : R := sqrt (s * s + x * x + y * y + z * z).

Definition UnitQuaternion (s x y z : R) : option quaternion :=
  let n := quat_norm s x y z in
  if Req_dec_T n 0 then None
  else Some (mkquat (s / n) (x / n) (y / n) (z / n)).

(** [q.SE3()]: the rotation of a unit quaternion, no translation. *)
Definition quat_R (q : quaternion) : mat3 :=
  let s := qs q in let x := qx q in let y := qy q in let z := qz q in
  mkmat3
    (1 - 2 * (y * y + z * z)) (2 * (x * y - s * z)) (2 * (x * z + s * y))
    (2 * (x * y + s * z)) (1 - 2 * (x * x + z * z)) (2 * (y * z - s * x))
    (2 * (x * z - s * y)) (2 * (y * z + s * x)) (1 - 2 * (x * x + y * y)).

Definition quat_SE3 (q : quaternion) : SE3 := mkSE3 (quat_R q) (mkvec3 0 0 0).

(** [def _dc_tf_to_SE3(tf)]:
    [SE3(np.array(tf.p)) * UnitQuaternion(r[3], r[0:3]).SE3()] *)
Definition _dc_tf_to_SE3 (tf : dc_transform) : option SE3 :=
  match UnitQuaternion (r_w tf) (r_x tf) (r_y tf) (r_z tf) with
  | None => None
  | Some q =>
      Some (SE3_mul (SE3_translation (mkvec3 (p_x tf) (p_y tf) (p_z tf)))
                    (quat_SE3 q))
  end.

(** [def _to_SE3(pose)]:
    [SE3(pose[4::]) * UnitQuaternion(pose[0], pose[1:4]).SE3()] *)
Definition _to_SE3 (p : pose) : option SE3 :=
  match UnitQuaternion (q_s p) (q_x p) (q_y p) (q_z p) with
  | None => None
  | Some q =>
      Some (SE3_mul (SE3_translation (mkvec3 (t_x p) (t_y p) (t_z p)))
                    (quat_SE3 q))
  end.

(** [pose * [1, 1, 1, 1, 100, 100, 100]], element by element. *)
Definition scale_translation (p : pose) : pose :=
  mkpose (q_s p * 1) (q_x p * 1) (q_y p * 1) (q_z p * 1)
         (t_x p * 100) (t_y p * 100) (t_z p * 100).

(** [math.atan2(y, x)] *)
Definition atan2 (y x : R) : R :=
  if Rlt_dec 0 x then atan (y / x)
  else if Rlt_dec x 0 then
         (if Rle_dec 0 y then atan (y / x) + PI else atan (y / x) - PI)
  else if Rlt_dec 0 y then PI / 2
  else if Rlt_dec y 0 then - (PI / 2)
  else 0.

(** [delta.rpy(unit='deg')[2]]: the yaw of the default ZYX roll-pitch-yaw
    angles, in degrees;  [|R[2,0]| = 1] is the singular case. *)
Definition yaw_rad (m : mat3) : R :=
  if Req_dec_T (Rabs (m20 m)) 1 then
    (if Rlt_dec (m20 m) 0 then - atan2 (m01 m) (m02 m)
     else atan2 (- m01 m) (- m02 m))
  else atan2 (m10 m) (m00 m).

Definition yaw_deg (d : SE3) : R := yaw_rad (rot d) * (180 / PI).

(** [np.linalg.norm(delta.t[0:2])] *)
Definition planar_norm (d : SE3) : R :=
  sqrt (v0 (t d) * v0 (t d) + v1 (t d) * v1 (t d)).

(** [x > y] on real numbers, as a boolean. *)
Definition Rgtb (x y : R) : bool := if Rgt_dec x y then true else false.

(** [x != y] on real numbers;  [fneqb] below is [!=] on floats, true as
    soon as one side is NaN. *)
Definition Rneqb (x y : R) : bool := if Req_dec_T x y then false else true.

(** [DIRTY_EPSILON_DIST = 5], [DIRTY_EPSILON_YAW = 5] *)
Definition DIRTY_EPSILON_DIST : R := 5.
Definition DIRTY_EPSILON_YAW : R := 5.

(** The value [check_dirty] returns for a relative transform [delta]. *)
Definition drifted (delta : SE3) : bool :=
  Rgtb (planar_norm delta) DIRTY_EPSILON_DIST
  || Rgtb (Rabs (yaw_deg delta)) DIRTY_EPSILON_YAW.

(** *** Arrays that may hold NaN

    The route [/place_robot] builds [start_pose] with [float], which accepts
    the text [nan].  A float is read as a real number or as NaN: arithmetic
    with NaN gives NaN, every comparison with NaN is false, and [!=] with
    NaN is true.  Infinities and rounding are not modelled. *)
Inductive float := nan | num (x : R).

Definition fadd (a b : float) : float :=
  match a, b with num x, num y => num (x + y) | _, _ => nan end.

Definition fsub (a b : float) : float :=
  match a, b with num x, num y => num (x - y) | _, _ => nan end.

Definition fmul (a b : float) : float :=
  match a, b with num x, num y => num (x * y) | _, _ => nan end.

Definition fdiv (a b : float) : float :=
  match a, b with num x, num y => num (x / y) | _, _ => nan end.

Definition fopp (a : float) : float :=
  match a with num x => num (- x) | nan => nan end.

Definition fsqrt (a : float) : float :=
  match a with num x => num (sqrt x) | nan => nan end.

Definition fabs (a : float) : float :=
  match a with num x => num (Rabs x) | nan => nan end.

Definition fatan2 (y x : float) : float :=
  match y, x with num v, num u => num (atan2 v u) | _, _ => nan end.

(** [a > b], [a < b], [a == b] and [a != b] on floats. *)
Definition fgtb (a b : float) : bool :=
  match a, b with num x, num y => Rgtb x y | _, _ => false end.

Definition fltb (a b : float) : bool :=
  match a, b with num x, num y => Rgtb y x | _, _ => false end.

Definition feqb (a b : float) : bool :=
  match a, b with num x, num y => negb (Rneqb x y) | _, _ => false end.

Definition fneqb (a b : float) : bool :=
  match a, b with num x, num y => Rneqb x y | _, _ => true end.

(** The array [self.start_pose]: seven floats, [a[0]], [a[1:4]] the
    orientation quaternion (scalar first), [a[4::]] the translation.  (A
    [start_pose] text with another number of fields is not modelled: what
    numpy and the engine make of such an array depends on their versions.) *)
Record ndarray := mkndarray {
  a_qs : float; a_qx : float; a_qy : float; a_qz : float;
  a_tx : float; a_ty : float; a_tz : float }.

(** An array without NaN, from its real numbers. *)
Definition of_pose (p : pose) : ndarray :=
  mkndarray (num (q_s p)) (num (q_x p)) (num (q_y p)) (num (q_z p))
            (num (t_x p)) (num (t_y p)) (num (t_z p)).

Coercion of_pose : pose >-> ndarray.

(** The real numbers of an array, if it holds no NaN. *)
Definition finite (a : ndarray) : option pose :=
  match a_qs a, a_qx a, a_qy a, a_qz a, a_tx a, a_ty a, a_tz a with
  | num s, num x, num y, num z, num u, num v, num w =>
      Some (mkpose s x y z u v w)
  | _, _, _, _, _, _, _ => None
  end.

(** [(p != q).any()] for two arrays. *)
Definition array_differs (p q : ndarray) : bool :=
  fneqb (a_qs p) (a_qs q) || fneqb (a_qx p) (a_qx q)
  || fneqb (a_qy p) (a_qy q) || fneqb (a_qz p) (a_qz q)
  || fneqb (a_tx p) (a_tx q) || fneqb (a_ty p) (a_ty q)
  || fneqb (a_tz p) (a_tz q).

(** [(p != self._start_pose).any()]: against [None] every element differs. *)
Definition differs_from (p : ndarray) (placed : option ndarray) : bool :=
  match placed with
  | None => true
  | Some q => array_differs p q
  end.

(** Vectors, quaternions, matrices and transforms of floats. *)
Record vec3f := mkvec3f { f0 : float; f1 : float; f2 : float }.

Record quatf := mkquatf { qsf : float; qxf : float; qyf : float; qzf : float }.

Record mat3f := mkmat3f {
  g00 : float; g01 : float; g02 : float;
  g10 : float; g11 : float; g12 : float;
  g20 : float; g21 : float; g22 : float }.

Record SE3f := mkSE3f { rotf : mat3f; trf : vec3f }.

(** [p[4::] * 100] and [p[:4]], the arguments of [set_world_pose]. *)
Definition position (p : ndarray) : vec3f :=
  mkvec3f (fmul (a_tx p) (num 100)) (fmul (a_ty p) (num 100))
          (fmul (a_tz p) (num 100)).

Definition orientation (p : ndarray) : quatf :=
  mkquatf (a_qs p) (a_qx p) (a_qy p) (a_qz p).

(** [a * [1, 1, 1, 1, 100, 100, 100]], element by element. *)
Definition scale_array (a : ndarray) : ndarray :=
  mkndarray (fmul (a_qs a) (num 1)) (fmul (a_qx a) (num 1))
            (fmul (a_qy a) (num 1)) (fmul (a_qz a) (num 1))
            (fmul (a_tx a) (num 100)) (fmul (a_ty a) (num 100))
            (fmul (a_tz a) (num 100)).

Definition mat3f_id : mat3f :=
  mkmat3f (num 1) (num 0) (num 0) (num 0) (num 1) (num 0)
          (num 0) (num 0) (num 1).

Definition dot3 (a b c x y z : float) : float :=
  fadd (fadd (fmul a x) (fmul b y)) (fmul c z).

Definition mat3f_mul (a b : mat3f) : mat3f :=
  mkmat3f
    (dot3 (g00 a) (g01 a) (g02 a) (g00 b) (g10 b) (g20 b))
    (dot3 (g00 a) (g01 a) (g02 a) (g01 b) (g11 b) (g21 b))
    (dot3 (g00 a) (g01 a) (g02 a) (g02 b) (g12 b) (g22 b))
    (dot3 (g10 a) (g11 a) (g12 a) (g00 b) (g10 b) (g20 b))
    (dot3 (g10 a) (g11 a) (g12 a) (g01 b) (g11 b) (g21 b))
    (dot3 (g10 a) (g11 a) (g12 a) (g02 b) (g12 b) (g22 b))
    (dot3 (g20 a) (g21 a) (g22 a) (g00 b) (g10 b) (g20 b))
    (dot3 (g20 a) (g21 a) (g22 a) (g01 b) (g11 b) (g21 b))
    (dot3 (g20 a) (g21 a) (g22 a) (g02 b) (g12 b) (g22 b)).

Definition mat3f_transpose (a : mat3f) : mat3f :=
  mkmat3f (g00 a) (g10 a) (g20 a)
          (g01 a) (g11 a) (g21 a)
          (g02 a) (g12 a) (g22 a).

Definition mat3f_apply (a : mat3f) (v : vec3f) : vec3f :=
  mkvec3f (dot3 (g00 a) (g01 a) (g02 a) (f0 v) (f1 v) (f2 v))
          (dot3 (g10 a) (g11 a) (g12 a) (f0 v) (f1 v) (f2 v))
          (dot3 (g20 a) (g21 a) (g22 a) (f0 v) (f1 v) (f2 v)).

Definition vec3f_add (u v : vec3f) : vec3f :=
  mkvec3f (fadd (f0 u) (f0 v)) (fadd (f1 u) (f1 v)) (fadd (f2 u) (f2 v)).

Definition vec3f_opp (u : vec3f) : vec3f :=
  mkvec3f (fopp (f0 u)) (fopp (f1 u)) (fopp (f2 u)).

Definition SE3f_translation (v : vec3f) : SE3f := mkSE3f mat3f_id v.

Definition SE3f_mul (a b : SE3f) : SE3f :=
  mkSE3f (mat3f_mul (rotf a) (rotf b))
         (vec3f_add (mat3f_apply (rotf a) (trf b)) (trf a)).

Definition SE3f_inv (a : SE3f) : SE3f :=
  mkSE3f (mat3f_transpose (rotf a))
         (vec3f_opp (mat3f_apply (mat3f_transpose (rotf a)) (trf a))).

(** [UnitQuaternion(s, v)] on floats: a norm of zero is refused
    ([ValueError], the [None] here);  a norm that is NaN is not zero, and
    the quotient is NaN. *)
Definition UnitQuaternionf (s x y z : float) : option quatf :=
  let n := fsqrt (fadd (fadd (fadd (fmul s s) (fmul x x)) (fmul y y))
                       (fmul z z)) in
  if feqb n (num 0) then None
  else Some (mkquatf (fdiv s n) (fdiv x n) (fdiv y n) (fdiv z n)).

Definition quatf_R (q : quatf) : mat3f :=
  let s := qsf q in let x := qxf q in let y := qyf q in let z := qzf q in
  let one := num 1 in let two := num 2 in
  mkmat3f
    (fsub one (fmul two (fadd (fmul y y) (fmul z z))))
    (fmul two (fsub (fmul x y) (fmul s z)))
    (fmul two (fadd (fmul x z) (fmul s y)))
    (fmul two (fadd (fmul x y) (fmul s z)))
    (fsub one (fmul two (fadd (fmul x x) (fmul z z))))
    (fmul two (fsub (fmul y z) (fmul s x)))
    (fmul two (fsub (fmul x z) (fmul s y)))
    (fmul two (fadd (fmul y z) (fmul s x)))
    (fsub one (fmul two (fadd (fmul x x) (fmul y y)))).

Definition quatf_SE3 (q : quatf) : SE3f :=
  mkSE3f (quatf_R q) (mkvec3f (num 0) (num 0) (num 0)).

(** [_to_SE3] and [_dc_tf_to_SE3] as the code computes them, on floats.
    The engine's answer holds no NaN. *)
Definition _to_SE3f (a : ndarray) : option SE3f :=
  match UnitQuaternionf (a_qs a) (a_qx a) (a_qy a) (a_qz a) with
  | None => None
  | Some q =>
      Some (SE3f_mul (SE3f_translation (mkvec3f (a_tx a) (a_ty a) (a_tz a)))
                     (quatf_SE3 q))
  end.

Definition _dc_tf_to_SE3f (tf : dc_transform) : option SE3f :=
  match UnitQuaternionf (num (r_w tf)) (num (r_x tf)) (num (r_y tf))
                        (num (r_z tf)) with
  | None => None
  | Some q =>
      Some (SE3f_mul (SE3f_translation
                        (mkvec3f (num (p_x tf)) (num (p_y tf)) (num (p_z tf))))
                     (quatf_SE3 q))
  end.

(** The yaw of [delta.rpy(unit='deg')] on floats: with a NaN in [R[2,0]]
    the test for the singular case is false. *)
Definition yawf_rad (m : mat3f) : float :=
  if feqb (fabs (g20 m)) (num 1) then
    (if fltb (g20 m) (num 0) then fopp (fatan2 (g01 m) (g02 m))
     else fatan2 (fopp (g01 m)) (fopp (g02 m)))
  else fatan2 (g10 m) (g00 m).

Definition yawf_deg (d : SE3f) : float :=
  fmul (yawf_rad (rotf d)) (num (180 / PI)).

Definition planar_normf (d : SE3f) : float :=
  fsqrt (fadd (fmul (f0 (trf d)) (f0 (trf d)))
              (fmul (f1 (trf d)) (f1 (trf d)))).

(** The value [check_dirty] returns for a relative transform [delta] of
    floats: a comparison with NaN is false. *)
Definition driftedf (delta : SE3f) : bool :=
  fgtb (planar_normf delta) (num DIRTY_EPSILON_DIST)
  || fgtb (fabs (yawf_deg delta)) (num DIRTY_EPSILON_YAW).

(** Transforms of reals as transforms of floats. *)
Definition quat_f (q : quaternion) : quatf :=
  mkquatf (num (qs q)) (num (qx q)) (num (qy q)) (num (qz q)).

Definition mat3_f (m : mat3) : mat3f :=
  mkmat3f (num (m00 m)) (num (m01 m)) (num (m02 m))
          (num (m10 m)) (num (m11 m)) (num (m12 m))
          (num (m20 m)) (num (m21 m)) (num (m22 m)).

Definition SE3_f (a : SE3) : SE3f :=
  mkSE3f (mat3_f (rot a))
         (mkvec3f (num (v0 (t a))) (num (v1 (t a))) (num (v2 (t a)))).

End PoseMath.

(** ** The daemon and the calls it makes *)

Import PoseMath.

(** Handles into the engine.  They carry no data the daemon looks at. *)
Inductive SimulationApp := the_SimulationApp.
Inductive SimulationContext := the_SimulationContext.
Inductive DynamicControl := the_DynamicControl.
Inductive Robot := the_Robot.
Inductive body_handle := the_body_handle.

(** The attributes [__init__] creates ([address] is configuration and is
    never read by the methods below).  [map_usd], [robot_usd], [start_pose]
    are what was requested;  [_map_usd], [_robot_usd], [_start_pose] are
    what [open_usd] and [place_robot] have recorded as loaded. *)
Record daemon := mkdaemon {
  inst : option SimulationApp;
  sim : option SimulationContext;
  sim_i : Z;
  sim_collided : bool;
  sim_dirty : bool;
  map_usd : option string;
  robot_usd : option string;
  start_pose : option ndarray;
  _map_usd : option string;
  _robot_usd : option string;
  _start_pose : option ndarray;
  _dc : option DynamicControl;
  _robot : option Robot;
  _robot_dc : option body_handle }.

(** [SimulatorDaemon.__init__] *)
Definition init : daemon :=
  mkdaemon None None 0 false false None None None None None None
           None None None.

(** Assignment to one attribute: [self.x = v]. *)
Definition set_inst (v : option SimulationApp) (s : daemon) : daemon :=
  mkdaemon v (sim s) (sim_i s) (sim_collided s) (sim_dirty s) (map_usd s)
    (robot_usd s) (start_pose s) (_map_usd s) (_robot_usd s) (_start_pose s)
    (_dc s) (_robot s) (_robot_dc s).

Definition set_sim (v : option SimulationContext) (s : daemon) : daemon :=
  mkdaemon (inst s) v (sim_i s) (sim_collided s) (sim_dirty s) (map_usd s)
    (robot_usd s) (start_pose s) (_map_usd s) (_robot_usd s) (_start_pose s)
    (_dc s) (_robot s) (_robot_dc s).

Definition set_sim_i (v : Z) (s : daemon) : daemon :=
  mkdaemon (inst s) (sim s) v (sim_collided s) (sim_dirty s) (map_usd s)
    (robot_usd s) (start_pose s) (_map_usd s) (_robot_usd s) (_start_pose s)
    (_dc s) (_robot s) (_robot_dc s).

Definition set_sim_collided (v : bool) (s : daemon) : daemon :=
  mkdaemon (inst s) (sim s) (sim_i s) v (sim_dirty s) (map_usd s) (robot_usd
    s) (start_pose s) (_map_usd s) (_robot_usd s) (_start_pose s) (_dc s)
    (_robot s) (_robot_dc s).

Definition set_sim_dirty (v : bool) (s : daemon) : daemon :=
  mkdaemon (inst s) (sim s) (sim_i s) (sim_collided s) v (map_usd s)
    (robot_usd s) (start_pose s) (_map_usd s) (_robot_usd s) (_start_pose s)
    (_dc s) (_robot s) (_robot_dc s).

Definition set_map_usd (v : option string) (s : daemon) : daemon :=
  mkdaemon (inst s) (sim s) (sim_i s) (sim_collided s) (sim_dirty s) v
    (robot_usd s) (start_pose s) (_map_usd s) (_robot_usd s) (_start_pose s)
    (_dc s) (_robot s) (_robot_dc s).

Definition set_robot_usd (v : option string) (s : daemon) : daemon :=
  mkdaemon (inst s) (sim s) (sim_i s) (sim_collided s) (sim_dirty s)
    (map_usd s) v (start_pose s) (_map_usd s) (_robot_usd s) (_start_pose s)
    (_dc s) (_robot s) (_robot_dc s).

Definition set_start_pose (v : option ndarray) (s : daemon) : daemon :=
  mkdaemon (inst s) (sim s) (sim_i s) (sim_collided s) (sim_dirty s)
    (map_usd s) (robot_usd s) v (_map_usd s) (_robot_usd s) (_start_pose s)
    (_dc s) (_robot s) (_robot_dc s).

Definition set__map_usd (v : option string) (s : daemon) : daemon :=
  mkdaemon (inst s) (sim s) (sim_i s) (sim_collided s) (sim_dirty s)
    (map_usd s) (robot_usd s) (start_pose s) v (_robot_usd s) (_start_pose
    s) (_dc s) (_robot s) (_robot_dc s).

Definition set__robot_usd (v : option string) (s : daemon) : daemon :=
  mkdaemon (inst s) (sim s) (sim_i s) (sim_collided s) (sim_dirty s)
    (map_usd s) (robot_usd s) (start_pose s) (_map_usd s) v (_start_pose s)
    (_dc s) (_robot s) (_robot_dc s).

Definition set__start_pose (v : option ndarray) (s : daemon) : daemon :=
  mkdaemon (inst s) (sim s) (sim_i s) (sim_collided s) (sim_dirty s)
    (map_usd s) (robot_usd s) (start_pose s) (_map_usd s) (_robot_usd s) v
    (_dc s) (_robot s) (_robot_dc s).

Definition set__dc (v : option DynamicControl) (s : daemon) : daemon :=
  mkdaemon (inst s) (sim s) (sim_i s) (sim_collided s) (sim_dirty s)
    (map_usd s) (robot_usd s) (start_pose s) (_map_usd s) (_robot_usd s)
    (_start_pose s) v (_robot s) (_robot_dc s).

Definition set__robot (v : option Robot) (s : daemon) : daemon :=
  mkdaemon (inst s) (sim s) (sim_i s) (sim_collided s) (sim_dirty s)
    (map_usd s) (robot_usd s) (start_pose s) (_map_usd s) (_robot_usd s)
    (_start_pose s) (_dc s) v (_robot_dc s).

Definition set__robot_dc (v : option body_handle) (s : daemon) : daemon :=
  mkdaemon (inst s) (sim s) (sim_i s) (sim_collided s) (sim_dirty s)
    (map_usd s) (robot_usd s) (start_pose s) (_map_usd s) (_robot_usd s)
    (_start_pose s) (_dc s) (_robot s) v.

(** What a method does to the outside world, in the order it does it. *)
Inductive event :=
| stdout (msg : string)                          (* print(...) *)
| new_SimulationApp (open_usd : option string)   (* SimulationApp({..}) *)
| enable_extension (name : string)
| inst_update                                    (* self.inst.update() *)
| inst_close                                     (* self.inst.close() *)
| new_SimulationContext                          (* SimulationContext() *)
| sim_play                                       (* self.sim.play() *)
| sim_stop                                       (* self.sim.stop() *)
| sim_step                                       (* self.sim.step() *)
| open_stage (usd_path : string)
| update_stage
| add_reference_to_stage (usd_path prim_path : string)
| new_Robot (prim_path name : string)
| set_world_pose (position : vec3f) (orientation : quatf)
| ChangeProperty (prop_path : string)            (* disable_component *)
| RosBridgeTickComponent (path : string)         (* tick_component *)
| acquire_dynamic_control_interface
| get_articulation_root_body (path : string)
| get_rigid_body_pose
| touch (path : string)                          (* Path(..).touch() *)
| evaluated (hook : string).
(** [evaluated] is not a call into the engine: [check_dirty] and
    [check_collided] record that they were entered, so that their
    evaluations can be counted. *)

Inductive exn := TypeError | AttributeError | ValueError.

Inductive result (A : Type) :=
| Returned (a : A)
| Raised (e : exn).
Arguments Returned {A} a.
Arguments Raised {A} e.

(** One run of a method: how it ended, the daemon it left, what it did. *)
Record run (A : Type) := mkrun {
  outcome : result A;
  final : daemon;
  emitted : list event }.
Arguments mkrun {A} _ _ _.
Arguments outcome {A} _.
Arguments final {A} _.
Arguments emitted {A} _.

(** A method body: from the daemon it is called on to its run. *)
Definition M (A : Type) : Type := daemon -> run A.

Definition ret {A} (a : A) : M A := fun s => mkrun (Returned a) s [].

Definition bind {A B} (m : M A) (f : A -> M B) : M B := fun s =>
  match m s with
  | mkrun (Returned a) s1 l1 =>
      match f a s1 with
      | mkrun o s2 l2 => mkrun o s2 (l1 ++ l2)
      end
  | mkrun (Raised e) s1 l1 => mkrun (Raised e) s1 l1
  end.

Definition get : M daemon := fun s => mkrun (Returned s) s [].
Definition modify (f : daemon -> daemon) : M unit :=
  fun s => mkrun (Returned tt) (f s) [].
Definition raise {A} (e : exn) : M A := fun s => mkrun (Raised e) s [].
Definition call (e : event) : M unit := fun s => mkrun (Returned tt) s [e].

Declare Scope daemon_scope.
Delimit Scope daemon_scope with daemon.
Notation "x <- m ;; k" := (bind m (fun x => k))
  (at level 61, m at next level, right associativity) : daemon_scope.
Notation "m ;; k" := (bind m (fun _ => k))
  (at level 61, right associativity) : daemon_scope.
Local Open Scope daemon_scope.

Definition print (msg : string) : M unit := call (stdout msg).

Definition DIRTY_FILE : string := "/tmp/benchbot_dirty".
Definition MAP_PRIM_PATH : string := "/env".
Definition ROBOT_NAME : string := "robot".
Definition ROBOT_PRIM_PATH : string := "/" ++ ROBOT_NAME.

Inductive component := clock | diff_base | lidar | rgbd | tf_sensors | tf.

(** The dictionary [ROBOT_COMPONENTS]. *)
Definition ROBOT_COMPONENTS (c : component) : string :=
  match c with
  | clock => "/ROS_Clock"
  | diff_base => ROBOT_PRIM_PATH ++ "/ROS_DifferentialBase"
  | lidar => ROBOT_PRIM_PATH ++ "/ROS_Lidar"
  | rgbd => ROBOT_PRIM_PATH ++ "/ROS_Camera_Stereo_Left"
  | tf_sensors => ROBOT_PRIM_PATH ++ "/ROS_Carter_Sensors_Broadcaster"
  | tf => ROBOT_PRIM_PATH ++ "/ROS_Carter_Broadcaster"
  end.

(** [ROBOT_COMPONENTS.values()], in the order the dictionary is written. *)
Definition ROBOT_COMPONENTS_values : list string :=
  map ROBOT_COMPONENTS [clock; diff_base; lidar; rgbd; tf_sensors; tf].

(** [def disable_component(prop_path)] *)
Definition disable_component (prop_path : string) : M unit :=
  print ("DISABLING '" ++ prop_path ++ ".enabled'") ;;
  call (ChangeProperty (prop_path ++ ".enabled")).

(** [def tick_component(prop_path)] *)
Definition tick_component (prop_path : string) : M unit :=
  call (RosBridgeTickComponent prop_path).

(** [a != b] on two attributes holding a path or [None]. *)
Definition usd_differs (a b : option string) : bool :=
  match a, b with
  | None, None => false
  | Some x, Some y => negb (String.eqb x y)
  | _, _ => true
  end.

(** ** The methods of [SimulatorDaemon] *)

(** [def stop_simulation(self)] *)
Definition stop_simulation : M unit :=
  s <- get ;;
  match sim s with
  | None => print "Skipping. No running simulation to stop"
  | Some _ =>
      match inst s with
      | None => print "Skipping. No running simulator found."
      | Some _ =>
          call sim_stop ;;
          modify (set_sim None)
      end
  end.

(** The test [self.inst is None or self.map_usd is None or
    self.robot_usd is None] of [start_simulation]. *)
Definition missing_required_state (s : daemon) : bool :=
  match inst s, map_usd s, robot_usd s with
  | Some _, Some _, Some _ => false
  | _, _, _ => true
  end.

(** [def start_simulation(self)] *)
Definition start_simulation : M unit :=
  s <- get ;;
  match sim s with
  | Some _ => stop_simulation
  | None => ret tt
  end ;;
  s <- get ;;
  if missing_required_state s then
    print "Can't start simulation. Missing some required state."
  else
    modify (set_sim_i 0) ;;
    modify (set_sim_collided false) ;;
    modify (set_sim_dirty false) ;;
    call new_SimulationContext ;;
    modify (set_sim (Some the_SimulationContext)) ;;
    call sim_play ;;
    call acquire_dynamic_control_interface ;;
    modify (set__dc (Some the_DynamicControl)) ;;
    call (get_articulation_root_body ROBOT_PRIM_PATH) ;;
    modify (set__robot_dc (Some the_body_handle)).

(** The loop [for p in ROBOT_COMPONENTS.values(): disable_component(p)]. *)
Fixpoint disable_components (ps : list string) : M unit :=
  match ps with
  | [] => ret tt
  | p :: ps' => disable_component p ;; disable_components ps'
  end.

(** [def place_robot(self)] *)
Definition place_robot : M unit :=
  s <- get ;;
  match inst s with
  | None => print "No simulator running. Stored robot USD & pose, but not opening."
  | Some _ =>
      match robot_usd s with
      | None => print "No robot USD selected. Returning."
      | Some usd =>
          stop_simulation ;;
          let p := match start_pose s with
                   | None => of_pose DEFAULT_POSE
                   | Some sp => sp
                   end in
          (if usd_differs (robot_usd s) (_robot_usd s) then
             call (add_reference_to_stage usd ROBOT_PRIM_PATH) ;;
             call (new_Robot ROBOT_PRIM_PATH ROBOT_NAME) ;;
             modify (set__robot (Some the_Robot)) ;;
             call update_stage ;;
             modify (set__robot_usd (robot_usd s))
           else print "Skipping robot load; already loaded.") ;;
          s1 <- get ;;
          (if differs_from p (_start_pose s1) then
             match _robot s1 with
             | None => raise AttributeError
             | Some _ =>
                 call (set_world_pose (position p) (orientation p)) ;;
                 call update_stage ;;
                 modify (set__start_pose (Some p))
             end
           else print "Skipping robot move; already at requested pose.") ;;
          disable_components ROBOT_COMPONENTS_values ;;
          start_simulation
      end
  end.

(** [def open_usd(self)] *)
Definition open_usd : M unit :=
  s <- get ;;
  match inst s with
  | None =>
      print "No simulator running. Stored environment USD, but not opening."
  | Some _ =>
      match map_usd s with
      | None => print "No environment USD selected. Returning."
      | Some usd =>
          stop_simulation ;;
          s1 <- get ;;
          (if usd_differs (map_usd s1) (_map_usd s1) then
             modify (set__dc None) ;;
             modify (set__start_pose None) ;;
             modify (set__robot None) ;;
             modify (set__robot_dc None) ;;
             modify (set__robot_usd None) ;;
             call (open_stage usd) ;;
             call update_stage ;;
             modify (set__map_usd (map_usd s1))
           else print "Skipping map load; already loaded.") ;;
          place_robot
      end
  end.

(** [def start_instance(self)] *)
Definition start_instance : M unit :=
  s <- get ;;
  match inst s with
  | Some _ => print "Instance already running. Please /stop first."
  | None =>
      call (new_SimulationApp (map_usd s)) ;;
      modify (set_inst (Some the_SimulationApp)) ;;
      call (enable_extension "omni.isaac.ros_bridge") ;;
      match map_usd s with
      | Some _ => place_robot
      | None => ret tt
      end
  end.

(** [def stop_instance(self)] *)
Definition stop_instance : M unit :=
  s <- get ;;
  match inst s with
  | None => print "No instance is running to stop."
  | Some _ =>
      stop_simulation ;;
      call inst_close ;;
      modify (set_inst None)
  end.

(** [def check_dirty(self)].  [live] is what
    [self._dc.get_rigid_body_pose(self._robot_dc)] answers.  The left
    operand of the product is evaluated first: [self.start_pose * [...]]
    with [start_pose] still [None] is a [TypeError]. *)
Definition check_dirty (live : dc_transform) : M bool :=
  call (evaluated "check_dirty") ;;
  s <- get ;;
  match start_pose s with
  | None => raise TypeError
  | Some sp =>
      match _to_SE3f (scale_array sp) with
      | None => raise ValueError
      | Some placed =>
          match _dc s with
          | None => raise AttributeError
          | Some _ =>
              call get_rigid_body_pose ;;
              match _dc_tf_to_SE3f live with
              | None => raise ValueError
              | Some now => ret (driftedf (SE3f_mul (SE3f_inv placed) now))
              end
          end
      end
  end.

(** [def check_collided(self)] *)
Definition check_collided : M bool :=
  call (evaluated "check_collided") ;;
  ret false.

(** [def tick_simulator(self)], with the live pose the engine would
    answer during this tick. *)
Definition tick_simulator (live : dc_transform) : M unit :=
  s <- get ;;
  match inst s with
  | None => ret tt
  | Some _ =>
      match sim s with
      | None => call inst_update
      | Some _ =>
          call sim_step ;;
          tick_component (ROBOT_COMPONENTS clock) ;;
          (if (sim_i s mod 2 =? 0)%Z then
             tick_component (ROBOT_COMPONENTS diff_base) ;;
             tick_component (ROBOT_COMPONENTS lidar) ;;
             tick_component (ROBOT_COMPONENTS tf) ;;
             tick_component (ROBOT_COMPONENTS tf_sensors)
           else ret tt) ;;
          (if (sim_i s mod 6 =? 0)%Z then
             tick_component (ROBOT_COMPONENTS rgbd) ;;
             (if negb (sim_dirty s) then
                b <- check_dirty live ;;
                modify (set_sim_dirty b) ;;
                (if b then call (touch DIRTY_FILE) else ret tt)
              else ret tt)
           else ret tt) ;;
          (if (sim_i s mod 60 =? 0)%Z then
             b <- check_collided ;;
             modify (set_sim_collided b)
           else ret tt) ;;
          modify (fun s2 => set_sim_i (sim_i s2 + 1)%Z s2)
      end
  end.

(** ** The control surface: the routes of [run] *)

(** A key of the JSON document of a request: not there, there with [null],
    or there with a value.  (Values of another JSON type than the route
    expects are not modelled.) *)
Inductive key (A : Type) :=
| absent
| null
| given (a : A).
Arguments absent {A}.
Arguments null {A}.
Arguments given {A} a.

(** The text of [start_pose] as the route reads it with
    [float(x.strip()) for x in text.replace('[', '').replace(']', '').split(',')]:
    it gives an array, or [float] raises [ValueError]. *)
Inductive pose_text :=
| parsed (a : ndarray)
| malformed.

(** A request to one of the routes that change the daemon: [/open_environment]
    with its key [environment], [/place_robot] with its keys [robot] and
    [start_pose], [/restart_sim], [/start], [/start_sim], [/stop_sim].  The
    routes [/] and [/started] only read. *)
Inductive request :=
| open_environment (environment : key string)
| place_robot_at (robot : key string) (pose_arg : key pose_text)
| restart_sim
| start
| start_sim
| stop_sim.

(** [self.x = r[k]] under [if k in r]. *)
Definition assign {A} (set : option A -> daemon -> daemon) (k : key A) :
  M unit :=
  match k with
  | absent => ret tt
  | null => modify (set None)
  | given a => modify (set (Some a))
  end.

(** The body of each route.  In [/place_robot] the robot is assigned before
    [start_pose] is parsed: when the parsing raises ([None.replace] is an
    [AttributeError], [float] of a malformed field a [ValueError]) the route
    ends there, [place_robot] is not called, and the server answers with an
    error page. *)
Definition handle (r : request) : M unit :=
  match r with
  | open_environment e =>
      assign set_map_usd e ;;
      open_usd
  | place_robot_at rb ps =>
      assign set_robot_usd rb ;;
      match ps with
      | absent => ret tt
      | null => raise AttributeError
      | given malformed => raise ValueError
      | given (parsed a) => modify (set_start_pose (Some a))
      end ;;
      place_robot
  | restart_sim => stop_simulation ;; start_simulation
  | start => start_instance
  | start_sim => start_simulation
  | stop_sim => stop_simulation
  end.

(** Modelled from the spec: the simulation engine is an external
    collaborator and not part of the repository.  What it has loaded is read
    off the calls it has received: creating the application opens the map
    given in its configuration, if any, on an otherwise empty stage;
    [open_stage] replaces the stage by the given map (a map reload
    invalidates what was referenced into the old stage);
    [add_reference_to_stage] spawns the robot into the current stage;
    closing the application leaves nothing. *)
Record engine := mkengine {
  app_running : bool;
  stage_map : option string;
  stage_robot : option string }.

(** Before any call: no application, nothing loaded. *)
Definition no_engine : engine := mkengine false None None.

(** What one call does to the engine. *)
Definition engine_step (g : engine) (e : event) : engine :=
  match e with
  | new_SimulationApp usd => mkengine true usd None
  | inst_close => no_engine
  | open_stage usd => mkengine (app_running g) (Some usd) None
  | add_reference_to_stage usd _ =>
      mkengine (app_running g) (stage_map g) (Some usd)
  | _ => g
  end.

(** The engine after the calls [l], made in that order. *)
Definition engine_after (g : engine) (l : list event) : engine :=
  fold_left engine_step l g.

(** What the loop of [run] can do between two polls: serve a request
    (Flask answers an exception of the route with an error page, the daemon
    keeps what the route had done to it, and the loop goes on) or
    tick (an exception of the tick ends the process).  [reaches h s]: the
    daemon can be [s], having emitted the events [h] since it was created. *)
Inductive reaches : list event -> daemon -> Prop :=
| reaches_init : reaches [] init
| reaches_request : forall h s r,
    reaches h s ->
    reaches (h ++ emitted (handle r s)) (final (handle r s))
| reaches_tick : forall h s live s' l,
    reaches h s ->
    tick_simulator live s = mkrun (Returned tt) s' l ->
    reaches (h ++ l) s'.

(** [n] consecutive ticks of the scheduler, one live pose per tick. *)
Fixpoint ticks (lives : list dc_transform) : M unit :=
  match lives with
  | [] => ret tt
  | live :: rest => tick_simulator live ;; ticks rest
  end.

(** How many of the emitted events satisfy [f]. *)
Definition count (f : event -> bool) (l : list event) : nat :=
  List.length (filter f l).

(** Recognisers of the kinds of events that are counted. *)
Definition is_tick_of (c : component) (e : event) : bool :=
  match e with
  | RosBridgeTickComponent path => String.eqb path (ROBOT_COMPONENTS c)
  | _ => false
  end.

Definition is_evaluated (hook : string) (e : event) : bool :=
  match e with
  | evaluated h => String.eqb h hook
  | _ => false
  end.

Definition is_open_stage (e : event) : bool :=
  match e with open_stage _ => true | _ => false end.

Definition is_add_reference (e : event) : bool :=
  match e with add_reference_to_stage _ _ => true | _ => false end.

Definition is_set_world_pose (e : event) : bool :=
  match e with set_world_pose _ _ => true | _ => false end.

Definition is_touch (e : event) : bool :=
  match e with touch _ => true | _ => false end.

Definition is_pose_query (e : event) : bool :=
  match e with get_rigid_body_pose => true | _ => false end.

Definition is_new_session (e : event) : bool :=
  match e with new_SimulationContext => true | _ => false end.

(** ** Notions used in the statements *)

(** *** Runs of the methods, spelled out *)

(** The daemon [start_simulation] leaves when it starts a Session from [s]. *)
Definition fresh_session (s : daemon) : daemon :=
  set__robot_dc (Some the_body_handle)
    (set__dc (Some the_DynamicControl)
       (set_sim (Some the_SimulationContext)
          (set_sim_dirty false (set_sim_collided false (set_sim_i 0 s))))).

(** The calls [start_simulation] makes when it starts a Session. *)
Definition session_start_calls : list event :=
  [new_SimulationContext; sim_play; acquire_dynamic_control_interface;
   get_articulation_root_body ROBOT_PRIM_PATH].

(** The diagnostic of [start_simulation]. *)
Definition cannot_start : event :=
  stdout "Can't start simulation. Missing some required state.".

(** [check_dirty] can be evaluated: a pose was requested, the handle into
    the engine is there, and both orientations can be normalised. *)
Definition check_dirty_defined (s : daemon) (live : dc_transform) : Prop :=
  exists sp placed now,
    start_pose s = Some sp /\
    _to_SE3f (scale_array sp) = Some placed /\
    _dc s <> None /\
    _dc_tf_to_SE3f live = Some now.

(** The calls of a tick before the drift check, for counter value [i]. *)
Definition tick_calls (i : Z) : list event :=
  [sim_step; RosBridgeTickComponent (ROBOT_COMPONENTS clock)]
  ++ (if (i mod 2 =? 0)%Z then
        [RosBridgeTickComponent (ROBOT_COMPONENTS diff_base);
         RosBridgeTickComponent (ROBOT_COMPONENTS lidar);
         RosBridgeTickComponent (ROBOT_COMPONENTS tf);
         RosBridgeTickComponent (ROBOT_COMPONENTS tf_sensors)]
      else [])
  ++ (if (i mod 6 =? 0)%Z then [RosBridgeTickComponent (ROBOT_COMPONENTS rgbd)]
      else []).

(** The 1 Hz part of a tick: its calls and what it does to the daemon. *)
Definition collision_calls (i : Z) : list event :=
  if (i mod 60 =? 0)%Z then [evaluated "check_collided"] else [].

Definition after_collision_check (i : Z) (s : daemon) : daemon :=
  if (i mod 60 =? 0)%Z then set_sim_collided false s else s.

(** The marker file is touched when the drift check says dirty. *)
Definition marker_calls (b : bool) : list event :=
  if b then [touch DIRTY_FILE] else [].

(** *** Counting *)

(** 1 when a component of period [d] fires at counter value [i]. *)
Definition fires (d i : Z) : nat := if (i mod d =? 0)%Z then 1 else 0.

(** How many of the [n] counter values from [i] on are multiples of [d]. *)
Fixpoint multiples (d i : Z) (n : nat) : nat :=
  match n with
  | O => O
  | S n' => (fires d i + multiples d (i + 1) n')%nat
  end.

(** The counts the specification is about, for a list of emitted events. *)
Record cadence := mkcadence {
  n_clock : nat; n_diff_base : nat; n_lidar : nat; n_tf : nat;
  n_tf_sensors : nat; n_rgbd : nat; n_collision_checks : nat }.

(** How often each component was ticked, and the collision check evaluated. *)
Definition cadence_of (l : list event) : cadence :=
  mkcadence (count (is_tick_of clock) l) (count (is_tick_of diff_base) l)
            (count (is_tick_of lidar) l) (count (is_tick_of tf) l)
            (count (is_tick_of tf_sensors) l) (count (is_tick_of rgbd) l)
            (count (is_evaluated "check_collided") l).

(** What [n] ticks starting at counter value [i] must have emitted. *)
Definition expected_cadence (i : Z) (n : nat) : cadence :=
  mkcadence n (multiples 2 i n) (multiples 2 i n) (multiples 2 i n)
            (multiples 2 i n) (multiples 6 i n) (multiples 60 i n).

(** *** Some daemons and live poses *)

(** A Session as [start_simulation] leaves it, with map, robot and the
    default pose requested and loaded. *)
Definition running_daemon : daemon :=
  mkdaemon (Some the_SimulationApp) (Some the_SimulationContext) 0 false false
           (Some "map.usd") (Some "robot.usd") (Some (of_pose DEFAULT_POSE))
           (Some "map.usd") (Some "robot.usd") (Some (of_pose DEFAULT_POSE))
           (Some the_DynamicControl) (Some the_Robot) (Some the_body_handle).

(** The robot standing where it was placed. *)
Definition standing_still : dc_transform := mkdc 0 0 0 0 0 0 1.

(** A boolean as a count. *)
Definition b2n (b : bool) : nat := if b then 1 else 0.

(** What the drift monitor did during a run: evaluations of [check_dirty],
    pose queries to the engine, creations of the marker file. *)
Definition drift_calls (l : list event) : nat * nat * nat :=
  (count (is_evaluated "check_dirty") l, count is_pose_query l, count is_touch l).

(** [running_daemon], already flagged dirty. *)
Definition dirty_daemon : daemon := set_sim_dirty true running_daemon.

(** The running daemon after one tick during which the robot was found far
    from where it was placed: the counter is 1 and the daemon is dirty. *)
Definition midway : daemon := set_sim_dirty true (set_sim_i 1 running_daemon).

(** *** Placing and loading *)

(** [p = DEFAULT_POSE if self.start_pose is None else self.start_pose] *)
Definition requested_pose (s : daemon) : ndarray :=
  match start_pose s with
  | None => of_pose DEFAULT_POSE
  | Some sp => sp
  end.

(** The robot-loading step of [place_robot]. *)
Definition load_robot (s : daemon) : daemon :=
  if usd_differs (robot_usd s) (_robot_usd s)
  then set__robot_usd (robot_usd s) (set__robot (Some the_Robot) s)
  else s.

(** The calls of the robot-loading step. *)
Definition load_robot_calls (usd : string) (s : daemon) : list event :=
  if usd_differs (robot_usd s) (_robot_usd s)
  then [add_reference_to_stage usd ROBOT_PRIM_PATH;
        new_Robot ROBOT_PRIM_PATH ROBOT_NAME; update_stage]
  else [stdout "Skipping robot load; already loaded."].

(** The calls of the teleport to [p]. *)
Definition move_calls (p : ndarray) : list event :=
  [set_world_pose (position p) (orientation p); update_stage].

(** The calls of the loop over [ROBOT_COMPONENTS.values()]. *)
Definition disable_calls : list event :=
  emitted (disable_components ROBOT_COMPONENTS_values init).

(** The expensive engine operations among emitted events: maps opened,
    robots spawned, robots teleported. *)
Definition loads (l : list event) : nat * nat * nat :=
  (count is_open_stage l, count is_add_reference l, count is_set_world_pose l).

(** The part of the daemon that says what is requested and what is loaded. *)
Record scene_binding := mkscene {
  the_inst : option SimulationApp;
  target_map : option string;
  target_robot : option string;
  target_pose : option ndarray;
  loaded_map : option string;
  loaded_robot : option string;
  loaded_pose : option ndarray;
  robot_object : option Robot }.

(** The scene binding of a daemon. *)
Definition scene (s : daemon) : scene_binding :=
  mkscene (inst s) (map_usd s) (robot_usd s) (start_pose s)
          (_map_usd s) (_robot_usd s) (_start_pose s) (_robot s).

(** [place_robot] has nothing left to load: a second call would neither
    spawn nor teleport. *)
Definition settled (s : daemon) : Prop :=
  inst s = None \/ robot_usd s = None \/
  (usd_differs (robot_usd s) (_robot_usd s) = false /\
   (differs_from (requested_pose s) (_start_pose s) = false \/ _robot s = None)).

(** What [open_usd] forgets before it opens another map. *)
Definition invalidate_scene (s : daemon) : daemon :=
  set__robot_usd None
    (set__robot_dc None
       (set__robot None (set__start_pose None (set__dc None s)))).

(** Call a method, then call it again on the daemon it left, whether the
    first call returned or raised. *)
Definition twice (m : M unit) (s : daemon) : list event * list event :=
  (emitted (m s), emitted (m (final (m s)))).

(** What a key leaves in an attribute that held [old]. *)
Definition assigned {A} (k : key A) (old : option A) : option A :=
  match k with
  | absent => old
  | null => None
  | given a => Some a
  end.

(** The daemon on which the route [/open_environment] calls [open_usd]. *)
Definition with_environment (e : key string) (s : daemon) : daemon :=
  match e with
  | absent => s
  | _ => set_map_usd (assigned e (map_usd s)) s
  end.

(** The exception the parsing of [start_pose] ends in, if any. *)
Definition parse_error (ps : key pose_text) : option exn :=
  match ps with
  | null => Some AttributeError
  | given malformed => Some ValueError
  | _ => None
  end.

(** The daemon the route [/place_robot] has made before it calls
    [place_robot], or before the parsing of [start_pose] raises. *)
Definition with_robot (rb : key string) (ps : key pose_text) (s : daemon) :
  daemon :=
  let s1 := match rb with
            | absent => s
            | _ => set_robot_usd (assigned rb (robot_usd s)) s
            end in
  match ps with
  | given (parsed a) => set_start_pose (Some a) s1
  | _ => s1
  end.

(** The exception a request ends in before it reaches its method. *)
Definition route_error (r : request) : option exn :=
  match r with
  | place_robot_at _ ps => parse_error ps
  | _ => None
  end.

(** An array without NaN. *)
Definition nan_free (a : ndarray) : Prop := exists p : pose, a = of_pose p.

(** *** Reachable daemons and the engine *)

(** What holds of every daemon the loop of [run] can be in: a Session lives
    in an Instance. *)
Definition well_formed (s : daemon) : Prop :=
  sim s <> None -> inst s <> None.

(** Events the engine model does not react to. *)
Definition quiet (e : event) : bool :=
  match e with
  | new_SimulationApp _ | inst_close | open_stage _
  | add_reference_to_stage _ _ => false
  | _ => true
  end.

(** With a Session, Instance, map and robot are requested: what holds of
    the daemon [start_simulation] leaves. *)
Definition session_backed (s : daemon) : Prop :=
  sim s <> None -> missing_required_state s = false.

(** The trackers of the daemon tell the truth about the engine [g]. *)
Definition tracked (g : engine) (s : daemon) : Prop :=
  app_running g = true /\
  (_map_usd s <> None -> stage_map g = _map_usd s) /\
  (_robot_usd s <> None -> stage_robot g = _robot_usd s).

(** The daemon [s] and the engine [g] it has been driving agree: a Session
    has a map on the stage, without an Instance nothing is recorded as
    loaded, and with one the trackers are right and a requested map is the
    map on the stage. *)
Definition consistent (g : engine) (s : daemon) : Prop :=
  (sim s <> None -> stage_map g <> None) /\
  (inst s = None -> _map_usd s = None /\ _robot_usd s = None) /\
  (inst s <> None ->
   tracked g s /\ (map_usd s <> None -> stage_map g = map_usd s)).


(** Serve the requests [rs] one after the other, keeping the history. *)
Fixpoint serve (rs : list request) (h : list event) (s : daemon) :
  list event * daemon :=
  match rs with
  | [] => (h, s)
  | r :: rs' =>
      serve rs' (h ++ emitted (handle r s))%list (final (handle r s))
  end.


(** *** The drift check *)

(** The transform that moves nothing. *)
Definition SE3_identity : SE3 := mkSE3 mat3_id (mkvec3 0 0 0).

(** The engine answers a rotation of norm 1. *)
Definition unit_rotation (live : dc_transform) : Prop :=
  (r_w live * r_w live + r_x live * r_x live + r_y live * r_y live
   + r_z live * r_z live = 1)%R.


(** [/start], then [/open_environment] and [/place_robot] with the default
    pose spelled out: the daemon is [running_daemon]. *)
Definition usual_start : list request :=
  [start; open_environment (given "map.usd");
   place_robot_at (given "robot.usd") (given (parsed (of_pose DEFAULT_POSE)))].

(** The same requests as [usual_start], but no pose is ever requested: the
    robot is placed at [DEFAULT_POSE] and [start_pose] stays [None]. *)
Definition start_without_pose : list request :=
  [start; open_environment (given "map.usd");
   place_robot_at (given "robot.usd") absent].

(** *** Further notions: the routes and the loop of [run] *)

(** [flask.jsonify({'started': self.inst is not None})], the answer of the
    route [/started]. *)
Definition started (s : daemon) : bool :=
  match inst s with
  | Some _ => true
  | None => false
  end.

(** What the daemon keeps besides [well_formed]: a robot recorded as loaded
    has its robot object, and a Session has its pose-query handles. *)
Definition equipped (s : daemon) : Prop :=
  (_robot_usd s <> None -> _robot s <> None) /\
  (sim s <> None -> _dc s <> None /\ _robot_dc s <> None).

(** The orientation of an array is the zero quaternion. *)
Definition zero_orientation (a : ndarray) : Prop :=
  a_qs a = num 0 /\ a_qx a = num 0 /\ a_qy a = num 0 /\ a_qz a = num 0.


(** The tick evaluates [check_dirty]: there is a Session, the counter is a
    multiple of 6 and the daemon is not dirty yet. *)
Definition drift_check_due (s : daemon) : Prop :=
  inst s <> None /\ sim s <> None /\ (sim_i s mod 6 = 0)%Z /\
  sim_dirty s = false.

(** Recognisers of the two calls that create and close the application. *)
Definition is_new_app (e : event) : bool :=
  match e with new_SimulationApp _ => true | _ => false end.

Definition is_inst_close (e : event) : bool :=
  match e with inst_close => true | _ => false end.

Definition no_app (e : event) : bool :=
  negb (is_new_app e || is_inst_close e).

(** A request as the server answers it: an exception of the route becomes
    an error page, and the daemon keeps what the route had done to it. *)
Definition served (r : request) : M unit := fun s =>
  mkrun (Returned tt) (final (handle r s)) (emitted (handle r s)).

Fixpoint serve_all (rs : list request) : M unit :=
  match rs with
  | [] => ret tt
  | r :: rs' => served r ;; serve_all rs'
  end.

(** [def run(self)], from [server.start()] on:
    [while not evt.is_set(): evt.wait(0.001); self.tick_simulator()]
    and then [self.stop_instance()].  One round of the loop is one wait, in
    which the server answers the requests that have arrived, and one tick
    with the live pose of that tick;  the list ends where a signal has set
    the event. *)
Fixpoint run_loop (rounds : list (list request * dc_transform)) : M unit :=
  match rounds with
  | [] => stop_instance
  | (rs, live) :: rest =>
      serve_all rs ;; tick_simulator live ;; run_loop rest
  end.

(** The property paths handed to [ChangeProperty], in the order of the
    calls. *)
Definition disabled_paths (l : list event) : list string :=
  flat_map (fun e => match e with ChangeProperty p => [p] | _ => [] end) l.

(** The paths handed to [RosBridgeTickComponent]. *)
Definition ticked_paths (l : list event) : list string :=
  flat_map (fun e => match e with RosBridgeTickComponent p => [p] | _ => [] end)
           l.

(** The [enabled] property of every entry of [ROBOT_COMPONENTS]. *)
Definition enabled_properties : list string :=
  map (fun p => p ++ ".enabled") ROBOT_COMPONENTS_values.

(** What [get_rigid_body_pose] answers for a body that stands where
    [place_robot] has put it with
    [set_world_pose(position=pose[4:] * 100, orientation=pose[:4])]: the
    same position, and the same quaternion with the scalar last. *)
Definition reported_at (p : pose) : dc_transform :=
  mkdc (t_x p * 100) (t_y p * 100) (t_z p * 100)
       (q_x p) (q_y p) (q_z p) (q_s p).



(** How a route can leave the daemon as far as the Session goes: with a
    Session that [start_simulation] has just created, Instance, map and
    robot being requested, or with none, one of the three missing. *)
Definition session_renewed (r : run unit) : Prop :=
  (exists X : daemon, final r = fresh_session X) /\
  missing_required_state (final r) = false /\
  count is_new_session (emitted r) = 1%nat.

Definition session_absent (r : run unit) : Prop :=
  sim (final r) = None /\
  missing_required_state (final r) = true /\
  count is_new_session (emitted r) = 0%nat.

(** The route ends before it has called [stop_simulation], with an
    Instance or not: [/open_environment] with an Instance and no map to
    open, [/place_robot] with a [start_pose] that does not parse, or with an
    Instance and no robot to place. *)
Definition stops_short (r : request) (s : daemon) : Prop :=
  match r with
  | open_environment e => inst s <> None /\ assigned e (map_usd s) = None
  | place_robot_at rb ps =>
      parse_error ps <> None \/
      (inst s <> None /\ assigned rb (robot_usd s) = None)
  | _ => False
  end.

(** What [place_robot] has to load on the daemon [s]: nothing without an
    Instance or without a requested robot;  otherwise the robot if it is not
    the loaded one, and the pose if it is not the loaded one. *)
Definition robot_loads (s : daemon) : nat * nat * nat :=
  match inst s, robot_usd s with
  | Some _, Some _ =>
      (0, b2n (usd_differs (robot_usd s) (_robot_usd s)),
       b2n (differs_from (requested_pose s) (_start_pose s)))%nat
  | _, _ => (0, 0, 0)%nat
  end.

(** The routes that only stop and start Sessions. *)
Definition session_route (r : request) : bool :=
  match r with
  | restart_sim | start_sim | stop_sim => true
  | _ => false
  end.

(** The calls only a tick makes: stepping the simulation or the idle
    update, ticking a component, the two monitors, the pose query and the
    marker file. *)
Definition tick_only (e : event) : bool :=
  match e with
  | sim_step | inst_update | RosBridgeTickComponent _ | evaluated _
  | get_rigid_body_pose | touch _ => true
  | _ => false
  end.

Definition not_tick_only (e : event) : bool := negb (tick_only e).

(** The array the route [/place_robot] makes of the text
    [nan, 0, 0, 0, 0, 0, 0]. *)
Definition nan_pose : ndarray :=
  mkndarray nan (num 0) (num 0) (num 0) (num 0) (num 0) (num 0).

(** [/start] and [/open_environment]: an Instance with a map, no robot. *)
Definition map_only : list request :=
  [start; open_environment (given "map.usd")].


(** ** Proofs *)

Ltac unfold_monad :=
  unfold print, bind, get, modify, call, ret, raise in *.

(** Split a conjunction into its parts without introducing anything. *)
Ltac splits := repeat match goal with |- _ /\ _ => split end.

Lemma stop_simulation_run (s : daemon) :
  stop_simulation s =
  match sim s, inst s with
  | None, _ =>
      mkrun (Returned tt) s [stdout "Skipping. No running simulation to stop"]
  | Some _, None =>
      mkrun (Returned tt) s [stdout "Skipping. No running simulator found."]
  | Some _, Some _ => mkrun (Returned tt) (set_sim None s) [sim_stop]
  end.
Proof.
  unfold stop_simulation; unfold_monad; cbn.
  destruct (sim s); [destruct (inst s)|]; reflexivity.
Qed.

(** [start_simulation] when no Session is in the way. *)
Lemma start_simulation_idle (s : daemon) :
  sim s = None ->
  start_simulation s =
  if missing_required_state s then mkrun (Returned tt) s [cannot_start]
  else mkrun (Returned tt) (fresh_session s) session_start_calls.
Proof.
  intros E. unfold start_simulation; unfold_monad; cbn. rewrite E; cbn.
  destruct (missing_required_state s); reflexivity.
Qed.

(** [start_simulation] on a running Session: stop, then start again. *)
Lemma start_simulation_running (s : daemon) :
  sim s <> None -> inst s <> None ->
  start_simulation s =
  if missing_required_state s
  then mkrun (Returned tt) (set_sim None s) [sim_stop; cannot_start]
  else mkrun (Returned tt) (fresh_session (set_sim None s))
             (sim_stop :: session_start_calls).
Proof.
  intros E I. unfold start_simulation; unfold_monad.
  destruct (sim s) as [c|] eqn:Es; [|congruence].
  destruct (inst s) as [a|] eqn:Ei; [|congruence].
  rewrite stop_simulation_run, Es, Ei.
  unfold missing_required_state; cbn. rewrite Ei.
  destruct (map_usd s), (robot_usd s); reflexivity.
Qed.

Lemma stop_instance_run (s : daemon) :
  stop_instance s =
  match inst s with
  | None => mkrun (Returned tt) s [stdout "No instance is running to stop."]
  | Some _ =>
      match sim s with
      | None =>
          mkrun (Returned tt) (set_inst None s)
                [stdout "Skipping. No running simulation to stop"; inst_close]
      | Some _ =>
          mkrun (Returned tt) (set_inst None (set_sim None s))
                [sim_stop; inst_close]
      end
  end.
Proof.
  unfold stop_instance, stop_simulation; unfold_monad.
  destruct s as [[a|] [c|] n col dty m r sp m' r' sp' dc rb rdc];
    reflexivity.
Qed.

(** C8.  [stop_instance] on a daemon with an Instance stops the Session
    first if one is active ([sim.stop()] comes before [inst.close()]) and
    leaves both [sim] and [inst] at [None];  on a daemon without an Instance
    it prints its diagnostic and changes nothing. *)
Theorem stop_instance_leaves_no_session (s : daemon) :
  (inst s <> None ->
   outcome (stop_instance s) = Returned tt /\
   sim (final (stop_instance s)) = None /\
   inst (final (stop_instance s)) = None /\
   (sim s <> None -> emitted (stop_instance s) = [sim_stop; inst_close]) /\
   (sim s = None ->
    emitted (stop_instance s) =
    [stdout "Skipping. No running simulation to stop"; inst_close])) /\
  (inst s = None ->
   stop_instance s =
   mkrun (Returned tt) s [stdout "No instance is running to stop."]).
Proof.
  rewrite stop_instance_run.
  destruct s as [[a|] [c|] n col dty m r sp m' r' sp' dc rb rdc]; cbn;
    split; intros H; try discriminate; try congruence;
    repeat split; intros; try reflexivity; try discriminate; congruence.
Qed.

(** *** The tick *)

Arguments check_dirty : simpl never.
Arguments start_simulation : simpl never.
Arguments stop_simulation : simpl never.
Arguments place_robot : simpl never.

(** On arrays without NaN the float operations are those on the reals. *)
Lemma finite_of_pose (p : pose) : finite (of_pose p) = Some p.
Proof. destruct p; reflexivity. Qed.

Lemma finite_Some (a : ndarray) (p : pose) : finite a = Some p -> a = of_pose p.
Proof.
  destruct a as [[|s] [|x] [|y] [|z] [|u] [|v] [|w]]; cbn;
    try discriminate. intros [= <-]. reflexivity.
Qed.

Lemma feqb_num (x y : R) :
  feqb (num x) (num y) = if Req_dec_T x y then true else false.
Proof. unfold feqb, Rneqb. destruct (Req_dec_T x y); reflexivity. Qed.

Lemma UnitQuaternionf_num (s x y z : R) :
  UnitQuaternionf (num s) (num x) (num y) (num z)
  = option_map quat_f (UnitQuaternion s x y z).
Proof.
  unfold UnitQuaternionf, UnitQuaternion, quat_norm. cbn [fmul fadd fsqrt].
  cbv zeta. rewrite feqb_num.
  destruct (Req_dec_T (sqrt (s * s + x * x + y * y + z * z)) 0); reflexivity.
Qed.

Lemma _to_SE3f_of_pose (p : pose) :
  _to_SE3f (of_pose p) = option_map SE3_f (_to_SE3 p).
Proof.
  unfold _to_SE3f, _to_SE3, of_pose. cbn [a_qs a_qx a_qy a_qz a_tx a_ty a_tz].
  rewrite UnitQuaternionf_num.
  destruct (UnitQuaternion (q_s p) (q_x p) (q_y p) (q_z p)) as [[a b c d]|];
    reflexivity.
Qed.

Lemma _dc_tf_to_SE3f_live (live : dc_transform) :
  _dc_tf_to_SE3f live = option_map SE3_f (_dc_tf_to_SE3 live).
Proof.
  unfold _dc_tf_to_SE3f, _dc_tf_to_SE3. rewrite UnitQuaternionf_num.
  destruct (UnitQuaternion (r_w live) (r_x live) (r_y live) (r_z live))
    as [[a b c d]|]; reflexivity.
Qed.

Lemma scale_array_of_pose (p : pose) :
  scale_array (of_pose p) = of_pose (scale_translation p).
Proof. reflexivity. Qed.

Lemma relative_transform_f (a b : SE3) :
  SE3f_mul (SE3f_inv (SE3_f a)) (SE3_f b) = SE3_f (SE3_mul (SE3_inv a) b).
Proof.
  destruct a as [[a00 a01 a02 a10 a11 a12 a20 a21 a22] [u0 u1 u2]].
  destruct b as [[b00 b01 b02 b10 b11 b12 b20 b21 b22] [w0 w1 w2]].
  reflexivity.
Qed.

Lemma driftedf_SE3_f (d : SE3) : driftedf (SE3_f d) = drifted d.
Proof.
  destruct d as [[d00 d01 d02 d10 d11 d12 d20 d21 d22] [u0 u1 u2]].
  unfold driftedf, drifted, planar_normf, planar_norm, yawf_deg, yaw_deg,
    yawf_rad, yaw_rad, SE3_f, mat3_f.
  cbn [rotf trf rot t f0 f1 f2 v0 v1 v2 g00 g01 g02 g10 g11 g12 g20 g21 g22
       m00 m01 m02 m10 m11 m12 m20 m21 m22 fmul fadd fsqrt fabs].
  rewrite feqb_num.
  destruct (Req_dec_T (Rabs d20) 1); [|reflexivity].
  unfold fltb, Rgtb.
  destruct (Rgt_dec 0 d20), (Rlt_dec d20 0); try reflexivity; exfalso; lra.
Qed.

(** [check_dirty] when both transforms can be built. *)
Lemma check_dirty_returns_array (s : daemon) (live : dc_transform)
      (sp : ndarray) placed now :
  start_pose s = Some sp ->
  _to_SE3f (scale_array sp) = Some placed ->
  _dc s <> None ->
  _dc_tf_to_SE3f live = Some now ->
  check_dirty live s =
  mkrun (Returned (driftedf (SE3f_mul (SE3f_inv placed) now))) s
        [evaluated "check_dirty"; get_rigid_body_pose].
Proof.
  intros E1 E2 E3 E4. unfold check_dirty; unfold_monad; cbn.
  rewrite E1, E2. destruct (_dc s); [|congruence].
  rewrite E4. reflexivity.
Qed.

(** [check_dirty] on a start pose without NaN. *)
Lemma check_dirty_returns (s : daemon) (live : dc_transform) (sp : pose)
      placed now :
  start_pose s = Some (of_pose sp) ->
  _to_SE3 (scale_translation sp) = Some placed ->
  _dc s <> None ->
  _dc_tf_to_SE3 live = Some now ->
  check_dirty live s =
  mkrun (Returned (drifted (SE3_mul (SE3_inv placed) now))) s
        [evaluated "check_dirty"; get_rigid_body_pose].
Proof.
  intros E1 E2 E3 E4. unfold check_dirty; unfold_monad; cbn.
  rewrite E1, scale_array_of_pose, _to_SE3f_of_pose, E2. cbn [option_map].
  destruct (_dc s); [|congruence].
  rewrite _dc_tf_to_SE3f_live, E4. cbn [option_map].
  rewrite relative_transform_f, driftedf_SE3_f. reflexivity.
Qed.

(** [check_dirty] never writes to the daemon, and all it does outside is
    ask the engine for the live pose, at most once. *)
Lemma check_dirty_cases (s : daemon) (live : dc_transform) :
  exists o l,
    check_dirty live s = mkrun o s l /\
    (l = [evaluated "check_dirty"] /\ (exists e, o = Raised e) \/
     l = [evaluated "check_dirty"; get_rigid_body_pose]).
Proof.
  unfold check_dirty; unfold_monad; cbn.
  destruct (start_pose s) as [sp|]; [|eauto 8].
  destruct (_to_SE3f (scale_array sp)); [|eauto 8].
  destruct (_dc s); [|eauto 8].
  cbn. destruct (_dc_tf_to_SE3f live); eauto 8.
Qed.

(** One tick of a daemon with a Session, spelled out. *)
Lemma tick_active_run (live : dc_transform) (s : daemon) :
  inst s <> None -> sim s <> None ->
  tick_simulator live s =
  if ((sim_i s mod 6 =? 0)%Z && negb (sim_dirty s))%bool then
    match outcome (check_dirty live s) with
    | Returned b =>
        mkrun (Returned tt)
              (set_sim_i (sim_i s + 1)%Z
                 (after_collision_check (sim_i s) (set_sim_dirty b s)))
              (tick_calls (sim_i s) ++ emitted (check_dirty live s)
               ++ marker_calls b ++ collision_calls (sim_i s))
    | Raised e =>
        mkrun (Raised e) s (tick_calls (sim_i s) ++ emitted (check_dirty live s))
    end
  else
    mkrun (Returned tt)
          (set_sim_i (sim_i s + 1)%Z (after_collision_check (sim_i s) s))
          (tick_calls (sim_i s) ++ collision_calls (sim_i s)).
Proof.
  intros Hi Hs.
  destruct (check_dirty_cases s live) as (o & l & E & _).
  destruct s as [[a|] [c|] n col dty m r sp m' r' sp' dc rb rdc];
    try (cbn in *; congruence).
  unfold tick_simulator, tick_calls, collision_calls, after_collision_check,
    marker_calls, check_collided, tick_component; unfold_monad; cbn.
  destruct (n mod 2 =? 0)%Z, (n mod 6 =? 0)%Z, (n mod 60 =? 0)%Z, dty; cbn;
    try reflexivity;
    rewrite E; destruct o as [[|]|e]; cbn;
    rewrite <- ?app_assoc; reflexivity.
Qed.

Lemma check_dirty_defined_returns (s : daemon) (live : dc_transform) :
  check_dirty_defined s live ->
  exists b,
    check_dirty live s =
    mkrun (Returned b) s [evaluated "check_dirty"; get_rigid_body_pose].
Proof.
  intros (sp & placed & now & E1 & E2 & E3 & E4).
  eexists. apply (check_dirty_returns_array s live sp placed now); assumption.
Qed.

Lemma after_collision_check_as_set (i : Z) (s : daemon) :
  exists c, after_collision_check i s = set_sim_collided c s.
Proof.
  unfold after_collision_check. destruct (i mod 60 =? 0)%Z.
  - exists false. reflexivity.
  - exists (sim_collided s). destruct s; reflexivity.
Qed.

(** What a tick that returns has done to a daemon with a Session. *)
Lemma tick_active_returned (live : dc_transform) (s s' : daemon) l :
  inst s <> None -> sim s <> None ->
  tick_simulator live s = mkrun (Returned tt) s' l ->
  exists d c,
    s' = set_sim_i (sim_i s + 1)%Z (set_sim_collided c (set_sim_dirty d s)) /\
    (sim_dirty s = true -> d = true).
Proof.
  intros Hi Hs. rewrite (tick_active_run live s Hi Hs).
  destruct ((sim_i s mod 6 =? 0)%Z && negb (sim_dirty s))%bool eqn:Ec.
  - destruct (outcome (check_dirty live s)) as [b|e]; [|discriminate].
    intros [= <- _].
    destruct (after_collision_check_as_set (sim_i s) (set_sim_dirty b s))
      as [c ->].
    exists b, c. split; [reflexivity|].
    intros D. rewrite D, andb_false_r in Ec. discriminate.
  - intros [= <- _].
    destruct (after_collision_check_as_set (sim_i s) s) as [c ->].
    exists (sim_dirty s), c. split; [destruct s; reflexivity|auto].
Qed.

(** A tick of a daemon with a Session returns whenever it does not need the
    drift check, or the drift check can be evaluated. *)
Lemma tick_active_returns (live : dc_transform) (s : daemon) :
  inst s <> None -> sim s <> None ->
  (sim_i s mod 6 <> 0)%Z \/ sim_dirty s = true \/ check_dirty_defined s live ->
  outcome (tick_simulator live s) = Returned tt.
Proof.
  intros Hi Hs H. rewrite (tick_active_run live s Hi Hs).
  destruct (sim_i s mod 6 =? 0)%Z eqn:E6; [|reflexivity].
  destruct (sim_dirty s) eqn:Ed; [reflexivity|]. cbn.
  destruct H as [H|[H|H]].
  - apply Z.eqb_eq in E6. contradiction.
  - discriminate.
  - destruct (check_dirty_defined_returns s live H) as [b Eb].
    rewrite Eb. reflexivity.
Qed.

(** C10.  A tick of a daemon without an Instance does nothing at all;  with
    an Instance but no Session it makes the idle update and leaves the daemon
    as it was.  Only with a Session does it write, and then only [sim_i],
    [sim_dirty] and [sim_collided]: a tick that returns has added exactly 1
    to [sim_i].  The only way it does not return is an exception out of
    [check_dirty] (counter divisible by 6, not yet dirty, and the check
    cannot be evaluated), which leaves the daemon untouched. *)
Theorem tick_simulator_frame (live : dc_transform) (s : daemon) :
  (inst s = None -> tick_simulator live s = mkrun (Returned tt) s []) /\
  (inst s <> None -> sim s = None ->
   tick_simulator live s = mkrun (Returned tt) s [inst_update]) /\
  (inst s <> None -> sim s <> None ->
   (forall s' l,
       tick_simulator live s = mkrun (Returned tt) s' l ->
       sim_i s' = (sim_i s + 1)%Z /\
       exists d c,
         s' = set_sim_i (sim_i s + 1)%Z
                (set_sim_collided c (set_sim_dirty d s))) /\
   (forall e s' l,
       tick_simulator live s = mkrun (Raised e) s' l ->
       s' = s /\ (sim_i s mod 6 = 0)%Z /\ sim_dirty s = false /\
       ~ check_dirty_defined s live) /\
   ((sim_i s mod 6 <> 0)%Z \/ sim_dirty s = true \/ check_dirty_defined s live ->
    outcome (tick_simulator live s) = Returned tt)).
Proof.
  split; [|split].
  - intros E. unfold tick_simulator; unfold_monad; cbn. rewrite E. reflexivity.
  - intros Hi E. unfold tick_simulator; unfold_monad; cbn.
    destruct (inst s); [|congruence]. rewrite E. reflexivity.
  - intros Hi Hs. split; [|split].
    + intros s' l E.
      destruct (tick_active_returned live s s' l Hi Hs E) as (d & c & -> & _).
      split; [reflexivity|eauto].
    + intros e s' l. rewrite (tick_active_run live s Hi Hs).
      destruct (sim_i s mod 6 =? 0)%Z eqn:E6; [|discriminate].
      destruct (sim_dirty s) eqn:Ed; [discriminate|]. cbn.
      destruct (outcome (check_dirty live s)) as [b|e'] eqn:Eo; [discriminate|].
      intros [= _ <- _]. repeat split; try reflexivity.
      * apply Z.eqb_eq; assumption.
      * intros D. destruct (check_dirty_defined_returns s live D) as [b Eb].
        rewrite Eb in Eo. discriminate.
    + apply tick_active_returns; assumption.
Qed.

(** *** Counting the calls of a run of ticks *)

Lemma count_app (f : event -> bool) (l1 l2 : list event) :
  count f (l1 ++ l2) = (count f l1 + count f l2)%nat.
Proof. unfold count. rewrite filter_app, length_app. reflexivity. Qed.

Lemma cadence_of_app (l1 l2 : list event) :
  cadence_of (l1 ++ l2) =
  mkcadence (n_clock (cadence_of l1) + n_clock (cadence_of l2))
            (n_diff_base (cadence_of l1) + n_diff_base (cadence_of l2))
            (n_lidar (cadence_of l1) + n_lidar (cadence_of l2))
            (n_tf (cadence_of l1) + n_tf (cadence_of l2))
            (n_tf_sensors (cadence_of l1) + n_tf_sensors (cadence_of l2))
            (n_rgbd (cadence_of l1) + n_rgbd (cadence_of l2))
            (n_collision_checks (cadence_of l1)
             + n_collision_checks (cadence_of l2)).
Proof. unfold cadence_of; cbn. rewrite !count_app. reflexivity. Qed.

Lemma cadence_of_tick_calls (i : Z) :
  cadence_of (tick_calls i ++ collision_calls i) = expected_cadence i 1.
Proof.
  unfold tick_calls, collision_calls, expected_cadence, multiples, fires.
  destruct (i mod 2 =? 0)%Z, (i mod 6 =? 0)%Z, (i mod 60 =? 0)%Z; reflexivity.
Qed.

(** One tick that returns fires each component according to its period. *)
Lemma tick_cadence (live : dc_transform) (s s' : daemon) l :
  inst s <> None -> sim s <> None ->
  tick_simulator live s = mkrun (Returned tt) s' l ->
  cadence_of l = expected_cadence (sim_i s) 1.
Proof.
  intros Hi Hs. rewrite (tick_active_run live s Hi Hs).
  destruct (check_dirty_cases s live) as (o & lc & E & Hl).
  rewrite E; cbn [outcome emitted].
  assert (Hc : cadence_of lc = mkcadence 0 0 0 0 0 0 0)
    by (destruct Hl as [[-> _]| ->]; reflexivity).
  assert (Hm : forall b, cadence_of (marker_calls b) = mkcadence 0 0 0 0 0 0 0)
    by (intros [|]; reflexivity).
  rewrite <- cadence_of_tick_calls.
  set (tc := tick_calls (sim_i s)). set (cc := collision_calls (sim_i s)).
  destruct ((sim_i s mod 6 =? 0)%Z && negb (sim_dirty s))%bool.
  - destruct o as [b|e]; [|discriminate]. intros H.
    assert (El : l = (tc ++ lc ++ marker_calls b ++ cc)%list) by congruence.
    rewrite El, !cadence_of_app, Hc, Hm. cbn. f_equal; lia.
  - intros H. assert (El : l = (tc ++ cc)%list) by congruence.
    rewrite El. reflexivity.
Qed.

Lemma ticks_cons (live : dc_transform) rest (s : daemon) :
  ticks (live :: rest) s =
  match tick_simulator live s with
  | mkrun (Returned _) s1 l1 =>
      mkrun (outcome (ticks rest s1)) (final (ticks rest s1))
            (l1 ++ emitted (ticks rest s1))
  | mkrun (Raised e) s1 l1 => mkrun (Raised e) s1 l1
  end.
Proof.
  cbn [ticks]. unfold bind.
  destruct (tick_simulator live s) as [[[]|e] s1 l1]; [|reflexivity].
  destruct (ticks rest s1); reflexivity.
Qed.

(** A run of ticks that returns: the counter has advanced by the number of
    ticks and every component has fired according to its period. *)
Lemma ticks_cadence (lives : list dc_transform) :
  forall (s s' : daemon) l,
    inst s <> None -> sim s <> None ->
    ticks lives s = mkrun (Returned tt) s' l ->
    sim_i s' = (sim_i s + Z.of_nat (List.length lives))%Z /\
    inst s' = inst s /\ sim s' = sim s /\
    cadence_of l = expected_cadence (sim_i s) (List.length lives).
Proof.
  induction lives as [|live rest IH]; intros s s' l Hi Hs.
  - cbn. intros [= <- <-]. repeat split; try reflexivity. lia.
  - rewrite ticks_cons.
    destruct (tick_simulator live s) as [[[]|e] s1 l1] eqn:E1; [|discriminate].
    destruct (ticks rest s1) as [o s2 l2] eqn:E2. cbn.
    intros [= -> <- <-].
    destruct (tick_active_returned live s s1 l1 Hi Hs E1) as (d & c & -> & _).
    pose proof (tick_cadence live s _ l1 Hi Hs E1) as C1.
    apply IH in E2; [|assumption..].
    destruct E2 as (Ei & Einst & Esim & C2).
    rewrite Ei, Einst, Esim. cbn [List.length].
    repeat split; try reflexivity.
    + cbn. lia.
    + rewrite cadence_of_app, C1, C2. cbn.
      unfold expected_cadence; cbn. f_equal; lia.
Qed.

Lemma run_returned (r : run unit) :
  outcome r = Returned tt -> r = mkrun (Returned tt) (final r) (emitted r).
Proof. destruct r as [o s l]; cbn. intros ->. reflexivity. Qed.

(** A run of ticks returns when the drift check, where it is needed, can
    be evaluated. *)
Lemma ticks_return (lives : list dc_transform) :
  forall s : daemon,
    inst s <> None -> sim s <> None ->
    sim_dirty s = true \/ Forall (check_dirty_defined s) lives ->
    outcome (ticks lives s) = Returned tt.
Proof.
  induction lives as [|live rest IH]; intros s Hi Hs H; [reflexivity|].
  rewrite ticks_cons.
  assert (T : outcome (tick_simulator live s) = Returned tt).
  { apply tick_active_returns; try assumption.
    destruct H as [H|H]; [auto|]. inversion H; auto. }
  apply run_returned in T. rewrite T.
  destruct (tick_active_returned live s _ _ Hi Hs T) as (d & c & E & Hd).
  rewrite E. cbn [outcome]. apply IH; try assumption.
  destruct H as [H|H]; [left; cbn; auto|right].
  inversion H as [|? ? _ HF]; subst.
  eapply Forall_impl; [|exact HF]. intros a Ha; exact Ha.
Qed.

(** A prefix of a run of ticks that returns is a run that returns. *)
Lemma ticks_prefix_returns (lives : list dc_transform) :
  forall (s : daemon) (k : nat),
    outcome (ticks lives s) = Returned tt ->
    outcome (ticks (firstn k lives) s) = Returned tt.
Proof.
  induction lives as [|live rest IH]; intros s k H.
  - destruct k; reflexivity.
  - destruct k as [|k]; [reflexivity|].
    cbn [firstn]. rewrite ticks_cons in *.
    destruct (tick_simulator live s) as [[[]|e] s1 l1]; [|discriminate].
    cbn in *. apply IH. assumption.
Qed.

(** *** Normalising orientations *)

Lemma UnitQuaternion_of_unit_norm (s x y z : R) :
  (s * s + x * x + y * y + z * z = 1)%R ->
  UnitQuaternion s x y z = Some (mkquat (s / 1) (x / 1) (y / 1) (z / 1)).
Proof.
  intros H. unfold UnitQuaternion, quat_norm. rewrite H, sqrt_1.
  destruct (Req_dec_T 1 0) as [E|_]; [lra|reflexivity].
Qed.

Lemma _to_SE3_of_unit_norm (p : pose) :
  (q_s p * q_s p + q_x p * q_x p + q_y p * q_y p + q_z p * q_z p = 1)%R ->
  exists placed, _to_SE3 p = Some placed.
Proof.
  intros H. unfold _to_SE3. rewrite (UnitQuaternion_of_unit_norm _ _ _ _ H).
  eauto.
Qed.

Lemma _dc_tf_to_SE3_of_unit_norm (tf : dc_transform) :
  (r_w tf * r_w tf + r_x tf * r_x tf + r_y tf * r_y tf + r_z tf * r_z tf = 1)%R ->
  exists now, _dc_tf_to_SE3 tf = Some now.
Proof.
  intros H. unfold _dc_tf_to_SE3.
  rewrite (UnitQuaternion_of_unit_norm _ _ _ _ H). eauto.
Qed.

(** The check can be evaluated once a pose with a unit orientation was
    requested, the handle is there and the engine answers a unit rotation. *)
Lemma check_dirty_defined_of_unit (s : daemon) (live : dc_transform)
      (sp : pose) :
  start_pose s = Some (of_pose sp) ->
  (q_s sp * q_s sp + q_x sp * q_x sp + q_y sp * q_y sp + q_z sp * q_z sp = 1)%R ->
  _dc s <> None ->
  (r_w live * r_w live + r_x live * r_x live + r_y live * r_y live
   + r_z live * r_z live = 1)%R ->
  check_dirty_defined s live.
Proof.
  intros E Hq Hd Hl.
  destruct (_to_SE3_of_unit_norm (scale_translation sp)) as [placed Ep].
  { cbn. lra. }
  destruct (_dc_tf_to_SE3_of_unit_norm live Hl) as [now En].
  exists (of_pose sp), (SE3_f placed), (SE3_f now).
  rewrite scale_array_of_pose, _to_SE3f_of_pose, _dc_tf_to_SE3f_live, Ep, En.
  auto.
Qed.

(** *** C2: the cadence of sixty ticks *)

(** C2.  Take a daemon with a Session whose counter [sim_i] is 0 and run the
    scheduler sixty times.  If the run returns, it has ticked [clock] 60
    times, each of [diff_base], [lidar], [tf], [tf_sensors] 30 times, [rgbd]
    10 times and has evaluated [check_collided] once;  after the first [k]
    ticks the counter is [k] and each component has fired once for every
    multiple of its period among the counter values [0 .. k-1] (so the
    collision check is the one of the first tick).  The run does return
    whenever the daemon is already dirty or the drift check can be evaluated
    on every live pose. *)
Theorem sixty_ticks_cadence (s : daemon) (lives : list dc_transform) :
  inst s <> None -> sim s <> None -> sim_i s = 0%Z ->
  List.length lives = 60%nat ->
  (outcome (ticks lives s) = Returned tt ->
   cadence_of (emitted (ticks lives s)) = mkcadence 60 30 30 30 30 10 1 /\
   sim_i (final (ticks lives s)) = 60%Z /\
   cadence_of (emitted (ticks (firstn 1 lives) s)) = mkcadence 1 1 1 1 1 1 1 /\
   forall k : nat,
     (k <= 60)%nat ->
     outcome (ticks (firstn k lives) s) = Returned tt /\
     sim_i (final (ticks (firstn k lives) s)) = Z.of_nat k /\
     cadence_of (emitted (ticks (firstn k lives) s)) = expected_cadence 0 k) /\
  (sim_dirty s = true \/ Forall (check_dirty_defined s) lives ->
   outcome (ticks lives s) = Returned tt).
Proof.
  intros Hi Hs H0 Hn. split.
  - intros Hr.
    assert (P : forall k : nat,
               (k <= 60)%nat ->
               outcome (ticks (firstn k lives) s) = Returned tt /\
               sim_i (final (ticks (firstn k lives) s)) = Z.of_nat k /\
               cadence_of (emitted (ticks (firstn k lives) s))
               = expected_cadence 0 k).
    { intros k Hk.
      pose proof (ticks_prefix_returns lives s k Hr) as Hp.
      split; [assumption|].
      destruct (ticks_cadence _ s _ _ Hi Hs (run_returned _ Hp))
        as (Ei & _ & _ & Ec).
      rewrite length_firstn, Hn, Nat.min_l in Ei, Ec by assumption.
      rewrite H0 in Ei, Ec. split; [rewrite Ei; lia|assumption]. }
    destruct (P 60%nat (Nat.le_refl _)) as (_ & Ei & Ec).
    rewrite firstn_all2 in Ei, Ec by lia.
    destruct (P 1%nat) as (_ & _ & E1); [lia|].
    repeat split; try assumption; apply P; assumption.
  - apply ticks_return; assumption.
Qed.

Lemma standing_still_defined : check_dirty_defined running_daemon standing_still.
Proof.
  apply (check_dirty_defined_of_unit _ _ DEFAULT_POSE);
    cbn; try reflexivity; try discriminate; lra.
Qed.

Lemma sixty_ticks_cadence_witness :
  outcome (ticks (repeat standing_still 60) running_daemon) = Returned tt /\
  cadence_of (emitted (ticks (repeat standing_still 60) running_daemon))
  = mkcadence 60 30 30 30 30 10 1.
Proof.
  destruct (sixty_ticks_cadence running_daemon (repeat standing_still 60))
    as [C T]; try discriminate; try reflexivity.
  assert (R : outcome (ticks (repeat standing_still 60) running_daemon)
              = Returned tt).
  { apply T. right. apply Forall_forall. intros x Hx.
    apply repeat_spec in Hx. subst x. exact standing_still_defined. }
  split; [exact R|]. apply (C R).
Defined.

(** *** C4: dirty is sticky *)

Lemma drift_calls_app (l1 l2 : list event) :
  drift_calls (l1 ++ l2) =
  (fst (fst (drift_calls l1)) + fst (fst (drift_calls l2)),
   snd (fst (drift_calls l1)) + snd (fst (drift_calls l2)),
   snd (drift_calls l1) + snd (drift_calls l2))%nat.
Proof. unfold drift_calls; cbn. rewrite !count_app. reflexivity. Qed.

Lemma drift_calls_tick_calls (i : Z) : drift_calls (tick_calls i) = (0, 0, 0)%nat.
Proof.
  unfold tick_calls. destruct (i mod 2 =? 0)%Z, (i mod 6 =? 0)%Z; reflexivity.
Qed.

Lemma drift_calls_collision_calls (i : Z) :
  drift_calls (collision_calls i) = (0, 0, 0)%nat.
Proof. unfold collision_calls. destruct (i mod 60 =? 0)%Z; reflexivity. Qed.

Lemma sim_dirty_after_collision_check (i v : Z) (s : daemon) :
  sim_dirty (set_sim_i v (after_collision_check i s)) = sim_dirty s.
Proof. unfold after_collision_check. destruct (i mod 60 =? 0)%Z; reflexivity. Qed.

(** One tick, seen from the drift monitor: the marker is touched exactly
    when [sim_dirty] goes from false to true, and a dirty daemon never asks
    again. *)
Lemma tick_dirty_step (live : dc_transform) (s : daemon) :
  inst s <> None -> sim s <> None ->
  inst (final (tick_simulator live s)) = inst s /\
  sim (final (tick_simulator live s)) = sim s /\
  (snd (drift_calls (emitted (tick_simulator live s))) + b2n (sim_dirty s)
   = b2n (sim_dirty (final (tick_simulator live s))))%nat /\
  (sim_dirty s = true ->
   drift_calls (emitted (tick_simulator live s)) = (0, 0, 0)%nat).
Proof.
  intros Hi Hs. rewrite (tick_active_run live s Hi Hs).
  destruct (check_dirty_cases s live) as (o & lc & E & Hl).
  rewrite E; cbn [outcome emitted].
  assert (Hc : snd (drift_calls lc) = 0%nat)
    by (destruct Hl as [[-> _]| ->]; reflexivity).
  assert (F : forall s0 : daemon,
             inst (after_collision_check (sim_i s) s0) = inst s0 /\
             sim (after_collision_check (sim_i s) s0) = sim s0)
    by (intros s0; unfold after_collision_check;
        destruct (sim_i s mod 60 =? 0)%Z; split; reflexivity).
  destruct (sim_dirty s) eqn:Ed; rewrite ?andb_false_r, ?andb_true_r; cbn [negb].
  - cbn [final emitted]. rewrite sim_dirty_after_collision_check.
    rewrite drift_calls_app, drift_calls_tick_calls, drift_calls_collision_calls.
    cbn. rewrite Ed. destruct (F s). auto.
  - destruct (sim_i s mod 6 =? 0)%Z.
    + destruct o as [b|e]; cbn [final emitted].
      * rewrite sim_dirty_after_collision_check.
        rewrite !drift_calls_app, drift_calls_tick_calls,
          drift_calls_collision_calls.
        cbn [fst snd sim_dirty set_sim_i set_sim_dirty inst sim]. rewrite Hc.
        destruct (F (set_sim_dirty b s)) as [-> ->].
        repeat split; try discriminate. destruct b; reflexivity.
      * rewrite !drift_calls_app, drift_calls_tick_calls.
        cbn [fst snd]. rewrite Hc, Ed. repeat split; try discriminate.
    + cbn [final emitted]. rewrite sim_dirty_after_collision_check.
      rewrite drift_calls_app, drift_calls_tick_calls,
        drift_calls_collision_calls.
      cbn. rewrite Ed. destruct (F s). repeat split; try discriminate; auto.
Qed.

(** The same over a run of ticks, however it ends. *)
Lemma ticks_dirty (lives : list dc_transform) :
  forall s : daemon,
    inst s <> None -> sim s <> None ->
    (snd (drift_calls (emitted (ticks lives s))) + b2n (sim_dirty s)
     = b2n (sim_dirty (final (ticks lives s))))%nat /\
    (sim_dirty s = true ->
     drift_calls (emitted (ticks lives s)) = (0, 0, 0)%nat).
Proof.
  induction lives as [|live rest IH]; intros s Hi Hs.
  - cbn. auto.
  - rewrite ticks_cons.
    destruct (tick_dirty_step live s Hi Hs) as (Ei & Es & Em & Hd).
    destruct (tick_simulator live s) as [[[]|e] s1 l1]; cbn [final emitted] in *.
    + destruct (IH s1) as (Em' & Hd'); [congruence..|].
      rewrite drift_calls_app. cbn [fst snd]. split; [lia|].
      intros D. specialize (Hd D). rewrite Hd in *. cbn in Em.
      rewrite D in Em. cbn in Em.
      destruct (sim_dirty s1); [|discriminate].
      rewrite (Hd' eq_refl). reflexivity.
    + auto.
Qed.

(** C4.  While a Session lasts (ticks only, whatever the live poses are),
    a daemon that is dirty stays dirty: every tick returns, [check_dirty] is
    not evaluated, the engine is not asked for the pose and the marker file
    is not touched again.  Starting from a daemon that is not dirty, the
    marker file is touched once if the run ends dirty and not at all
    otherwise.  [stop_simulation] keeps the flag;  the flag goes back to
    false only where [start_simulation] starts a Session. *)
Theorem dirty_is_sticky (s : daemon) (lives : list dc_transform) :
  inst s <> None -> sim s <> None ->
  (sim_dirty s = true ->
   outcome (ticks lives s) = Returned tt /\
   sim_dirty (final (ticks lives s)) = true /\
   drift_calls (emitted (ticks lives s)) = (0, 0, 0)%nat) /\
  (sim_dirty s = false ->
   count is_touch (emitted (ticks lives s))
   = b2n (sim_dirty (final (ticks lives s))) /\
   (count is_touch (emitted (ticks lives s)) <= 1)%nat) /\
  sim_dirty (final (stop_simulation s)) = sim_dirty s /\
  (missing_required_state s = false ->
   sim_dirty (final (start_simulation s)) = false).
Proof.
  intros Hi Hs. destruct (ticks_dirty lives s Hi Hs) as [Em Hd].
  split; [|split; [|split]].
  - intros D. split; [apply ticks_return; auto|]. split; [|auto].
    rewrite (Hd D), D in Em. cbn in Em.
    destruct (sim_dirty (final (ticks lives s))); [reflexivity|discriminate].
  - intros D. rewrite D in Em. cbn [b2n] in Em. rewrite Nat.add_0_r in Em.
    change (count is_touch (emitted (ticks lives s)))
      with (snd (drift_calls (emitted (ticks lives s)))).
    rewrite Em. split; [reflexivity|].
    destruct (sim_dirty (final (ticks lives s))); cbn; lia.
  - rewrite stop_simulation_run.
    destruct (sim s), (inst s); reflexivity.
  - intros M. rewrite (start_simulation_running s Hs Hi), M. reflexivity.
Qed.

Lemma dirty_is_sticky_witness :
  outcome (ticks (repeat standing_still 13) dirty_daemon) = Returned tt /\
  sim_dirty (final (ticks (repeat standing_still 13) dirty_daemon)) = true /\
  drift_calls (emitted (ticks (repeat standing_still 13) dirty_daemon))
  = (0, 0, 0)%nat.
Proof.
  apply (dirty_is_sticky dirty_daemon (repeat standing_still 13));
    try discriminate; reflexivity.
Defined.

(** *** Placing the robot and opening the map *)

(** [place_robot] past its two guards, step by step. *)
Lemma place_robot_run (s : daemon) (usd : string) :
  inst s <> None -> robot_usd s = Some usd ->
  place_robot s =
  let r0 := stop_simulation s in
  let s1 := load_robot (final r0) in
  let before := (emitted r0 ++ load_robot_calls usd s)%list in
  if differs_from (requested_pose s) (_start_pose s1) then
    match _robot s1 with
    | None => mkrun (Raised AttributeError) s1 before
    | Some _ =>
        let r3 := start_simulation (set__start_pose (Some (requested_pose s)) s1) in
        mkrun (outcome r3) (final r3)
              (before ++ move_calls (requested_pose s) ++ disable_calls
               ++ emitted r3)
    end
  else
    let r3 := start_simulation s1 in
    mkrun (outcome r3) (final r3)
          (before ++ [stdout "Skipping robot move; already at requested pose."]
           ++ disable_calls ++ emitted r3).
Proof.
  intros Hi Hr.
  destruct s as [[a|] c n col dty m r sp m' r' sp' dc rb rdc];
    cbn in Hi, Hr; [|congruence]. subst r.
  unfold place_robot, load_robot, load_robot_calls, requested_pose,
    disable_calls, move_calls.
  unfold bind at 1. unfold get at 1. cbn [inst robot_usd].
  unfold bind at 1. rewrite stop_simulation_run.
  destruct c as [c|]; cbn [sim inst final emitted outcome];
    unfold_monad; cbn [robot_usd _robot_usd start_pose set_sim];
    destruct (usd_differs (Some usd) r'); cbn;
    match goal with |- context [differs_from ?p ?q] =>
      destruct (differs_from p q) end; cbn; try reflexivity;
    try (destruct rb; cbn; try reflexivity);
    match goal with |- context [start_simulation ?x] =>
      destruct (start_simulation x); reflexivity end.
Qed.

Lemma place_robot_no_instance (s : daemon) :
  inst s = None ->
  place_robot s =
  mkrun (Returned tt) s
        [stdout "No simulator running. Stored robot USD & pose, but not opening."].
Proof.
  intros E. unfold place_robot; unfold_monad; cbn. rewrite E. reflexivity.
Qed.

Lemma place_robot_no_robot (s : daemon) :
  inst s <> None -> robot_usd s = None ->
  place_robot s = mkrun (Returned tt) s [stdout "No robot USD selected. Returning."].
Proof.
  intros Hi E. unfold place_robot; unfold_monad; cbn.
  destruct (inst s); [|congruence]. rewrite E. reflexivity.
Qed.

Lemma loads_app (l1 l2 : list event) :
  loads (l1 ++ l2) =
  (fst (fst (loads l1)) + fst (fst (loads l2)),
   snd (fst (loads l1)) + snd (fst (loads l2)),
   snd (loads l1) + snd (loads l2))%nat.
Proof. unfold loads; cbn. rewrite !count_app. reflexivity. Qed.

Lemma stop_simulation_scene (s : daemon) :
  outcome (stop_simulation s) = Returned tt /\
  scene (final (stop_simulation s)) = scene s /\
  loads (emitted (stop_simulation s)) = (0, 0, 0)%nat /\
  (inst s <> None -> sim (final (stop_simulation s)) = None).
Proof.
  rewrite stop_simulation_run.
  destruct s as [[a|] [c|] n col dty m r sp m' r' sp' dc rb rdc]; cbn;
    repeat split; congruence.
Qed.

Lemma start_simulation_scene (s : daemon) :
  outcome (start_simulation s) = Returned tt /\
  scene (final (start_simulation s)) = scene s /\
  loads (emitted (start_simulation s)) = (0, 0, 0)%nat.
Proof.
  unfold start_simulation, stop_simulation; unfold_monad.
  destruct s as [[a|] [c|] n col dty [m|] [r|] sp m' r' sp' dc rb rdc]; cbn;
    repeat split.
Qed.

Lemma loads_disable_calls : loads disable_calls = (0, 0, 0)%nat.
Proof. reflexivity. Qed.

Lemma Rneqb_refl (x : R) : Rneqb x x = false.
Proof. unfold Rneqb. destruct (Req_dec_T x x); congruence. Qed.

Lemma pose_differs_refl (p : pose) : array_differs (of_pose p) (of_pose p) = false.
Proof.
  unfold array_differs, of_pose. cbn. rewrite !Rneqb_refl. reflexivity.
Qed.

(** An array without NaN does not differ from itself. *)
Lemma array_differs_refl (a : ndarray) : nan_free a -> array_differs a a = false.
Proof. intros [p ->]. apply pose_differs_refl. Qed.

Lemma usd_differs_refl (a : option string) : usd_differs a a = false.
Proof. destruct a; cbn; [rewrite String.eqb_refl|]; reflexivity. Qed.

Lemma load_robot_scene (s : daemon) :
  inst (load_robot s) = inst s /\ sim (load_robot s) = sim s /\
  map_usd (load_robot s) = map_usd s /\
  robot_usd (load_robot s) = robot_usd s /\
  start_pose (load_robot s) = start_pose s /\
  _map_usd (load_robot s) = _map_usd s /\
  _start_pose (load_robot s) = _start_pose s /\
  usd_differs (robot_usd s) (_robot_usd (load_robot s)) = false /\
  (_robot (load_robot s) = None ->
   usd_differs (robot_usd s) (_robot_usd s) = false /\ load_robot s = s).
Proof.
  unfold load_robot.
  destruct (usd_differs (robot_usd s) (_robot_usd s)) eqn:E; cbn;
    repeat split; auto using usd_differs_refl; discriminate.
Qed.

Lemma loads_load_robot_calls (usd : string) (s : daemon) :
  loads (load_robot_calls usd s)
  = (0, b2n (usd_differs (robot_usd s) (_robot_usd s)), 0)%nat.
Proof.
  unfold load_robot_calls.
  destruct (usd_differs (robot_usd s) (_robot_usd s)); reflexivity.
Qed.

(** What one call of [place_robot] loads, and what it leaves alone. *)
Lemma place_robot_effect (s : daemon) :
  inst (final (place_robot s)) = inst s /\
  map_usd (final (place_robot s)) = map_usd s /\
  robot_usd (final (place_robot s)) = robot_usd s /\
  start_pose (final (place_robot s)) = start_pose s /\
  _map_usd (final (place_robot s)) = _map_usd s /\
  fst (fst (loads (emitted (place_robot s)))) = 0%nat /\
  (snd (fst (loads (emitted (place_robot s)))) <= 1)%nat /\
  (snd (loads (emitted (place_robot s))) <= 1)%nat /\
  (settled s -> snd (fst (loads (emitted (place_robot s)))) = 0%nat /\
                snd (loads (emitted (place_robot s))) = 0%nat) /\
  (nan_free (requested_pose s) -> settled (final (place_robot s))) /\
  (_robot_usd s <> None -> _robot_usd (final (place_robot s)) <> None) /\
  (_start_pose s <> None -> _start_pose (final (place_robot s)) <> None) /\
  (inst s <> None -> robot_usd s <> None ->
   usd_differs (robot_usd s) (_robot_usd (final (place_robot s))) = false).
Proof.
  destruct (inst s) as [a|] eqn:Ei.
  2:{ rewrite (place_robot_no_instance s Ei). cbn.
      splits; auto; try lia; try (intros; congruence). left; assumption. }
  destruct (robot_usd s) as [usd|] eqn:Er.
  2:{ rewrite (place_robot_no_robot s); [|congruence|assumption]. cbn.
      splits; auto; try lia; try (intros; congruence).
      right; left; assumption. }
  rewrite (place_robot_run s usd) by congruence. cbv zeta.
  destruct (stop_simulation_scene s) as (_ & [= S1 S2 S3 S4 S5 S6 S7 S8] & L0 & _).
  set (s0 := final (stop_simulation s)) in *.
  destruct (load_robot_scene s0)
    as (I1 & _ & I2 & I3 & I4 & I5 & I6 & I7 & I8).
  assert (Lc : loads (load_robot_calls usd s)
               = (0, b2n (usd_differs (robot_usd s) (_robot_usd s)), 0)%nat)
    by apply loads_load_robot_calls.
  assert (Hb : (b2n (usd_differs (robot_usd s) (_robot_usd s)) <= 1)%nat)
    by (destruct (usd_differs (robot_usd s) (_robot_usd s)); cbn; lia).
  assert (Hset : settled s ->
                 usd_differs (robot_usd s) (_robot_usd s) = false /\
                 load_robot s0 = s0 /\
                 (differs_from (requested_pose s) (_start_pose s) = false \/
                  _robot s = None)).
  { intros [H|[H|[H1 H2]]]; [congruence..|]. splits; auto.
    unfold load_robot. rewrite S3, S6, H1. reflexivity. }
  assert (Hkeep : _robot_usd s <> None -> _robot_usd (load_robot s0) <> None).
  { intros _ E. pose proof I7 as I7'. rewrite E, S3, Er in I7'. discriminate. }
  assert (Hsettled : forall s2 : daemon,
             scene s2 = scene (load_robot s0) \/
             scene s2 = scene (set__start_pose (Some (requested_pose s))
                                               (load_robot s0)) ->
             differs_from (requested_pose s) (_start_pose s2) = false \/
             _robot s2 = None ->
             settled s2).
  { intros s2 Hsc Hm. right; right.
    assert (E : robot_usd s2 = robot_usd s0 /\
                _robot_usd s2 = _robot_usd (load_robot s0) /\
                start_pose s2 = start_pose s).
    { destruct Hsc as [Hsc|Hsc]; injection Hsc; cbn; intros; splits;
        congruence. }
    destruct E as (E1 & E2 & E3). rewrite E1, E2. split; [exact I7|].
    unfold requested_pose. rewrite E3. exact Hm. }
  destruct (differs_from (requested_pose s) (_start_pose (load_robot s0))) eqn:Ed.
  - destruct (_robot (load_robot s0)) as [rb|] eqn:Erb.
    + destruct (start_simulation_scene
                  (set__start_pose (Some (requested_pose s)) (load_robot s0)))
        as (_ & Hsc & L3).
      pose proof Hsc as [= T1 T2 T3 T4 T5 T6 T7 T8].
      cbn [final emitted]. cbn in T1, T2, T3, T4, T5, T6, T7, T8.
      rewrite !loads_app, L0, Lc, L3, loads_disable_calls.
      change (loads (move_calls (requested_pose s))) with (0, 0, 1)%nat.
      cbn [fst snd].
      splits; try congruence; try lia.
      * intros H. apply Hset in H. destruct H as (Hu & Hl & [H|H]).
        -- rewrite Hl, S7, H in Ed. discriminate.
        -- rewrite Hl, S8, H in Erb. discriminate.
      * intros Hnf. apply Hsettled; [right; exact Hsc|]. left. rewrite T7. cbn.
        apply array_differs_refl. exact Hnf.
      * rewrite T6. exact Hkeep.
    + cbn [final emitted]. rewrite !loads_app, L0, Lc. cbn [fst snd].
      destruct (I8 eq_refl) as [Eu Es]. rewrite S3, S6 in Eu. rewrite Eu. cbn.
      splits; try congruence; try lia.
      * intros _. apply Hsettled; auto.
      * intros _ _. rewrite S3, Er in I7. exact I7.
  - destruct (start_simulation_scene (load_robot s0)) as (_ & Hsc & L3).
    pose proof Hsc as [= T1 T2 T3 T4 T5 T6 T7 T8].
    cbn [final emitted].
    rewrite !loads_app, L0, Lc, L3, loads_disable_calls. cbn [fst snd].
    splits; try congruence; try (cbn; lia).
    + intros H. apply Hset in H. destruct H as (Hu & _). rewrite Hu.
      split; reflexivity.
    + intros _. apply Hsettled; [left; exact Hsc|]. left. rewrite T7. exact Ed.
    + rewrite T6. exact Hkeep.
Qed.

(** How many robots [place_robot] spawns. *)
Lemma place_robot_spawns (s : daemon) (usd : string) :
  inst s <> None -> robot_usd s = Some usd ->
  count is_add_reference (emitted (place_robot s))
  = b2n (usd_differs (robot_usd s) (_robot_usd s)).
Proof.
  intros Hi Er.
  rewrite (place_robot_run s usd) by congruence. cbv zeta.
  destruct (stop_simulation_scene s) as (_ & _ & L0 & _).
  pose proof (loads_load_robot_calls usd s) as Lc.
  generalize dependent (stop_simulation s). intros r0 L0.
  change (count is_add_reference ?l) with (snd (fst (loads l))).
  destruct (differs_from _ _).
  - destruct (_robot (load_robot (final r0))).
    + match goal with |- context [start_simulation ?x] =>
        destruct (start_simulation_scene x) as (_ & _ & L3);
        generalize dependent (start_simulation x) end.
      intros r3 L3. cbn [emitted].
      rewrite !loads_app, L0, Lc, L3, loads_disable_calls.
      change (loads (move_calls (requested_pose s))) with (0, 0, 1)%nat.
      cbn. lia.
    + cbn [emitted]. rewrite !loads_app, L0, Lc. cbn. lia.
  - match goal with |- context [start_simulation ?x] =>
      destruct (start_simulation_scene x) as (_ & _ & L3);
      generalize dependent (start_simulation x) end.
    intros r3 L3. cbn [emitted].
    rewrite !loads_app, L0, Lc, L3, loads_disable_calls.
    cbn. lia.
Qed.

Lemma open_usd_no_instance (s : daemon) :
  inst s = None ->
  open_usd s =
  mkrun (Returned tt) s
        [stdout "No simulator running. Stored environment USD, but not opening."].
Proof.
  intros E. unfold open_usd; unfold_monad; cbn. rewrite E. reflexivity.
Qed.

Lemma open_usd_no_map (s : daemon) :
  inst s <> None -> map_usd s = None ->
  open_usd s =
  mkrun (Returned tt) s [stdout "No environment USD selected. Returning."].
Proof.
  intros Hi E. unfold open_usd; unfold_monad; cbn.
  destruct (inst s); [|congruence]. rewrite E. reflexivity.
Qed.

(** [open_usd] past its two guards, step by step. *)
Lemma open_usd_run (s : daemon) (usd : string) :
  inst s <> None -> map_usd s = Some usd ->
  open_usd s =
  let r0 := stop_simulation s in
  if usd_differs (map_usd s) (_map_usd s) then
    let r := place_robot (set__map_usd (map_usd s) (invalidate_scene (final r0))) in
    mkrun (outcome r) (final r)
          (emitted r0 ++ [open_stage usd; update_stage] ++ emitted r)
  else
    let r := place_robot (final r0) in
    mkrun (outcome r) (final r)
          (emitted r0 ++ [stdout "Skipping map load; already loaded."]
           ++ emitted r).
Proof.
  intros Hi Hm.
  destruct s as [[a|] c n col dty m r sp m' r' sp' dc rb rdc];
    cbn in Hi, Hm; [|congruence]. subst m.
  unfold open_usd, invalidate_scene.
  unfold bind at 1. unfold get at 1. cbn [inst map_usd].
  unfold bind at 1. rewrite stop_simulation_run.
  destruct c as [c|]; cbn [sim inst final emitted outcome];
    unfold_monad; cbn [map_usd _map_usd set_sim];
    destruct (usd_differs (Some usd) m'); cbn;
    match goal with |- context [place_robot ?x] =>
      destruct (place_robot x); reflexivity end.
Qed.

(** What one call of [open_usd] opens, and where it leaves the map. *)
Lemma open_usd_effect (s : daemon) :
  inst (final (open_usd s)) = inst s /\
  map_usd (final (open_usd s)) = map_usd s /\
  fst (fst (loads (emitted (open_usd s))))
  = match inst s, map_usd s with
    | Some _, Some _ => b2n (usd_differs (map_usd s) (_map_usd s))
    | _, _ => 0%nat
    end /\
  (inst s <> None -> map_usd s <> None ->
   _map_usd (final (open_usd s)) = map_usd s).
Proof.
  destruct (inst s) as [a|] eqn:Ei.
  2:{ rewrite (open_usd_no_instance s Ei). cbn. splits; auto. congruence. }
  destruct (map_usd s) as [usd|] eqn:Em.
  2:{ rewrite (open_usd_no_map s); [|congruence|assumption]. cbn.
      splits; auto. congruence. }
  rewrite (open_usd_run s usd) by congruence. cbv zeta.
  destruct (stop_simulation_scene s) as (_ & [= S1 S2 S3 S4 S5 S6 S7 S8] & L0 & _).
  rewrite Em.
  destruct (usd_differs (Some usd) (_map_usd s)) eqn:Ed.
  - pose proof (place_robot_effect
                  (set__map_usd (Some usd)
                     (invalidate_scene (final (stop_simulation s)))))
      as (P1 & P2 & _ & _ & P5 & P6 & _).
    generalize dependent (place_robot
                            (set__map_usd (Some usd)
                               (invalidate_scene (final (stop_simulation s))))).
    generalize dependent (stop_simulation s).
    intros r0 S1 S2 S3 S4 S5 S6 S7 S8 L0 r P1 P2 P5 P6.
    cbn [final emitted].
    cbn [inst map_usd _map_usd set__map_usd invalidate_scene set__robot_usd
         set__robot_dc set__robot set__start_pose set__dc] in P1, P2, P5.
    rewrite !loads_app, L0, P6. cbn. splits; congruence.
  - pose proof (place_robot_effect (final (stop_simulation s)))
      as (P1 & P2 & _ & _ & P5 & P6 & _).
    generalize dependent (place_robot (final (stop_simulation s))).
    generalize dependent (stop_simulation s).
    intros r0 S1 S2 S3 S4 S5 S6 S7 S8 L0 r P1 P2 P5 P6.
    cbn [final emitted].
    rewrite !loads_app, L0, P6. cbn. splits; try congruence.
    intros _ _. rewrite P5, S5.
    destruct (_map_usd s) as [m'|]; cbn in Ed; [|discriminate].
    destruct (String.eqb_spec usd m'); [congruence|discriminate].
Qed.

(** *** C3: loading is idempotent *)

Lemma serve_reaches (rs : list request) :
  forall (h : list event) (s : daemon),
    reaches h s -> reaches (fst (serve rs h s)) (snd (serve rs h s)).
Proof.
  induction rs as [|r rs IH]; intros h s H; [exact H|].
  cbn [serve]. apply IH. apply reaches_request. exact H.
Qed.

Lemma open_usd_twice (s : daemon) :
  (fst (fst (loads (fst (twice open_usd s)))) <= 1)%nat /\
  fst (fst (loads (snd (twice open_usd s)))) = 0%nat.
Proof.
  unfold twice; cbn [fst snd].
  destruct (open_usd_effect s) as (E1 & E2 & E3 & E4).
  destruct (open_usd_effect (final (open_usd s))) as (_ & _ & F3 & _).
  rewrite E3, F3, E1, E2. clear E3 F3.
  destruct (inst s) as [a|]; [|split; [lia|reflexivity]].
  destruct (map_usd s) as [usd|] eqn:Em; [|split; [lia|reflexivity]].
  rewrite E4 by congruence. rewrite usd_differs_refl.
  split; [|reflexivity].
  destruct (usd_differs (Some usd) (_map_usd s)); cbn; lia.
Qed.

Lemma place_robot_twice (s : daemon) :
  (snd (fst (loads (fst (twice place_robot s)))) <= 1)%nat /\
  (snd (loads (fst (twice place_robot s))) <= 1)%nat /\
  snd (fst (loads (snd (twice place_robot s)))) = 0%nat /\
  (nan_free (requested_pose s) ->
   snd (loads (snd (twice place_robot s))) = 0%nat).
Proof.
  unfold twice; cbn [fst snd].
  destruct (place_robot_effect s)
    as (E1 & _ & E3 & _ & _ & _ & A & B & _ & S & _ & _ & U).
  destruct (place_robot_effect (final (place_robot s)))
    as (_ & _ & _ & _ & _ & _ & _ & _ & Z & _).
  splits; try assumption.
  - change (snd (fst (loads ?l))) with (count is_add_reference l).
    destruct (inst s) as [a|] eqn:Ei.
    + destruct (robot_usd s) as [usd|] eqn:Er.
      * rewrite (place_robot_spawns (final (place_robot s)) usd);
          [|congruence|congruence].
        rewrite E3, U by discriminate. reflexivity.
      * rewrite (place_robot_no_robot (final (place_robot s)));
          [reflexivity|congruence|congruence].
    + rewrite (place_robot_no_instance (final (place_robot s)));
        [reflexivity|congruence].
  - intros Hnf. apply Z. apply S. exact Hnf.
Qed.

Lemma set_map_usd_same (s : daemon) : set_map_usd (map_usd s) s = s.
Proof. destruct s; reflexivity. Qed.

Lemma set_robot_usd_same (s : daemon) : set_robot_usd (robot_usd s) s = s.
Proof. destruct s; reflexivity. Qed.

Lemma set_start_pose_same (s : daemon) : set_start_pose (start_pose s) s = s.
Proof. destruct s; reflexivity. Qed.

Lemma handle_open_environment (e : key string) (s : daemon) :
  handle (open_environment e) s = open_usd (with_environment e s).
Proof.
  unfold handle, with_environment, assign, assigned, bind, modify, ret.
  destruct e; generalize (open_usd s); intros r; try destruct r; try reflexivity;
    match goal with |- context [open_usd ?x] =>
      generalize (open_usd x); intros [o s2 l2]; reflexivity end.
Qed.

(** The route [/place_robot]: it reaches [place_robot] when the parsing of
    [start_pose] does not raise, and otherwise ends in the exception, with
    the robot already assigned and nothing emitted. *)
Lemma handle_place_robot_at (rb : key string) (ps : key pose_text)
      (s : daemon) :
  handle (place_robot_at rb ps) s
  = match parse_error ps with
    | None => place_robot (with_robot rb ps s)
    | Some e => mkrun (Raised e) (with_robot rb ps s) []
    end.
Proof.
  unfold handle, with_robot, parse_error, assign, assigned, bind, modify, ret,
    raise.
  destruct rb as [| |usd], ps as [| |[arr|]]; try reflexivity;
    match goal with |- context [place_robot ?x] =>
      generalize (place_robot x); intros [o s2 l2]; reflexivity end.
Qed.

(** What [with_environment] and [with_robot] leave alone. *)
Lemma with_environment_frame (e : key string) (s : daemon) :
  inst (with_environment e s) = inst s /\
  sim (with_environment e s) = sim s /\
  robot_usd (with_environment e s) = robot_usd s /\
  start_pose (with_environment e s) = start_pose s /\
  scene (with_environment e s)
  = scene (set_map_usd (assigned e (map_usd s)) s) /\
  map_usd (with_environment e s) = assigned e (map_usd s) /\
  sim_collided (with_environment e s) = sim_collided s /\
  sim_dirty (with_environment e s) = sim_dirty s /\
  _dc (with_environment e s) = _dc s /\
  _robot_dc (with_environment e s) = _robot_dc s.
Proof. destruct e, s; splits; reflexivity. Qed.

Lemma with_robot_frame (rb : key string) (ps : key pose_text) (s : daemon) :
  inst (with_robot rb ps s) = inst s /\
  sim (with_robot rb ps s) = sim s /\
  map_usd (with_robot rb ps s) = map_usd s /\
  robot_usd (with_robot rb ps s) = assigned rb (robot_usd s) /\
  _map_usd (with_robot rb ps s) = _map_usd s /\
  _robot_usd (with_robot rb ps s) = _robot_usd s /\
  _start_pose (with_robot rb ps s) = _start_pose s /\
  _robot (with_robot rb ps s) = _robot s /\
  sim_collided (with_robot rb ps s) = sim_collided s /\
  sim_dirty (with_robot rb ps s) = sim_dirty s /\
  _dc (with_robot rb ps s) = _dc s /\
  _robot_dc (with_robot rb ps s) = _robot_dc s.
Proof. destruct rb as [| |usd], ps as [| |[arr|]], s; splits; reflexivity. Qed.

(** Serving the same request on the daemon it has left assigns nothing
    new. *)
Lemma with_environment_again (e : key string) (s s' : daemon) :
  map_usd s' = map_usd (with_environment e s) -> with_environment e s' = s'.
Proof.
  intros E. destruct e; [reflexivity| |]; cbn [with_environment assigned] in *;
    cbn [map_usd set_map_usd] in E; rewrite <- E at 1; apply set_map_usd_same.
Qed.

Lemma with_robot_again (rb : key string) (ps : key pose_text) (s s' : daemon) :
  robot_usd s' = robot_usd (with_robot rb ps s) ->
  start_pose s' = start_pose (with_robot rb ps s) ->
  with_robot rb ps s' = s'.
Proof.
  intros E3 E4. unfold with_robot in *.
  destruct rb as [| |usd], ps as [| |[arr|]];
    cbn [assigned robot_usd start_pose set_robot_usd set_start_pose] in E3, E4;
    try reflexivity;
    try (rewrite <- E3 at 1; rewrite set_robot_usd_same);
    try (rewrite <- E4 at 1; rewrite set_start_pose_same);
    try reflexivity;
    try (rewrite <- E3 at 1; apply set_robot_usd_same);
    try (rewrite <- E4 at 1; apply set_start_pose_same).
Qed.

(** C3, as the code has it.  Calling [open_usd] twice in a row opens a map
    ([open_stage]) at most once, and never in the second call;  calling
    [place_robot] twice in a row spawns the robot ([add_reference_to_stage])
    at most once, and never in the second call;  each call teleports the
    robot ([set_world_pose]) at most once, and when the requested pose holds
    no NaN the two calls together teleport it at most once, the second call
    never.  This holds for every daemon, for the methods called directly and
    for the routes [/open_environment] and [/place_robot] served twice with
    the same document, whether the routes return or raise. *)
Theorem loading_is_idempotent (s : daemon) :
  ((count is_open_stage (fst (twice open_usd s) ++ snd (twice open_usd s)) <= 1)%nat /\
   count is_open_stage (snd (twice open_usd s)) = 0%nat) /\
  ((count is_add_reference
      (fst (twice place_robot s) ++ snd (twice place_robot s)) <= 1)%nat /\
   count is_add_reference (snd (twice place_robot s)) = 0%nat /\
   (count is_set_world_pose (fst (twice place_robot s)) <= 1)%nat /\
   (count is_set_world_pose (snd (twice place_robot s)) <= 1)%nat /\
   (nan_free (requested_pose s) ->
    (count is_set_world_pose
       (fst (twice place_robot s) ++ snd (twice place_robot s)) <= 1)%nat /\
    count is_set_world_pose (snd (twice place_robot s)) = 0%nat)) /\
  (forall e : key string,
      (count is_open_stage
         (fst (twice (handle (open_environment e)) s)
          ++ snd (twice (handle (open_environment e)) s)) <= 1)%nat) /\
  (forall (rb : key string) (ps : key pose_text),
      (count is_add_reference
         (fst (twice (handle (place_robot_at rb ps)) s)
          ++ snd (twice (handle (place_robot_at rb ps)) s)) <= 1)%nat /\
      (nan_free (requested_pose (with_robot rb ps s)) ->
       (count is_set_world_pose
          (fst (twice (handle (place_robot_at rb ps)) s)
           ++ snd (twice (handle (place_robot_at rb ps)) s)) <= 1)%nat)).
Proof.
  assert (O : forall s0 : daemon,
             (count is_open_stage
                (fst (twice open_usd s0) ++ snd (twice open_usd s0)) <= 1)%nat /\
             count is_open_stage (snd (twice open_usd s0)) = 0%nat).
  { intros s0. destruct (open_usd_twice s0) as [A B].
    unfold loads in A, B; cbn [fst snd] in A, B.
    rewrite count_app. split; [lia|assumption]. }
  assert (P : forall s0 : daemon,
             (count is_add_reference
                (fst (twice place_robot s0) ++ snd (twice place_robot s0)) <= 1)%nat /\
             count is_add_reference (snd (twice place_robot s0)) = 0%nat /\
             (count is_set_world_pose (fst (twice place_robot s0)) <= 1)%nat /\
             (count is_set_world_pose (snd (twice place_robot s0)) <= 1)%nat /\
             (nan_free (requested_pose s0) ->
              (count is_set_world_pose
                 (fst (twice place_robot s0) ++ snd (twice place_robot s0))
               <= 1)%nat /\
              count is_set_world_pose (snd (twice place_robot s0)) = 0%nat)).
  { intros s0. destruct (place_robot_twice s0) as (A & B & C & D).
    destruct (place_robot_effect (final (place_robot s0)))
      as (_ & _ & _ & _ & _ & _ & _ & B2 & _).
    unfold twice in *. unfold loads in A, B, C, D, B2;
      cbn [fst snd] in A, B, C, D, B2 |- *.
    rewrite !count_app. splits; try assumption; try lia.
    intros Hnf. specialize (D Hnf). split; [lia|exact D]. }
  splits; try apply O; try apply P.
  - intros e. unfold twice. rewrite !handle_open_environment.
    assert (E : with_environment e (final (open_usd (with_environment e s)))
                = final (open_usd (with_environment e s))).
    { destruct (open_usd_effect (with_environment e s)) as (_ & E2 & _).
      apply (with_environment_again e s). exact E2. }
    rewrite E. apply (O (with_environment e s)).
  - intros rb ps. unfold twice. rewrite !handle_place_robot_at.
    destruct (parse_error ps) as [e|]; [cbn; split; [lia|intros _; lia]|].
    assert (E : with_robot rb ps (final (place_robot (with_robot rb ps s)))
                = final (place_robot (with_robot rb ps s))).
    { destruct (place_robot_effect (with_robot rb ps s))
        as (_ & _ & E3 & E4 & _).
      apply (with_robot_again rb ps s); assumption. }
    rewrite E. destruct (P (with_robot rb ps s)) as (A & _ & _ & _ & B).
    split; [exact A|]. intros Hnf. apply (B Hnf).
Qed.

Lemma loading_is_idempotent_witness :
  (count is_set_world_pose
     (fst (twice place_robot running_daemon)
      ++ snd (twice place_robot running_daemon)) <= 1)%nat.
Proof.
  destruct (loading_is_idempotent running_daemon) as (_ & (_ & _ & _ & _ & A) & _).
  apply A. exists DEFAULT_POSE. reflexivity.
Defined.

(** C3, counterexample.  A requested pose that holds a NaN differs from
    itself: on a daemon with an Instance and a map, [place_robot] called
    twice for the same robot and the pose [nan, 0, 0, 0, 0, 0, 0] calls
    [set_world_pose] twice, and so does the route [/place_robot] served
    twice with that robot and that pose text. *)
Lemma nan_pose_is_teleported_twice :
  count is_set_world_pose
        (fst (twice place_robot
                    (with_robot (given "robot.usd") (given (parsed nan_pose))
                                (snd (serve map_only [] init))))
         ++ snd (twice place_robot
                       (with_robot (given "robot.usd")
                                   (given (parsed nan_pose))
                                   (snd (serve map_only [] init)))))
  = 2%nat /\
  count is_set_world_pose
        (fst (twice (handle (place_robot_at (given "robot.usd")
                                             (given (parsed nan_pose))))
                    (snd (serve map_only [] init)))
         ++ snd (twice (handle (place_robot_at (given "robot.usd")
                                               (given (parsed nan_pose))))
                       (snd (serve map_only [] init))))
  = 2%nat /\
  reaches (fst (serve map_only [] init)) (snd (serve map_only [] init)) /\
  inst (snd (serve map_only [] init)) <> None.
Proof.
  split; [vm_compute; reflexivity|].
  split; [vm_compute; reflexivity|].
  split; [apply serve_reaches; apply reaches_init|vm_compute; discriminate].
Qed.

(** *** C7 and C5: opening a map *)

Lemma usd_differs_true (a b : option string) :
  a <> b -> usd_differs a b = true.
Proof.
  destruct a as [x|], b as [y|]; cbn; try congruence.
  destruct (String.eqb_spec x y); [congruence|reflexivity].
Qed.

(** C7.  On a daemon with a Session, [open_usd] for a requested map that is
    not the loaded one: first the Session is stopped ([sim.stop()], [sim]
    becomes [None]);  then the loaded robot, the loaded pose, the robot
    object and both pose-query handles are cleared, while [_map_usd] still
    holds the old map;  then the engine opens the new map and [_map_usd] is
    updated;  only then does [place_robot] run, on the daemon so obtained. *)
Theorem reload_invalidates (s : daemon) (usd : string) :
  inst s <> None -> sim s <> None ->
  map_usd s = Some usd -> map_usd s <> _map_usd s ->
  let stopped := set_sim None s in
  let cleared := invalidate_scene stopped in
  let opened := set__map_usd (Some usd) cleared in
  stop_simulation s = mkrun (Returned tt) stopped [sim_stop] /\
  (sim cleared = None /\ _robot_usd cleared = None /\
   _start_pose cleared = None /\ _dc cleared = None /\
   _robot_dc cleared = None /\ _robot cleared = None /\
   _map_usd cleared = _map_usd s) /\
  (_map_usd opened = Some usd /\ sim opened = None /\
   _robot_usd opened = None /\ _start_pose opened = None /\
   _dc opened = None /\ _robot_dc opened = None) /\
  outcome (open_usd s) = outcome (place_robot opened) /\
  final (open_usd s) = final (place_robot opened) /\
  emitted (open_usd s)
  = ([sim_stop; open_stage usd; update_stage] ++ emitted (place_robot opened))%list.
Proof.
  intros Hi Hs Hm Hd. cbv zeta.
  assert (E0 : stop_simulation s = mkrun (Returned tt) (set_sim None s) [sim_stop]).
  { rewrite stop_simulation_run. destruct (sim s), (inst s); congruence. }
  rewrite (open_usd_run s usd Hi Hm), (usd_differs_true _ _ Hd), E0, Hm.
  cbv beta iota zeta.
  change (final (mkrun (Returned tt) (set_sim None s) [sim_stop]))
    with (set_sim None s).
  generalize (place_robot
                (set__map_usd (Some usd) (invalidate_scene (set_sim None s)))).
  intros r. splits; reflexivity.
Qed.

Lemma reload_invalidates_witness :
  final (open_usd (set_map_usd (Some "other.usd") running_daemon))
  = final (place_robot
             (set__map_usd (Some "other.usd")
                (invalidate_scene
                   (set_sim None
                      (set_map_usd (Some "other.usd") running_daemon))))).
Proof.
  apply (reload_invalidates (set_map_usd (Some "other.usd") running_daemon)
                            "other.usd");
    cbn; congruence.
Defined.





(** *** C6: starting twice *)

Lemma start_instance_running (s : daemon) :
  inst s <> None ->
  start_instance s =
  mkrun (Returned tt) s [stdout "Instance already running. Please /stop first."].
Proof.
  intros Hi. unfold start_instance; unfold_monad; cbn.
  destruct (inst s); [reflexivity|congruence].
Qed.

(** C6, as the code has it.  [start_instance] on a daemon that has an
    Instance prints and changes nothing.  [start_simulation] on a daemon
    that has a Session is a restart: the Session is stopped, and if map and
    robot are requested a new Session is started with [sim_i = 0],
    [sim_collided = False], [sim_dirty = False] (what is requested and what
    is loaded stays as it was);  otherwise the daemon is left without a
    Session. *)
Theorem double_start (s : daemon) :
  inst s <> None ->
  start_instance s =
  mkrun (Returned tt) s [stdout "Instance already running. Please /stop first."] /\
  (sim s <> None ->
   scene (final (start_simulation s)) = scene s /\
   (missing_required_state s = false ->
    start_simulation s =
    mkrun (Returned tt) (fresh_session (set_sim None s))
          (sim_stop :: session_start_calls) /\
    sim (final (start_simulation s)) = Some the_SimulationContext /\
    sim_i (final (start_simulation s)) = 0%Z /\
    sim_collided (final (start_simulation s)) = false /\
    sim_dirty (final (start_simulation s)) = false) /\
   (missing_required_state s = true ->
    start_simulation s =
    mkrun (Returned tt) (set_sim None s) [sim_stop; cannot_start])).
Proof.
  intros Hi. split; [apply start_instance_running; assumption|].
  intros Hs. rewrite (start_simulation_running s Hs Hi).
  destruct (missing_required_state s); cbn [final];
    splits; try reflexivity; try discriminate; intros _; splits; reflexivity.
Qed.

Lemma double_start_witness :
  sim_i (final (start_simulation midway)) = 0%Z.
Proof.
  apply (double_start midway); try discriminate; reflexivity.
Defined.

(** *** C1: when a Session is started *)

Lemma missing_required_state_false (s : daemon) :
  missing_required_state s = false <->
  inst s <> None /\ map_usd s <> None /\ robot_usd s <> None.
Proof.
  unfold missing_required_state.
  destruct (inst s), (map_usd s), (robot_usd s); split;
    try discriminate; try (intros (A & B & C); congruence);
    intros _; splits; discriminate.
Qed.

Lemma usd_differs_false (a b : option string) :
  usd_differs a b = false -> a = b.
Proof.
  destruct a as [x|], b as [y|]; cbn; try discriminate; try reflexivity.
  destruct (String.eqb_spec x y); [congruence|discriminate].
Qed.

Lemma bind_final {A B} (m : M A) (f : A -> M B) (s : daemon) (a : A) :
  outcome (m s) = Returned a ->
  final (bind m f s) = final (f a (final (m s))) /\
  emitted (bind m f s) = (emitted (m s) ++ emitted (f a (final (m s))))%list /\
  outcome (bind m f s) = outcome (f a (final (m s))).
Proof.
  unfold bind. destruct (m s) as [[a'|e] s1 l1]; cbn; [|discriminate].
  intros [= ->]. destruct (f a s1); splits; reflexivity.
Qed.

Lemma start_simulation_no_instance (s : daemon) :
  inst s = None -> final (start_simulation s) = s.
Proof.
  intros Hi. unfold start_simulation, stop_simulation; unfold_monad.
  unfold missing_required_state.
  destruct s as [[a|] [c|] n col dty m r sp m' r' sp' dc rb rdc];
    cbn in *; congruence.
Qed.

Lemma stop_simulation_no_instance (s : daemon) :
  inst s = None -> final (stop_simulation s) = s.
Proof.
  intros Hi. rewrite stop_simulation_run, Hi. destruct (sim s); reflexivity.
Qed.

Lemma start_instance_run (s : daemon) :
  inst s = None ->
  final (start_instance s)
  = match map_usd s with
    | Some _ => final (place_robot (set_inst (Some the_SimulationApp) s))
    | None => set_inst (Some the_SimulationApp) s
    end.
Proof.
  intros Hi. unfold start_instance; unfold_monad. cbn [final]. rewrite Hi.
  destruct (map_usd s); [|reflexivity].
  generalize (place_robot (set_inst (Some the_SimulationApp) s)).
  intros [o s2 l2]. reflexivity.
Qed.

(** No route closes the Instance. *)
Lemma handle_keeps_instance (r : request) (s : daemon) :
  inst s <> None -> inst (final (handle r s)) = inst s.
Proof.
  intros Hi. destruct r as [e|rb ps| | | |].
  - rewrite handle_open_environment.
    destruct (open_usd_effect (with_environment e s)) as (E & _).
    rewrite E. apply with_environment_frame.
  - rewrite handle_place_robot_at.
    destruct (place_robot_effect (with_robot rb ps s)) as (E & _).
    destruct (parse_error ps); cbn [final]; [|rewrite E];
      apply with_robot_frame.
  - destruct (stop_simulation_scene s) as (O1 & [= S1 _] & _).
    destruct (bind_final stop_simulation (fun _ => start_simulation) s tt O1)
      as (E & _).
    cbn [handle]. rewrite E.
    destruct (start_simulation_scene (final (stop_simulation s)))
      as (_ & [= T1 _] & _).
    congruence.
  - cbn [handle]. rewrite start_instance_running by assumption. reflexivity.
  - cbn [handle]. destruct (start_simulation_scene s) as (_ & [= T1 _] & _).
    assumption.
  - cbn [handle]. destruct (stop_simulation_scene s) as (_ & [= T1 _] & _).
    assumption.
Qed.

(** Without an Instance no route but [/start] touches the Session. *)
Lemma handle_no_instance (r : request) (s : daemon) :
  inst s = None -> r <> start -> sim (final (handle r s)) = sim s.
Proof.
  intros Hi Hr. destruct r as [e|rb ps| | | |]; try congruence.
  - rewrite handle_open_environment, open_usd_no_instance;
      [apply with_environment_frame|].
    rewrite <- Hi. apply with_environment_frame.
  - rewrite handle_place_robot_at.
    assert (Hi' : inst (with_robot rb ps s) = None)
      by (rewrite <- Hi; apply with_robot_frame).
    destruct (parse_error ps); cbn [final];
      [|rewrite (place_robot_no_instance _ Hi'); cbn [final]];
      apply with_robot_frame.
  - destruct (stop_simulation_scene s) as (O1 & _).
    destruct (bind_final stop_simulation (fun _ => start_simulation) s tt O1)
      as (E & _).
    cbn [handle].
    rewrite E, (stop_simulation_no_instance s Hi),
      (start_simulation_no_instance s Hi). reflexivity.
  - cbn [handle]. rewrite (start_simulation_no_instance s Hi). reflexivity.
  - cbn [handle]. rewrite (stop_simulation_no_instance s Hi). reflexivity.
Qed.

Lemma well_formed_handle (r : request) (s : daemon) :
  well_formed s -> well_formed (final (handle r s)).
Proof.
  unfold well_formed. intros W Hs.
  destruct (inst s) as [a|] eqn:Ei.
  - rewrite handle_keeps_instance by congruence. congruence.
  - assert (Es : sim s = None).
    { destruct (sim s) eqn:Es; [|reflexivity].
      exfalso. apply W; [discriminate|reflexivity]. }
    destruct r as [e|rb ps| | | |];
      try (rewrite handle_no_instance in Hs by (congruence || discriminate);
           congruence).
    cbn [handle] in *. rewrite (start_instance_run s Ei).
    destruct (map_usd s).
    + destruct (place_robot_effect (set_inst (Some the_SimulationApp) s))
        as (E & _).
      rewrite E. discriminate.
    + discriminate.
Qed.

Lemma well_formed_tick (live : dc_transform) (s s' : daemon) l :
  well_formed s ->
  tick_simulator live s = mkrun (Returned tt) s' l ->
  well_formed s'.
Proof.
  intros W E. destruct (inst s) as [a|] eqn:Ei.
  - destruct (sim s) as [c|] eqn:Es.
    + destruct (tick_active_returned live s s' l) as (d & c' & -> & _);
        try congruence.
      exact W.
    + unfold tick_simulator in E; unfold_monad; cbn in E.
      rewrite Ei, Es in E. injection E as <- _. exact W.
  - unfold tick_simulator in E; unfold_monad; cbn in E.
    rewrite Ei in E. injection E as <- _. exact W.
Qed.

(** [start_simulation], whatever the daemon. *)
Lemma start_simulation_cases (s : daemon) :
  (missing_required_state s = false ->
   exists before stopped,
     start_simulation s
     = mkrun (Returned tt) (fresh_session stopped)
             (before ++ session_start_calls) /\
     count is_new_session before = 0%nat) /\
  (missing_required_state s = true ->
   (sim s = None -> start_simulation s = mkrun (Returned tt) s [cannot_start]) /\
   (sim s <> None -> inst s <> None ->
    start_simulation s =
    mkrun (Returned tt) (set_sim None s) [sim_stop; cannot_start]) /\
   (sim s <> None -> inst s = None ->
    start_simulation s =
    mkrun (Returned tt) s
          [stdout "Skipping. No running simulator found."; cannot_start])).
Proof.
  split; intros M.
  - destruct (sim s) as [c|] eqn:Es.
    + exists [sim_stop], (set_sim None s). split; [|reflexivity].
      pose proof (proj1 (missing_required_state_false s) M) as (Ei & _).
      rewrite (start_simulation_running s), M by congruence. reflexivity.
    + exists [], s. split; [|reflexivity].
      rewrite (start_simulation_idle s Es), M. reflexivity.
  - splits.
    + intros Es. rewrite (start_simulation_idle s Es), M. reflexivity.
    + intros Es Ei. rewrite (start_simulation_running s Es Ei), M. reflexivity.
    + intros Es Ei. unfold start_simulation, stop_simulation; unfold_monad.
      unfold missing_required_state.
      destruct s as [[a|] [c|] n col dty m r sp m' r' sp' dc rb rdc];
        cbn in *; try congruence; reflexivity.
Qed.

Lemma engine_after_app (g : engine) (l1 l2 : list event) :
  engine_after g (l1 ++ l2) = engine_after (engine_after g l1) l2.
Proof. apply fold_left_app. Qed.

Lemma engine_after_quiet (l : list event) :
  forall g : engine, forallb quiet l = true -> engine_after g l = g.
Proof.
  induction l as [|e l IH]; intros g H; [reflexivity|].
  cbn in H. apply andb_true_iff in H. destruct H as [He Hl].
  cbn. rewrite <- (IH g Hl) at 2. f_equal. destruct e; try discriminate;
    reflexivity.
Qed.

Lemma stop_simulation_quiet (s : daemon) :
  forallb quiet (emitted (stop_simulation s)) = true.
Proof.
  rewrite stop_simulation_run. destruct (sim s), (inst s); reflexivity.
Qed.

Lemma start_simulation_quiet (s : daemon) :
  forallb quiet (emitted (start_simulation s)) = true.
Proof.
  unfold start_simulation, stop_simulation; unfold_monad.
  destruct s as [[a|] [c|] n col dty [m|] [r|] sp m' r' sp' dc rb rdc];
    reflexivity.
Qed.

Lemma missing_required_state_scene (s s' : daemon) :
  scene s' = scene s -> missing_required_state s' = missing_required_state s.
Proof.
  intros [= S1 S2 S3 S4 S5 S6 S7 S8]. unfold missing_required_state.
  rewrite S1, S2, S3. reflexivity.
Qed.

Lemma start_simulation_session_backed (s : daemon) :
  (sim s <> None -> inst s <> None) ->
  session_backed (final (start_simulation s)).
Proof.
  intros W. destruct (start_simulation_scene s) as (_ & Sc & _).
  unfold session_backed. rewrite (missing_required_state_scene _ _ Sc).
  destruct (start_simulation_cases s) as [Hok Hmiss].
  destruct (missing_required_state s) eqn:M; [|reflexivity].
  destruct (Hmiss eq_refl) as (A & B & C).
  destruct (sim s) as [c|] eqn:Es.
  - rewrite B; [|congruence|apply W; congruence]. cbn. congruence.
  - rewrite A by reflexivity. cbn. congruence.
Qed.

Lemma engine_after_load_robot_calls (g : engine) (usd : string) (s : daemon) :
  engine_after g (load_robot_calls usd s)
  = if usd_differs (robot_usd s) (_robot_usd s)
    then mkengine (app_running g) (stage_map g) (Some usd)
    else g.
Proof.
  unfold load_robot_calls.
  destruct (usd_differs (robot_usd s) (_robot_usd s)); reflexivity.
Qed.

(** [place_robot] past its guards: the requested robot is the loaded one
    afterwards, the only thing the engine may have been asked to load is
    that robot, and a Session is there only if [start_simulation] started
    it. *)
Lemma place_robot_places (s : daemon) (usd : string) :
  inst s <> None -> robot_usd s = Some usd ->
  _robot_usd (final (place_robot s)) = Some usd /\
  session_backed (final (place_robot s)) /\
  forall g : engine,
    engine_after g (emitted (place_robot s))
    = if usd_differs (Some usd) (_robot_usd s)
      then mkengine (app_running g) (stage_map g) (Some usd)
      else g.
Proof.
  intros Hi Hr. rewrite (place_robot_run s usd Hi Hr). cbv zeta.
  pose proof (stop_simulation_scene s)
    as (_ & [= S1 S2 S3 S4 S5 S6 S7 S8] & _ & Hs0).
  specialize (Hs0 Hi).
  pose proof (stop_simulation_quiet s) as Q0.
  assert (Eng : forall (g : engine) (l : list event),
             forallb quiet l = true ->
             engine_after g
               ((emitted (stop_simulation s) ++ load_robot_calls usd s) ++ l)
             = if usd_differs (Some usd) (_robot_usd s)
               then mkengine (app_running g) (stage_map g) (Some usd)
               else g).
  { intros g l Hl. rewrite !engine_after_app.
    rewrite (engine_after_quiet _ g Q0), engine_after_load_robot_calls, Hr.
    apply engine_after_quiet. assumption. }
  generalize dependent (stop_simulation s). intros r0 S1 S2 S3 S4 S5 S6 S7 S8 Hs0 Q0 Eng.
  pose proof (load_robot_scene (final r0))
    as (I1 & Is & I2 & I3 & I4 & I5 & I6 & I7 & I8).
  assert (Hu : _robot_usd (load_robot (final r0)) = Some usd).
  { apply usd_differs_false in I7. congruence. }
  assert (Hsim : sim (load_robot (final r0)) = None) by congruence.
  destruct (differs_from (requested_pose s) (_start_pose (load_robot (final r0)))).
  - destruct (_robot (load_robot (final r0))) as [rb|].
    + pose proof (start_simulation_scene
                    (set__start_pose (Some (requested_pose s))
                       (load_robot (final r0))))
        as (_ & [= T1 T2 T3 T4 T5 T6 T7 T8] & _).
      pose proof (start_simulation_quiet
                    (set__start_pose (Some (requested_pose s))
                       (load_robot (final r0)))) as Q3.
      pose proof (start_simulation_session_backed
                    (set__start_pose (Some (requested_pose s))
                       (load_robot (final r0)))) as B3.
      generalize dependent (start_simulation
                              (set__start_pose (Some (requested_pose s))
                                 (load_robot (final r0)))).
      intros r3 T1 T2 T3 T4 T5 T6 T7 T8 Q3 B3. cbn [final emitted].
      splits.
      * rewrite T6. exact Hu.
      * apply B3. cbn. congruence.
      * intros g. apply Eng.
        rewrite !forallb_app, Q3. reflexivity.
    + cbn [final emitted]. splits.
      * exact Hu.
      * intros H. congruence.
      * intros g. rewrite <- (app_nil_r (_ ++ _)). apply Eng. reflexivity.
  - pose proof (start_simulation_scene (load_robot (final r0)))
      as (_ & [= T1 T2 T3 T4 T5 T6 T7 T8] & _).
    pose proof (start_simulation_quiet (load_robot (final r0))) as Q3.
    pose proof (start_simulation_session_backed (load_robot (final r0))) as B3.
    generalize dependent (start_simulation (load_robot (final r0))).
    intros r3 T1 T2 T3 T4 T5 T6 T7 T8 Q3 B3. cbn [final emitted].
    splits.
    + rewrite T6. exact Hu.
    + apply B3. congruence.
    + intros g. apply Eng. rewrite !forallb_app, Q3. reflexivity.
Qed.

(** [place_robot] keeps the trackers right and does not touch the map on the
    stage;  the daemon it leaves has a Session only with Instance, map and
    robot requested, unless it returned at its guard with a Session
    running. *)
Lemma place_robot_tracked (g : engine) (s : daemon) :
  inst s <> None -> tracked g s ->
  (sim s = None \/ robot_usd s <> None ->
   session_backed (final (place_robot s))) /\
  tracked (engine_after g (emitted (place_robot s))) (final (place_robot s)) /\
  stage_map (engine_after g (emitted (place_robot s))) = stage_map g /\
  (robot_usd s = None ->
   final (place_robot s) = s /\
   engine_after g (emitted (place_robot s)) = g).
Proof.
  intros Hi (T1 & T2 & T3).
  destruct (robot_usd s) as [usd|] eqn:Er.
  - destruct (place_robot_places s usd Hi Er) as (Hu & Hb' & He).
    destruct (place_robot_effect s) as (_ & _ & _ & _ & Hm & _).
    rewrite (He g). unfold tracked. rewrite Hu, Hm.
    destruct (usd_differs (Some usd) (_robot_usd s)) eqn:Ed; cbn;
      splits; auto; try discriminate.
    intros _. apply usd_differs_false in Ed. rewrite <- Ed in *.
    apply T3. discriminate.
  - rewrite (place_robot_no_robot s Hi Er). cbn. unfold tracked.
    splits; auto.
    intros [H|H]; [|congruence]. intros F. congruence.
Qed.

Lemma open_usd_tracked (g : engine) (s : daemon) (usd : string) :
  inst s <> None -> map_usd s = Some usd -> tracked g s ->
  session_backed (final (open_usd s)) /\
  tracked (engine_after g (emitted (open_usd s))) (final (open_usd s)) /\
  stage_map (engine_after g (emitted (open_usd s))) = Some usd.
Proof.
  intros Hi Hm (T1 & T2 & T3).
  rewrite (open_usd_run s usd Hi Hm). cbv zeta. rewrite Hm.
  pose proof (stop_simulation_scene s)
    as (_ & [= S1 S2 S3 S4 S5 S6 S7 S8] & _ & Hs0).
  specialize (Hs0 Hi).
  pose proof (stop_simulation_quiet s) as Q0.
  generalize dependent (stop_simulation s).
  intros r0 S1 S2 S3 S4 S5 S6 S7 S8 Hs0 Q0.
  destruct (usd_differs (Some usd) (_map_usd s)) eqn:Ed.
  - pose proof (place_robot_tracked
                  (mkengine (app_running g) (Some usd) None)
                  (set__map_usd (Some usd) (invalidate_scene (final r0))))
      as P.
    generalize dependent (place_robot
                            (set__map_usd (Some usd)
                               (invalidate_scene (final r0)))).
    intros r P. cbn [final emitted].
    rewrite !engine_after_app, (engine_after_quiet _ g Q0).
    cbn [engine_after fold_left engine_step app] in *.
    destruct P as (P1 & P2 & P3 & _).
    + cbn. congruence.
    + unfold tracked. cbn. splits; auto; congruence.
    + splits; try assumption. apply P1. left. cbn. exact Hs0.
  - pose proof (place_robot_tracked g (final r0)) as P.
    generalize dependent (place_robot (final r0)).
    intros r P. cbn [final emitted].
    rewrite !engine_after_app, (engine_after_quiet _ g Q0).
    cbn [engine_after fold_left engine_step app] in *.
    apply usd_differs_false in Ed.
    destruct P as (P1 & P2 & P3 & _).
    + congruence.
    + unfold tracked. rewrite S5, S6. auto.
    + splits; try assumption.
      * apply P1. left. exact Hs0.
      * rewrite P3, Ed. apply T2. congruence.
Qed.

Lemma start_instance_fresh (s : daemon) :
  inst s = None ->
  final (start_instance s)
  = match map_usd s with
    | Some _ => final (place_robot (set_inst (Some the_SimulationApp) s))
    | None => set_inst (Some the_SimulationApp) s
    end /\
  emitted (start_instance s)
  = ([new_SimulationApp (map_usd s); enable_extension "omni.isaac.ros_bridge"]
     ++ match map_usd s with
        | Some _ => emitted (place_robot (set_inst (Some the_SimulationApp) s))
        | None => []
        end)%list.
Proof.
  intros Hi. unfold start_instance; unfold_monad. cbn [final emitted]. rewrite Hi.
  destruct (map_usd s); [|split; reflexivity].
  generalize (place_robot (set_inst (Some the_SimulationApp) s)).
  intros [o s2 l2]. split; reflexivity.
Qed.

Lemma tick_quiet (live : dc_transform) (s : daemon) :
  forallb quiet (emitted (tick_simulator live s)) = true.
Proof.
  destruct (inst s) as [a|] eqn:Ei.
  - destruct (sim s) as [c|] eqn:Es.
    + rewrite tick_active_run by congruence.
      destruct (check_dirty_cases s live) as (o & lc & E & Hl).
      rewrite E; cbn [outcome emitted].
      assert (Hc : forallb quiet lc = true)
        by (destruct Hl as [[-> _]| ->]; reflexivity).
      assert (Ht : forallb quiet (tick_calls (sim_i s)) = true)
        by (unfold tick_calls;
            destruct (sim_i s mod 2 =? 0)%Z, (sim_i s mod 6 =? 0)%Z; reflexivity).
      assert (Hk : forallb quiet (collision_calls (sim_i s)) = true)
        by (unfold collision_calls; destruct (sim_i s mod 60 =? 0)%Z;
            reflexivity).
      destruct ((sim_i s mod 6 =? 0)%Z && negb (sim_dirty s))%bool.
      * destruct o as [[|]|e]; cbn [emitted]; rewrite !forallb_app, Ht, Hc;
          try rewrite Hk; reflexivity.
      * cbn [emitted]. rewrite forallb_app, Ht, Hk. reflexivity.
    + unfold tick_simulator; unfold_monad; cbn. rewrite Ei, Es. reflexivity.
  - unfold tick_simulator; unfold_monad; cbn. rewrite Ei. reflexivity.
Qed.

(** A Session that [start_simulation] has left has a map on the stage. *)
Lemma session_backed_staged (g : engine) (s s' : daemon) :
  (inst s <> None -> map_usd s <> None -> stage_map g = map_usd s) ->
  inst s' = inst s -> map_usd s' = map_usd s ->
  session_backed s' -> sim s' <> None -> stage_map g <> None.
Proof.
  intros Hsync E1 E2 Hb Hs. specialize (Hb Hs).
  apply missing_required_state_false in Hb. destruct Hb as (A & B & _).
  rewrite Hsync; congruence.
Qed.

Lemma consistent_same_scene (g : engine) (s s' : daemon) (l : list event) :
  consistent g s -> scene s' = scene s -> forallb quiet l = true ->
  (sim s' <> None -> stage_map g <> None) ->
  consistent (engine_after g l) s'.
Proof.
  intros (_ & C2 & C3) [= S1 S2 S3 S4 S5 S6 S7 S8] Hq Hb.
  rewrite (engine_after_quiet l g Hq). unfold consistent, tracked.
  rewrite S1, S2, S5, S6. splits; assumption.
Qed.

(** [place_robot] on a daemon that agrees with the engine. *)
Lemma place_robot_consistent (g : engine) (s : daemon) :
  inst s <> None -> consistent g s ->
  consistent (engine_after g (emitted (place_robot s))) (final (place_robot s)).
Proof.
  intros Hi (C1 & C2 & C3). destruct (C3 Hi) as [Ht Hsync].
  destruct (place_robot_tracked g s Hi Ht) as (B & T & M & N).
  destruct (place_robot_effect s) as (E1 & E2 & _).
  unfold consistent. rewrite E1, E2, M. splits.
  - intros Hs. destruct (robot_usd s) as [usd|] eqn:Er.
    + apply (session_backed_staged g s (final (place_robot s)));
        auto; try congruence.
      apply B. right. discriminate.
    + destruct (N eq_refl) as [F _]. rewrite F in Hs. auto.
  - congruence.
  - intros _. split; assumption.
Qed.

(** [open_usd] on a daemon whose trackers agree with the engine, whatever
    map is requested. *)
Lemma open_usd_consistent (g : engine) (s : daemon) :
  inst s <> None -> (sim s <> None -> stage_map g <> None) -> tracked g s ->
  consistent (engine_after g (emitted (open_usd s))) (final (open_usd s)).
Proof.
  intros Hi C1 Ht.
  destruct (map_usd s) as [usd|] eqn:Em.
  - destruct (open_usd_tracked g s usd Hi Em Ht) as (B & T & M).
    destruct (open_usd_effect s) as (E1 & E2 & _).
    unfold consistent. rewrite E1, E2, Em, M. splits.
    + discriminate.
    + congruence.
    + intros _. split; [exact T|reflexivity].
  - rewrite (open_usd_no_map s Hi Em). cbn [final emitted engine_after fold_left
                                               engine_step].
    unfold consistent. rewrite Em. split; [exact C1|]. split.
    + intros F. contradiction.
    + intros _. split; [exact Ht|]. intros F. congruence.
Qed.

Lemma consistent_handle (g : engine) (r : request) (s : daemon) :
  well_formed s -> consistent g s ->
  consistent (engine_after g (emitted (handle r s))) (final (handle r s)).
Proof.
  intros W C. pose proof C as (C1 & Hfresh & Htr).
  unfold well_formed in W.
  assert (Still : forall s0 : daemon,
             inst s0 = inst s -> sim s0 = sim s ->
             _map_usd s0 = _map_usd s -> _robot_usd s0 = _robot_usd s ->
             (inst s <> None -> map_usd s0 <> None ->
              stage_map g = map_usd s0) ->
             consistent g s0).
  { intros s0 F1 F2 F3 F4 F5. unfold consistent, tracked.
    rewrite F1, F2, F3, F4. splits; auto.
    intros Hi. destruct (Htr Hi) as [Ht _]. split; auto. }
  destruct r as [e|rb ps| | | |].
  - (* /open_environment *)
    rewrite handle_open_environment.
    destruct (with_environment_frame e s) as (F1 & F2 & _).
    assert (Ft : _map_usd (with_environment e s) = _map_usd s /\
                 _robot_usd (with_environment e s) = _robot_usd s)
      by (destruct e; split; reflexivity).
    destruct Ft as [F3 F4].
    destruct (inst s) as [a|] eqn:Ei.
    + destruct (Htr ltac:(discriminate)) as [Ht Hsync].
      apply open_usd_consistent.
      * congruence.
      * rewrite F2. exact C1.
      * unfold tracked. rewrite F3, F4. exact Ht.
    + rewrite open_usd_no_instance by congruence.
      cbn [final emitted engine_after fold_left engine_step].
      apply Still; auto. congruence.
  - (* /place_robot *)
    rewrite handle_place_robot_at.
    destruct (with_robot_frame rb ps s)
      as (F1 & F2 & F3 & _ & F5 & F6 & _).
    assert (Cs : consistent g (with_robot rb ps s)).
    { apply Still; auto. intros Hi. rewrite F3. apply Htr. exact Hi. }
    destruct (parse_error ps) as [e|].
    + cbn [final emitted engine_after fold_left engine_step]. exact Cs.
    + destruct (inst s) as [a|] eqn:Ei.
      * apply place_robot_consistent; [congruence|exact Cs].
      * rewrite place_robot_no_instance by congruence.
        cbn [final emitted engine_after fold_left engine_step]. exact Cs.
  - (* /restart_sim *)
    destruct (stop_simulation_scene s) as (O1 & S1 & _ & Hs0).
    destruct (bind_final stop_simulation (fun _ => start_simulation) s tt O1)
      as (E & El & _).
    cbn [handle]. rewrite E, El.
    destruct (start_simulation_scene (final (stop_simulation s)))
      as (_ & S2 & _).
    apply (consistent_same_scene g s); [assumption|congruence| |].
    + rewrite forallb_app, stop_simulation_quiet, start_simulation_quiet.
      reflexivity.
    + pose proof S1 as [= A1 A2 _]. pose proof S2 as [= B1 B2 _].
      apply (session_backed_staged g s); try congruence.
      * intros Hi. apply Htr. exact Hi.
      * apply start_simulation_session_backed.
        intros H. destruct (inst s) eqn:Ei; [|exfalso].
        -- congruence.
        -- rewrite (stop_simulation_no_instance s Ei) in H. apply W in H.
           congruence.
  - (* /start *)
    cbn [handle]. destruct (inst s) as [a|] eqn:Ei.
    + rewrite start_instance_running by congruence. exact C.
    + destruct (start_instance_fresh s Ei) as (E & El). rewrite E, El.
      destruct (Hfresh eq_refl) as (F1 & F2).
      assert (Hsim : sim s = None).
      { destruct (sim s) eqn:Es; [|reflexivity].
        exfalso. apply W; [discriminate|reflexivity]. }
      rewrite engine_after_app.
      cbn [engine_after fold_left engine_step].
      change (fold_left engine_step ?l ?g0) with (engine_after g0 l).
      destruct (map_usd s) as [usd|] eqn:Em.
      * apply place_robot_consistent; [discriminate|].
        unfold consistent, tracked. cbn. rewrite F1, F2, Em.
        splits; auto; try congruence.
        intros _. splits; auto; congruence.
      * cbn. unfold consistent, tracked. cbn.
        rewrite F1, F2, Em, Hsim. splits; try congruence.
        intros _. splits; congruence.
  - (* /start_sim *)
    cbn [handle]. destruct (start_simulation_scene s) as (_ & S2 & _).
    apply (consistent_same_scene g s); [assumption..| |].
    + apply start_simulation_quiet.
    + pose proof S2 as [= B1 B2 _].
      apply (session_backed_staged g s); try congruence.
      * intros Hi. apply Htr. exact Hi.
      * apply start_simulation_session_backed. exact W.
  - (* /stop_sim *)
    cbn [handle]. destruct (stop_simulation_scene s) as (_ & S2 & _ & Hs0).
    apply (consistent_same_scene g s); [assumption..| |].
    + apply stop_simulation_quiet.
    + intros H. destruct (inst s) eqn:Ei.
      * rewrite Hs0 in H; congruence.
      * rewrite (stop_simulation_no_instance s Ei) in H. auto.
Qed.

Lemma consistent_tick (g : engine) (live : dc_transform) (s s' : daemon) l :
  consistent g s ->
  tick_simulator live s = mkrun (Returned tt) s' l ->
  consistent (engine_after g l) s'.
Proof.
  intros C E. pose proof (tick_quiet live s) as Q. rewrite E in Q. cbn in Q.
  assert (Hs : scene s' = scene s /\ sim s' = sim s).
  { destruct (inst s) as [a|] eqn:Ei.
    - destruct (sim s) as [c|] eqn:Es.
      + destruct (tick_active_returned live s s' l) as (d & c' & -> & _);
          try congruence.
        split; [reflexivity|]. cbn. congruence.
      + unfold tick_simulator in E; unfold_monad; cbn in E.
        rewrite Ei, Es in E. injection E as <- _. split; congruence.
    - unfold tick_simulator in E; unfold_monad; cbn in E.
      rewrite Ei in E. injection E as <- _. split; reflexivity. }
  destruct Hs as [Hsc Hsim].
  apply (consistent_same_scene g s); try assumption.
  rewrite Hsim. apply C.
Qed.

(** Every daemon the loop of [run] can reach is well formed and agrees with
    the engine its calls have produced. *)
Lemma reaches_consistent (h : list event) (s : daemon) :
  reaches h s -> well_formed s /\ consistent (engine_after no_engine h) s.
Proof.
  induction 1 as [|h s r _ [W C]|h s live s' l _ [W C] E].
  - split; [unfold well_formed; cbn; congruence|].
    unfold consistent, tracked. cbn.
    splits; try reflexivity; intros; splits; congruence.
  - rewrite engine_after_app. split.
    + apply well_formed_handle; assumption.
    + apply consistent_handle; assumption.
  - rewrite engine_after_app. split.
    + apply (well_formed_tick live s s' l); assumption.
    + apply (consistent_tick _ live s s' l); assumption.
Qed.




(** *** C9: the drift check *)

Lemma _to_SE3_origin : _to_SE3 (scale_translation DEFAULT_POSE) = Some SE3_identity.
Proof.
  unfold _to_SE3, scale_translation, DEFAULT_POSE. cbn [q_s q_x q_y q_z t_x t_y t_z].
  rewrite UnitQuaternion_of_unit_norm by lra.
  unfold SE3_identity, SE3_mul, SE3_translation, quat_SE3, quat_R, mat3_mul,
    mat3_apply, vec3_add, mat3_id.
  cbn. f_equal. f_equal; f_equal; field.
Qed.

Lemma _dc_tf_to_SE3_unit (live : dc_transform) :
  unit_rotation live ->
  _dc_tf_to_SE3 live
  = Some (mkSE3 (quat_R (mkquat (r_w live) (r_x live) (r_y live) (r_z live)))
                (mkvec3 (p_x live) (p_y live) (p_z live))).
Proof.
  intros H. unfold _dc_tf_to_SE3.
  rewrite (UnitQuaternion_of_unit_norm _ _ _ _ H).
  unfold SE3_mul, SE3_translation, quat_SE3, quat_R, mat3_mul, mat3_apply,
    vec3_add, mat3_id.
  cbn. f_equal. f_equal; f_equal; field.
Qed.

(** Relative to the identity, the relative transform is the live pose. *)
Lemma delta_from_identity (now : SE3) :
  SE3_mul (SE3_inv SE3_identity) now = now.
Proof.
  destruct now as [[a b c d e f g h i] [x y z]].
  unfold SE3_mul, SE3_inv, SE3_identity, mat3_mul, mat3_apply, mat3_transpose,
    vec3_add, vec3_opp, mat3_id.
  cbn. f_equal; f_equal; ring.
Qed.

Lemma Rgtb_true (x y : R) : Rgtb x y = true <-> (x > y)%R.
Proof. unfold Rgtb. destruct (Rgt_dec x y); split; auto; discriminate. Qed.

Lemma Rgtb_false (x y : R) : Rgtb x y = false <-> (x <= y)%R.
Proof.
  unfold Rgtb. destruct (Rgt_dec x y); split; auto; try discriminate; lra.
Qed.

Lemma drifted_true (delta : SE3) :
  drifted delta = true <->
  (planar_norm delta > 5)%R \/ (Rabs (yaw_deg delta) > 5)%R.
Proof.
  unfold drifted, DIRTY_EPSILON_DIST, DIRTY_EPSILON_YAW.
  rewrite orb_true_iff, !Rgtb_true. reflexivity.
Qed.

Lemma planar_norm_on_x_axis (m : mat3) (x z : R) :
  (0 <= x)%R -> planar_norm (mkSE3 m (mkvec3 x 0 z)) = x.
Proof.
  intros H. unfold planar_norm. cbn.
  replace (x * x + 0 * 0)%R with (x * x)%R by ring.
  apply sqrt_square. assumption.
Qed.

Lemma atan2_0_pos (x : R) : (0 < x)%R -> atan2 0 x = 0%R.
Proof.
  intros H. unfold atan2. destruct (Rlt_dec 0 x); [|contradiction].
  replace (0 / x)%R with 0%R by (field; lra). apply atan_0.
Qed.





(** [check_dirty] when the requested pose is the origin with the identity
    orientation: the relative transform is the live pose itself. *)
Lemma check_dirty_from_origin (s : daemon) (live : dc_transform) :
  start_pose s = Some (of_pose DEFAULT_POSE) -> _dc s <> None -> unit_rotation live ->
  check_dirty live s =
  mkrun (Returned
           (drifted
              (mkSE3 (quat_R (mkquat (r_w live) (r_x live) (r_y live) (r_z live)))
                     (mkvec3 (p_x live) (p_y live) (p_z live)))))
        s [evaluated "check_dirty"; get_rigid_body_pose].
Proof.
  intros Hp Hd Hl.
  rewrite (check_dirty_returns s live DEFAULT_POSE SE3_identity _ Hp
             _to_SE3_origin Hd (_dc_tf_to_SE3_unit live Hl)).
  rewrite delta_from_identity. reflexivity.
Qed.

(** The robot found 10 away along the x axis: the check says dirty. *)
Lemma check_dirty_far (s : daemon) (live : dc_transform) :
  start_pose s = Some (of_pose DEFAULT_POSE) -> _dc s <> None -> unit_rotation live ->
  p_x live = 10%R -> p_y live = 0%R ->
  check_dirty live s =
  mkrun (Returned true) s [evaluated "check_dirty"; get_rigid_body_pose].
Proof.
  intros Hp Hd Hl Hx Hy.
  rewrite (check_dirty_from_origin s live Hp Hd Hl).
  f_equal. f_equal. apply drifted_true. left. rewrite Hx, Hy.
  rewrite planar_norm_on_x_axis; lra.
Qed.

(** Without a requested pose [check_dirty] cannot multiply: it raises, and
    so does the tick that needs it. *)
Lemma check_dirty_without_requested_pose (s : daemon) (live : dc_transform) :
  start_pose s = None ->
  check_dirty live s = mkrun (Raised TypeError) s [evaluated "check_dirty"].
Proof.
  intros E. unfold check_dirty; unfold_monad; cbn. rewrite E. reflexivity.
Qed.



(** *** The counterexamples to C5 and C6 *)

Lemma running_daemon_served : snd (serve usual_start [] init) = running_daemon.
Proof. vm_compute. reflexivity. Qed.

Lemma tick_far_from_placement :
  exists l : list event,
    tick_simulator (mkdc 10 0 0 0 0 0 1) running_daemon
    = mkrun (Returned tt) midway l.
Proof.
  rewrite tick_active_run by discriminate.
  rewrite (check_dirty_far running_daemon (mkdc 10 0 0 0 0 0 1));
    try reflexivity; try discriminate;
    [|unfold unit_rotation; cbn; lra].
  eexists. reflexivity.
Qed.

Lemma midway_reachable : exists h : list event, reaches h midway.
Proof.
  destruct tick_far_from_placement as [l E].
  eexists. eapply reaches_tick; [|exact E].
  rewrite <- running_daemon_served. apply serve_reaches. apply reaches_init.
Qed.


(** C6, counterexample.  The daemon [midway] can be reached and has a
    Session;  [start_simulation] does not leave it unchanged: the counter goes from 1 back to 0, the dirty
    flag from true back to false, and the engine is told to stop and to play
    again. *)
Lemma start_simulation_twice_is_not_a_noop :
  (exists h, reaches h midway) /\
  inst midway <> None /\ sim midway <> None /\
  final (start_simulation midway) <> midway /\
  sim_i midway = 1%Z /\ sim_i (final (start_simulation midway)) = 0%Z /\
  sim_dirty midway = true /\ sim_dirty (final (start_simulation midway)) = false /\
  emitted (start_simulation midway) = (sim_stop :: session_start_calls)%list.
Proof.
  assert (E : start_simulation midway
              = mkrun (Returned tt) (fresh_session (set_sim None midway))
                      (sim_stop :: session_start_calls)).
  { rewrite start_simulation_running by discriminate. reflexivity. }
  rewrite E. cbn [final emitted].
  split; [exact midway_reachable|].
  splits; try discriminate; reflexivity.
Qed.

(** *** A Session for which no pose was requested *)

(** After [start_without_pose] the daemon has a Session, the robot stands
    at [DEFAULT_POSE], and the first tick raises [TypeError] out of
    [check_dirty]: the counter is not advanced and the loop of [run] ends. *)
Lemma first_tick_without_requested_pose (live : dc_transform) :
  reaches (fst (serve start_without_pose [] init))
          (snd (serve start_without_pose [] init)) /\
  sim (snd (serve start_without_pose [] init)) <> None /\
  start_pose (snd (serve start_without_pose [] init)) = None /\
  _start_pose (snd (serve start_without_pose [] init)) = Some (of_pose DEFAULT_POSE) /\
  outcome (tick_simulator live (snd (serve start_without_pose [] init)))
  = Raised TypeError /\
  final (tick_simulator live (snd (serve start_without_pose [] init)))
  = snd (serve start_without_pose [] init).
Proof.
  split; [apply serve_reaches; apply reaches_init|].
  set (s := snd (serve start_without_pose [] init)).
  assert (Ei : inst s <> None) by (vm_compute; discriminate).
  assert (Es : sim s <> None) by (vm_compute; discriminate).
  assert (Ep : start_pose s = None) by (vm_compute; reflexivity).
  assert (Ec : ((sim_i s mod 6 =? 0)%Z && negb (sim_dirty s))%bool = true)
    by (vm_compute; reflexivity).
  splits; try assumption; try (vm_compute; reflexivity);
    rewrite (tick_active_run live s Ei Es), Ec,
      (check_dirty_without_requested_pose s live Ep); reflexivity.
Qed.

(** ** Further properties of the code *)

(** *** Restarting, starting, and the Instance *)

(** X1.  On a daemon whose Session, if any, lives in an Instance, the routes
    [/restart_sim] and [/start_sim] leave the same daemon: [start_simulation]
    stops a running Session itself.  Both return, and when Instance, map and
    robot are there the daemon they leave has a new Session with the counter
    at 0 and both flags cleared. *)
Theorem restart_sim_is_start_sim (s : daemon) :
  (sim s <> None -> inst s <> None) ->
  final (handle restart_sim s) = final (handle start_sim s) /\
  outcome (handle restart_sim s) = Returned tt /\
  outcome (handle start_sim s) = Returned tt /\
  (missing_required_state s = false ->
   final (handle restart_sim s) = fresh_session (set_sim None s)) /\
  (missing_required_state s = true ->
   sim (final (handle restart_sim s)) = None).
Proof.
  intros W.
  destruct (stop_simulation_scene s) as (O1 & _).
  destruct (bind_final stop_simulation (fun _ => start_simulation) s tt O1)
    as (E & _ & Eo).
  cbn [handle]. rewrite E, Eo. clear E Eo.
  destruct (start_simulation_scene (final (stop_simulation s))) as (O2 & _).
  destruct (start_simulation_scene s) as (O3 & _).
  rewrite O2, O3.
  assert (F : final (start_simulation (final (stop_simulation s)))
              = final (start_simulation s) /\
              (missing_required_state s = false ->
               final (start_simulation s) = fresh_session (set_sim None s)) /\
              (missing_required_state s = true ->
               sim (final (start_simulation s)) = None)).
  { rewrite stop_simulation_run.
    destruct (sim s) as [c|] eqn:Es.
    - destruct (inst s) as [a|] eqn:Ei; [|exfalso; apply W; congruence].
      cbn [final].
      rewrite (start_simulation_idle (set_sim None s)) by reflexivity.
      rewrite (start_simulation_running s) by congruence.
      change (missing_required_state (set_sim None s))
        with (missing_required_state s).
      destruct (missing_required_state s); cbn [final];
        splits; try reflexivity; discriminate.
    - cbn [final]. rewrite (start_simulation_idle s Es).
      destruct (missing_required_state s); cbn [final]; splits;
        try reflexivity; try discriminate; try assumption.
      intros _. destruct s; cbn in *. subst. reflexivity. }
  destruct F as (F1 & F2 & F3). rewrite F1. splits; auto.
Qed.

Lemma restart_sim_is_start_sim_witness :
  final (handle restart_sim midway) = final (handle start_sim midway).
Proof.
  destruct (restart_sim_is_start_sim midway) as (A & _);
    [intros _; discriminate|exact A].
Defined.

(** Once there is an Instance, no request takes it away. *)
Lemma tick_keeps_instance (live : dc_transform) (s : daemon) :
  inst (final (tick_simulator live s)) = inst s /\
  sim (final (tick_simulator live s)) = sim s.
Proof.
  destruct (inst s) as [a|] eqn:Ei.
  - destruct (sim s) as [c|] eqn:Es.
    + destruct (tick_dirty_step live s) as (A & B & _); try congruence.
      split; congruence.
    + unfold tick_simulator; unfold_monad; cbn. rewrite Ei, Es. cbn. auto.
  - unfold tick_simulator; unfold_monad; cbn. rewrite Ei. cbn. auto.
Qed.

(** X2.  The routes and the tick never close the Instance: once [/started]
    answers true it answers true after every further request and every
    further tick, whether they return or raise.  (The diagnostic of
    [start_instance] asks for a route [/stop], but [run] registers none.) *)
Theorem started_stays_true (s : daemon) :
  started s = true ->
  (forall r : request, started (final (handle r s)) = true) /\
  (forall live : dc_transform, started (final (tick_simulator live s)) = true) /\
  (forall rs : list request, started (snd (serve rs [] s)) = true).
Proof.
  assert (H1 : forall (s0 : daemon) (r : request),
             started s0 = true -> started (final (handle r s0)) = true).
  { intros s0 r H. unfold started in *.
    rewrite handle_keeps_instance; [assumption|].
    destruct (inst s0); [discriminate|discriminate]. }
  intros H. splits.
  - intros r. apply H1. assumption.
  - intros live. unfold started in *.
    destruct (tick_keeps_instance live s) as [E _]. rewrite E. assumption.
  - intros rs. generalize (@nil event). revert s H.
    induction rs as [|r rs IH]; intros s H h; [exact H|].
    cbn [serve]. apply IH. apply H1. assumption.
Qed.

Lemma started_stays_true_witness :
  started (final (handle stop_sim running_daemon)) = true.
Proof.
  destruct (started_stays_true running_daemon) as (A & _);
    [reflexivity|exact (A stop_sim)].
Defined.

(** *** What reachable daemons keep, and when a tick raises *)

Lemma Rneqb_false (x y : R) : Rneqb x y = false -> x = y.
Proof. unfold Rneqb. destruct (Req_dec_T x y); [auto|discriminate]. Qed.

Lemma fneqb_false (a b : float) : fneqb a b = false -> a = b.
Proof.
  destruct a as [|x], b as [|y]; cbn; try discriminate.
  intros H. f_equal. apply Rneqb_false. assumption.
Qed.

Lemma array_differs_false (p q : ndarray) : array_differs p q = false -> p = q.
Proof.
  unfold array_differs. intros H.
  repeat (apply orb_false_iff in H; destruct H as [H ?]).
  destruct p, q; cbn in *.
  f_equal; apply fneqb_false; assumption.
Qed.

Lemma start_simulation_handles (s : daemon) :
  (sim s <> None -> _dc s <> None /\ _robot_dc s <> None) ->
  sim (final (start_simulation s)) <> None ->
  _dc (final (start_simulation s)) <> None /\
  _robot_dc (final (start_simulation s)) <> None.
Proof.
  intros H. destruct (start_simulation_cases s) as [Hok Hmiss].
  destruct (missing_required_state s) eqn:M.
  - destruct (Hmiss eq_refl) as (A & B & C).
    destruct (sim s) as [c|] eqn:Es.
    + destruct (inst s) as [a|] eqn:Ei.
      * rewrite B by congruence. cbn. congruence.
      * rewrite C by congruence. cbn. rewrite Es. intros _. apply H. discriminate.
    + rewrite A by reflexivity. cbn. congruence.
  - destruct (Hok eq_refl) as (before & stopped & E & _). rewrite E. cbn.
    intros _. split; discriminate.
Qed.

(** [place_robot] on a daemon that has the robot object of its loaded
    robot: it returns, and past its guards the robot stands at the requested
    pose. *)
Lemma place_robot_completes (s : daemon) :
  (_robot_usd s <> None -> _robot s <> None) ->
  (sim s <> None -> _dc s <> None /\ _robot_dc s <> None) ->
  outcome (place_robot s) = Returned tt /\
  (_robot_usd (final (place_robot s)) <> None ->
   _robot (final (place_robot s)) <> None) /\
  (inst s <> None -> robot_usd s <> None ->
   _start_pose (final (place_robot s)) = Some (requested_pose s)) /\
  (sim (final (place_robot s)) <> None ->
   _dc (final (place_robot s)) <> None /\
   _robot_dc (final (place_robot s)) <> None).
Proof.
  intros R Hh.
  destruct (inst s) as [a|] eqn:Ei.
  2:{ rewrite (place_robot_no_instance s Ei). cbn. splits; auto; congruence. }
  destruct (robot_usd s) as [usd|] eqn:Er.
  2:{ rewrite (place_robot_no_robot s); [|congruence|assumption]. cbn.
      splits; auto; congruence. }
  rewrite (place_robot_run s usd) by congruence. cbv zeta.
  pose proof (stop_simulation_scene s)
    as (_ & [= S1 S2 S3 S4 S5 S6 S7 S8] & _ & Hs0).
  specialize (Hs0 ltac:(congruence)).
  generalize dependent (stop_simulation s).
  intros r0 S1 S2 S3 S4 S5 S6 S7 S8 Hs0.
  pose proof (load_robot_scene (final r0))
    as (I1 & Is & I2 & I3 & I4 & I5 & I6 & I7 & I8).
  assert (Hrob : _robot (load_robot (final r0)) <> None).
  { intros E. destruct (I8 E) as [Eu El]. rewrite El, S8 in E.
    apply usd_differs_false in Eu. apply R; [|assumption]. congruence. }
  assert (Hsim : sim (load_robot (final r0)) = None) by congruence.
  destruct (differs_from (requested_pose s) (_start_pose (load_robot (final r0))))
    eqn:Ed.
  - destruct (_robot (load_robot (final r0))) as [rb|] eqn:Erb; [|congruence].
    pose proof (start_simulation_scene
                  (set__start_pose (Some (requested_pose s))
                     (load_robot (final r0))))
      as (O3 & [= T1 T2 T3 T4 T5 T6 T7 T8] & _).
    pose proof (start_simulation_handles
                  (set__start_pose (Some (requested_pose s))
                     (load_robot (final r0)))) as H3.
    generalize dependent (start_simulation
                            (set__start_pose (Some (requested_pose s))
                               (load_robot (final r0)))).
    intros r3 O3 T1 T2 T3 T4 T5 T6 T7 T8 H3. cbn [final emitted outcome].
    cbn in T7, T8. splits.
    + assumption.
    + intros _. rewrite T8, Erb. discriminate.
    + intros _ _. rewrite T7. reflexivity.
    + apply H3. cbn. congruence.
  - pose proof (start_simulation_scene (load_robot (final r0)))
      as (O3 & [= T1 T2 T3 T4 T5 T6 T7 T8] & _).
    pose proof (start_simulation_handles (load_robot (final r0))) as H3.
    generalize dependent (start_simulation (load_robot (final r0))).
    intros r3 O3 T1 T2 T3 T4 T5 T6 T7 T8 H3. cbn [final emitted outcome].
    splits.
    + assumption.
    + intros _. rewrite T8. assumption.
    + intros _ _. rewrite T7.
      destruct (_start_pose (load_robot (final r0))) as [q|]; cbn in Ed;
        [|discriminate].
      apply array_differs_false in Ed. congruence.
    + apply H3. congruence.
Qed.

Lemma open_usd_completes (s : daemon) :
  (_robot_usd s <> None -> _robot s <> None) ->
  (sim s <> None -> _dc s <> None /\ _robot_dc s <> None) ->
  outcome (open_usd s) = Returned tt /\
  (_robot_usd (final (open_usd s)) <> None ->
   _robot (final (open_usd s)) <> None) /\
  robot_usd (final (open_usd s)) = robot_usd s /\
  start_pose (final (open_usd s)) = start_pose s /\
  (inst s <> None -> map_usd s <> None -> robot_usd s <> None ->
   _start_pose (final (open_usd s)) = Some (requested_pose s)) /\
  (sim (final (open_usd s)) <> None ->
   _dc (final (open_usd s)) <> None /\ _robot_dc (final (open_usd s)) <> None).
Proof.
  intros R Hh.
  destruct (inst s) as [a|] eqn:Ei.
  2:{ rewrite (open_usd_no_instance s Ei). cbn. splits; auto; congruence. }
  destruct (map_usd s) as [usd|] eqn:Em.
  2:{ rewrite (open_usd_no_map s); [|congruence|assumption]. cbn.
      splits; auto; congruence. }
  rewrite (open_usd_run s usd) by congruence. cbv zeta. rewrite Em.
  pose proof (stop_simulation_scene s)
    as (_ & [= S1 S2 S3 S4 S5 S6 S7 S8] & _ & Hs0).
  specialize (Hs0 ltac:(congruence)).
  generalize dependent (stop_simulation s).
  intros r0 S1 S2 S3 S4 S5 S6 S7 S8 Hs0.
  assert (Hreq : forall X : daemon,
             start_pose X = start_pose s -> requested_pose X = requested_pose s)
    by (intros X E; unfold requested_pose; rewrite E; reflexivity).
  destruct (usd_differs (Some usd) (_map_usd s)).
  - pose proof (place_robot_completes
                  (set__map_usd (Some usd) (invalidate_scene (final r0))))
      as P.
    pose proof (place_robot_effect
                  (set__map_usd (Some usd) (invalidate_scene (final r0))))
      as (_ & _ & P3 & P4 & _).
    cbn [robot_usd start_pose set__map_usd invalidate_scene set__robot_usd
         set__robot_dc set__robot set__start_pose set__dc] in P3, P4.
    pose proof (Hreq (set__map_usd (Some usd) (invalidate_scene (final r0)))
                  S4) as Hq.
    generalize dependent (place_robot
                            (set__map_usd (Some usd)
                               (invalidate_scene (final r0)))).
    intros r P P3 P4. cbn [final emitted outcome].
    destruct P as (P1 & P2 & P5 & P6).
    + cbn. congruence.
    + cbn. congruence.
    + splits; try assumption; try congruence.
      intros _ _ Hr. rewrite <- Hq. apply P5; cbn; congruence.
  - pose proof (place_robot_completes (final r0)) as P.
    pose proof (place_robot_effect (final r0)) as (_ & _ & P3 & P4 & _).
    pose proof (Hreq (final r0) S4) as Hq.
    generalize dependent (place_robot (final r0)).
    intros r P P3 P4. cbn [final emitted outcome].
    destruct P as (P1 & P2 & P5 & P6).
    + rewrite S6, S8. assumption.
    + congruence.
    + splits; try assumption; try congruence.
      intros _ _ Hr. rewrite <- Hq. apply P5; congruence.
Qed.

Lemma stop_simulation_handles (s : daemon) :
  (sim s <> None -> _dc s <> None /\ _robot_dc s <> None) ->
  sim (final (stop_simulation s)) <> None ->
  _dc (final (stop_simulation s)) <> None /\
  _robot_dc (final (stop_simulation s)) <> None.
Proof.
  intros H. rewrite stop_simulation_run.
  destruct (sim s) as [c|] eqn:Es; [destruct (inst s) as [a|]|];
    cbn [final]; try (cbn; congruence).
  intros _. apply H. discriminate.
Qed.

Lemma start_instance_outcome (s : daemon) :
  inst s = None ->
  outcome (start_instance s)
  = match map_usd s with
    | Some _ => outcome (place_robot (set_inst (Some the_SimulationApp) s))
    | None => Returned tt
    end.
Proof.
  intros Hi. unfold start_instance; unfold_monad. cbn [outcome]. rewrite Hi.
  destruct (map_usd s); [|reflexivity].
  generalize (place_robot (set_inst (Some the_SimulationApp) s)).
  intros [o s2 l2]. reflexivity.
Qed.

(** A step that keeps the scene binding keeps the first part of
    [equipped]. *)
Lemma equipped_same_scene (s s' : daemon) :
  equipped s -> scene s' = scene s ->
  (sim s' <> None -> _dc s' <> None /\ _robot_dc s' <> None) ->
  equipped s'.
Proof.
  intros (R & _) [= S1 S2 S3 S4 S5 S6 S7 S8] H.
  unfold equipped. rewrite S6, S8. split; assumption.
Qed.

(** On an equipped daemon every route ends as its parsing ends: it returns
    unless [start_pose] could not be parsed;  it leaves an equipped
    daemon. *)
Lemma equipped_handle (r : request) (s : daemon) :
  (sim s <> None -> inst s <> None) -> equipped s ->
  outcome (handle r s)
  = match route_error r with
    | None => Returned tt
    | Some e => Raised e
    end /\
  equipped (final (handle r s)).
Proof.
  intros W Q. pose proof Q as (R & Hh).
  destruct r as [e|rb ps| | | |]; cbn [route_error].
  - (* /open_environment *)
    rewrite handle_open_environment.
    assert (F : inst (with_environment e s) = inst s /\
                sim (with_environment e s) = sim s /\
                _robot_usd (with_environment e s) = _robot_usd s /\
                _robot (with_environment e s) = _robot s /\
                _dc (with_environment e s) = _dc s /\
                _robot_dc (with_environment e s) = _robot_dc s)
      by (destruct e; splits; reflexivity).
    destruct F as (F1 & F2 & F3 & F4 & F5 & F6).
    destruct (open_usd_completes (with_environment e s))
      as (O & R' & Er & Ep & P' & H');
      [rewrite F3, F4; exact R|rewrite F2, F5, F6; exact Hh|].
    split; [assumption|]. unfold equipped. split; assumption.
  - (* /place_robot *)
    rewrite handle_place_robot_at.
    assert (F : inst (with_robot rb ps s) = inst s /\
                sim (with_robot rb ps s) = sim s /\
                _robot_usd (with_robot rb ps s) = _robot_usd s /\
                _robot (with_robot rb ps s) = _robot s /\
                _dc (with_robot rb ps s) = _dc s /\
                _robot_dc (with_robot rb ps s) = _robot_dc s)
      by (destruct rb as [| |usd], ps as [| |[arr|]]; splits; reflexivity).
    destruct F as (F1 & F2 & F3 & F4 & F5 & F6).
    destruct (parse_error ps) as [e|].
    + cbn [outcome final]. split; [reflexivity|].
      unfold equipped. rewrite F2, F3, F4, F5, F6. exact Q.
    + destruct (place_robot_completes (with_robot rb ps s))
        as (O & R' & P' & H');
        [rewrite F3, F4; exact R|rewrite F2, F5, F6; exact Hh|].
      split; [assumption|]. unfold equipped. split; assumption.
  - (* /restart_sim *)
    destruct (stop_simulation_scene s) as (O1 & S1 & _).
    destruct (bind_final stop_simulation (fun _ => start_simulation) s tt O1)
      as (E & _ & Eo).
    cbn [handle]. rewrite E, Eo.
    destruct (start_simulation_scene (final (stop_simulation s)))
      as (O2 & S2 & _).
    split; [assumption|].
    apply (equipped_same_scene s); [assumption|congruence|].
    apply start_simulation_handles. apply stop_simulation_handles. assumption.
  - (* /start *)
    cbn [handle]. destruct (inst s) as [a|] eqn:Ei.
    + rewrite start_instance_running by congruence. split; [reflexivity|exact Q].
    + destruct (start_instance_fresh s Ei) as (E & _).
      rewrite (start_instance_outcome s Ei), E.
      assert (Hsim : sim s = None).
      { destruct (sim s) eqn:Es; [|reflexivity].
        exfalso. apply W; [discriminate|reflexivity]. }
      destruct (map_usd s) as [usd|] eqn:Em.
      * destruct (place_robot_completes (set_inst (Some the_SimulationApp) s))
          as (O & R' & P' & H'); [exact R|cbn; congruence|].
        split; [assumption|]. unfold equipped. split; assumption.
      * split; [reflexivity|]. unfold equipped. cbn.
        split; [exact R|exact Hh].
  - (* /start_sim *)
    cbn [handle]. destruct (start_simulation_scene s) as (O & S2 & _).
    split; [assumption|].
    apply (equipped_same_scene s); [assumption..|].
    apply start_simulation_handles. assumption.
  - (* /stop_sim *)
    cbn [handle]. destruct (stop_simulation_scene s) as (O & S2 & _).
    split; [assumption|].
    apply (equipped_same_scene s); [assumption..|].
    apply stop_simulation_handles. assumption.
Qed.

Lemma equipped_tick (live : dc_transform) (s s' : daemon) l :
  equipped s ->
  tick_simulator live s = mkrun (Returned tt) s' l ->
  equipped s'.
Proof.
  intros Q E.
  assert (Hs : scene s' = scene s /\ sim s' = sim s /\ _dc s' = _dc s /\
               _robot_dc s' = _robot_dc s).
  { destruct (inst s) as [a|] eqn:Ei.
    - destruct (sim s) as [c|] eqn:Es.
      + destruct (tick_active_returned live s s' l) as (d & c' & -> & _);
          try congruence.
        splits; try reflexivity. cbn. congruence.
      + unfold tick_simulator in E; unfold_monad; cbn in E.
        rewrite Ei, Es in E. injection E as <- _. splits; congruence.
    - unfold tick_simulator in E; unfold_monad; cbn in E.
      rewrite Ei in E. injection E as <- _. splits; reflexivity. }
  destruct Hs as (Hsc & Hsim & H1 & H2).
  apply (equipped_same_scene s); try assumption.
  rewrite Hsim, H1, H2. apply Q.
Qed.

Lemma reaches_equipped (h : list event) (s : daemon) :
  reaches h s -> equipped s.
Proof.
  intros Hr. pose proof Hr as Hr'.
  induction Hr as [|h s r Hr IH|h s live s' l Hr IH E].
  - unfold equipped. cbn. split; [congruence|intros F; contradiction].
  - apply equipped_handle; [|apply IH; assumption].
    apply (reaches_consistent h s Hr).
  - apply (equipped_tick live s s' l); [apply IH; assumption|assumption].
Qed.

(** X3.  In every daemon the loop of [run] can reach, a route ends as the
    parsing of its request ends.  The method behind it returns: none of
    [open_usd], [place_robot], [start_instance], [start_simulation],
    [stop_simulation] raises, whatever was requested before, and in
    particular [place_robot] never teleports a robot object that is not
    there.  The one route that raises is [/place_robot] with a [start_pose]
    that is [null] ([AttributeError]) or that [float] refuses
    ([ValueError]).  (A [start_pose] is a text of seven fields here, as
    everywhere in this file.) *)
Theorem routes_return (h : list event) (s : daemon) (r : request) :
  reaches h s ->
  outcome (handle r s)
  = match route_error r with
    | None => Returned tt
    | Some e => Raised e
    end.
Proof.
  intros Hr. apply equipped_handle.
  - apply (reaches_consistent h s Hr).
  - apply (reaches_equipped h s Hr).
Qed.

Lemma routes_return_witness :
  outcome (handle (place_robot_at absent (given (parsed (of_pose DEFAULT_POSE))))
                  (snd (serve start_without_pose [] init))) = Returned tt.
Proof.
  apply (routes_return (fst (serve start_without_pose [] init))).
  apply serve_reaches. apply reaches_init.
Defined.

(** X4.  In every daemon the loop of [run] can reach, a Session comes with
    what the tick reads and with an engine to run in: an Instance, both
    pose-query handles, a running application and a map on the stage.  What
    the daemon records as loaded is what the engine has: a recorded map is
    the map on the stage, a recorded robot is the robot on the stage and has
    its robot object.  A requested map is the map on the stage.  (A
    requested robot need not be on the stage, and the robot need not stand
    at the requested pose: a [/place_robot] whose [start_pose] does not
    parse assigns the robot and stops there.) *)
Theorem session_is_equipped (h : list event) (s : daemon) :
  reaches h s -> sim s <> None ->
  inst s <> None /\ _dc s <> None /\ _robot_dc s <> None /\
  app_running (engine_after no_engine h) = true /\
  stage_map (engine_after no_engine h) <> None /\
  (map_usd s <> None -> stage_map (engine_after no_engine h) = map_usd s) /\
  (_map_usd s <> None -> stage_map (engine_after no_engine h) = _map_usd s) /\
  (_robot_usd s <> None ->
   stage_robot (engine_after no_engine h) = _robot_usd s /\ _robot s <> None).
Proof.
  intros Hr Hs.
  destruct (reaches_consistent h s Hr) as [W (C1 & _ & Htr)].
  destruct (reaches_equipped h s Hr) as (R & Hh).
  pose proof (W Hs) as A. destruct (Hh Hs) as [D1 D2].
  destruct (Htr A) as [(T1 & T2 & T3) Hsync].
  splits; auto.
Qed.

Lemma session_is_equipped_witness :
  stage_robot (engine_after no_engine (fst (serve start_without_pose [] init)))
  = _robot_usd (snd (serve start_without_pose [] init)) /\
  _robot (snd (serve start_without_pose [] init)) <> None.
Proof.
  destruct (session_is_equipped (fst (serve start_without_pose [] init))
              (snd (serve start_without_pose [] init)))
    as (_ & _ & _ & _ & _ & _ & _ & A).
  - apply serve_reaches. apply reaches_init.
  - vm_compute. discriminate.
  - apply A. vm_compute. discriminate.
Defined.

Lemma quat_norm_zero (s x y z : R) :
  quat_norm s x y z = 0%R <-> s = 0%R /\ x = 0%R /\ y = 0%R /\ z = 0%R.
Proof.
  unfold quat_norm. split.
  - intros H. apply sqrt_eq_0 in H; [|nra]. splits; nra.
  - intros (-> & -> & -> & ->).
    replace (0 * 0 + 0 * 0 + 0 * 0 + 0 * 0)%R with 0%R by ring.
    apply sqrt_0.
Qed.







(** The outcome of a tick: it is that of [check_dirty] when the drift check
    is due, and a plain return otherwise. *)
Lemma tick_outcome (live : dc_transform) (s : daemon) :
  (drift_check_due s ->
   outcome (tick_simulator live s)
   = match outcome (check_dirty live s) with
     | Returned _ => Returned tt
     | Raised e => Raised e
     end) /\
  (~ drift_check_due s -> outcome (tick_simulator live s) = Returned tt) /\
  (forall e, outcome (tick_simulator live s) = Raised e ->
             drift_check_due s /\ final (tick_simulator live s) = s).
Proof.
  unfold drift_check_due.
  destruct (inst s) as [a|] eqn:Ei.
  2:{ unfold tick_simulator; unfold_monad. rewrite Ei. cbn.
      splits; [intros (F & _); congruence|reflexivity|discriminate]. }
  destruct (sim s) as [c|] eqn:Es.
  2:{ unfold tick_simulator; unfold_monad. rewrite Ei, Es. cbn.
      splits; [intros (_ & F & _); congruence|reflexivity|discriminate]. }
  rewrite tick_active_run by congruence.
  destruct (sim_i s mod 6 =? 0)%Z eqn:E6.
  - apply Z.eqb_eq in E6. destruct (sim_dirty s) eqn:Ed; cbn [andb negb].
    + cbn [outcome]. splits; [intros (_ & _ & _ & F); discriminate|reflexivity|
                              discriminate].
    + destruct (outcome (check_dirty live s)) as [b|e]; cbn [outcome final].
      * splits; [reflexivity|reflexivity|discriminate].
      * splits; [reflexivity| |].
        -- intros F. exfalso. apply F. splits; congruence.
        -- intros _ _. splits; congruence.
  - apply Z.eqb_neq in E6. cbn [andb outcome].
    splits; [intros (_ & _ & F & _); contradiction|reflexivity|discriminate].
Qed.



(** *** One application per run, and how the loop of [run] ends *)

Lemma quiet_no_app (l : list event) :
  forallb quiet l = true -> forallb no_app l = true.
Proof.
  induction l as [|e l IH]; [reflexivity|]. cbn [forallb].
  intros H. apply andb_true_iff in H. destruct H as [He Hl].
  rewrite (IH Hl), andb_true_r. destruct e; try discriminate; reflexivity.
Qed.

Lemma no_app_counts (l : list event) :
  forallb no_app l = true ->
  count is_new_app l = 0%nat /\ count is_inst_close l = 0%nat.
Proof.
  unfold count. induction l as [|e l IH]; [split; reflexivity|].
  cbn [forallb]. intros H. apply andb_true_iff in H. destruct H as [He Hl].
  destruct (IH Hl) as [I1 I2].
  destruct e; try discriminate; cbn; auto.
Qed.

Lemma place_robot_no_app (s : daemon) :
  forallb no_app (emitted (place_robot s)) = true.
Proof.
  destruct (inst s) as [a|] eqn:Ei.
  2:{ rewrite (place_robot_no_instance s Ei). reflexivity. }
  destruct (robot_usd s) as [usd|] eqn:Er.
  2:{ rewrite (place_robot_no_robot s); [reflexivity|congruence|assumption]. }
  rewrite (place_robot_run s usd) by congruence. cbv zeta.
  pose proof (quiet_no_app _ (stop_simulation_quiet s)) as Q0.
  generalize dependent (stop_simulation s). intros r0 Q0.
  assert (Q1 : forallb no_app (load_robot_calls usd s) = true)
    by (unfold load_robot_calls; destruct (usd_differs _ _); reflexivity).
  destruct (differs_from _ _).
  - destruct (_robot (load_robot (final r0))).
    + match goal with |- context [start_simulation ?x] =>
        pose proof (quiet_no_app _ (start_simulation_quiet x)) as Q3;
        generalize dependent (start_simulation x) end.
      intros r3 Q3. cbn [emitted]. rewrite !forallb_app, Q0, Q1, Q3.
      reflexivity.
    + cbn [emitted]. rewrite !forallb_app, Q0, Q1. reflexivity.
  - match goal with |- context [start_simulation ?x] =>
      pose proof (quiet_no_app _ (start_simulation_quiet x)) as Q3;
      generalize dependent (start_simulation x) end.
    intros r3 Q3. cbn [emitted]. rewrite !forallb_app, Q0, Q1, Q3.
    reflexivity.
Qed.

Lemma open_usd_no_app (s : daemon) :
  forallb no_app (emitted (open_usd s)) = true.
Proof.
  destruct (inst s) as [a|] eqn:Ei.
  2:{ rewrite (open_usd_no_instance s Ei). reflexivity. }
  destruct (map_usd s) as [usd|] eqn:Em.
  2:{ rewrite (open_usd_no_map s); [reflexivity|congruence|assumption]. }
  rewrite (open_usd_run s usd) by congruence. cbv zeta.
  pose proof (quiet_no_app _ (stop_simulation_quiet s)) as Q0.
  generalize dependent (stop_simulation s). intros r0 Q0.
  destruct (usd_differs _ _);
    match goal with |- context [place_robot ?x] =>
      pose proof (place_robot_no_app x) as Q1;
      generalize dependent (place_robot x) end;
    intros r1 Q1; cbn [emitted]; rewrite !forallb_app, Q0, Q1; reflexivity.
Qed.

(** What a route does about the application: [/start] without an Instance
    creates it, nothing else creates or closes one. *)
Lemma handle_app_calls (r : request) (s : daemon) :
  count is_inst_close (emitted (handle r s)) = 0%nat /\
  (b2n (started s) + count is_new_app (emitted (handle r s))
   = b2n (started (final (handle r s))))%nat /\
  (inst (final (handle r s)) = None ->
   forallb quiet (emitted (handle r s)) = true).
Proof.
  assert (Z : forall (l : list event) (s' : daemon),
             forallb no_app l = true -> inst s' = inst s ->
             count is_inst_close l = 0%nat /\
             (b2n (started s) + count is_new_app l = b2n (started s'))%nat).
  { intros l s' H E. destruct (no_app_counts l H) as [-> ->].
    unfold started. rewrite E. split; [reflexivity|apply Nat.add_0_r]. }
  destruct r as [e|rb ps| | | |].
  - rewrite handle_open_environment.
    destruct (open_usd_effect (with_environment e s)) as (E1 & _).
    assert (Ei : inst (with_environment e s) = inst s)
      by (destruct e; reflexivity).
    destruct (Z _ (final (open_usd (with_environment e s)))
                (open_usd_no_app (with_environment e s))) as [Z1 Z2];
      [congruence|].
    splits; try assumption. intros Hi.
    rewrite E1 in Hi. rewrite (open_usd_no_instance _ Hi). reflexivity.
  - rewrite handle_place_robot_at.
    destruct (place_robot_effect (with_robot rb ps s)) as (E1 & _).
    destruct (with_robot_frame rb ps s) as (Ei & _).
    destruct (parse_error ps) as [e|]; cbn [final emitted].
    + destruct (Z [] (with_robot rb ps s) eq_refl Ei) as [Z1 Z2].
      splits; try assumption. reflexivity.
    + destruct (Z _ (final (place_robot (with_robot rb ps s)))
                  (place_robot_no_app (with_robot rb ps s))) as [Z1 Z2];
        [congruence|].
      splits; try assumption. intros Hi.
      rewrite E1 in Hi. rewrite (place_robot_no_instance _ Hi). reflexivity.
  - destruct (stop_simulation_scene s) as (O1 & [= S1 _] & _).
    destruct (bind_final stop_simulation (fun _ => start_simulation) s tt O1)
      as (E & El & _).
    destruct (start_simulation_scene (final (stop_simulation s)))
      as (_ & [= T1 _] & _).
    cbn [handle]. rewrite E, El.
    assert (Q : forallb quiet (emitted (stop_simulation s) ++
                               emitted (start_simulation
                                          (final (stop_simulation s)))) = true)
      by (rewrite forallb_app, stop_simulation_quiet, start_simulation_quiet;
          reflexivity).
    destruct (Z _ (final (start_simulation (final (stop_simulation s))))
                (quiet_no_app _ Q)) as [Z1 Z2]; [congruence|].
    splits; auto.
  - cbn [handle]. unfold started. destruct (inst s) as [a|] eqn:Ei.
    + rewrite start_instance_running by congruence. cbn [final emitted].
      rewrite Ei. splits; try reflexivity.
    + destruct (start_instance_fresh s Ei) as (E & El). rewrite E, El.
      rewrite !count_app.
      destruct (map_usd s) as [usd|].
      * destruct (no_app_counts _ (place_robot_no_app
                                     (set_inst (Some the_SimulationApp) s)))
          as [N1 N2].
        destruct (place_robot_effect (set_inst (Some the_SimulationApp) s))
          as (E1 & _).
        rewrite N1, N2, E1. splits; try reflexivity. cbn. congruence.
      * splits; try reflexivity. cbn. congruence.
  - cbn [handle]. destruct (start_simulation_scene s) as (_ & [= T1 _] & _).
    destruct (Z _ (final (start_simulation s))
                (quiet_no_app _ (start_simulation_quiet s))) as [Z1 Z2];
      [assumption|].
    splits; auto. intros _. apply start_simulation_quiet.
  - cbn [handle]. destruct (stop_simulation_scene s) as (_ & [= T1 _] & _).
    destruct (Z _ (final (stop_simulation s))
                (quiet_no_app _ (stop_simulation_quiet s))) as [Z1 Z2];
      [assumption|].
    splits; auto. intros _. apply stop_simulation_quiet.
Qed.

Lemma reaches_one_instance (h : list event) (s : daemon) :
  reaches h s ->
  count is_new_app h = b2n (started s) /\
  count is_inst_close h = 0%nat /\
  (inst s = None -> forallb quiet h = true).
Proof.
  induction 1 as [|h s r Hr (I1 & I2 & I3)|h s live s' l Hr (I1 & I2 & I3) E].
  - splits; reflexivity.
  - destruct (handle_app_calls r s) as (H1 & H2 & H3).
    rewrite !count_app, I1, I2, H1, H2. splits; try reflexivity.
    intros Hi. rewrite forallb_app, (H3 Hi), andb_true_r. apply I3.
    destruct (inst s) as [a|] eqn:Ei; [|reflexivity].
    rewrite handle_keeps_instance in Hi by congruence. congruence.
  - pose proof (tick_quiet live s) as Q.
    destruct (tick_keeps_instance live s) as [K _].
    rewrite E in Q, K. cbn [final emitted] in Q, K.
    destruct (no_app_counts _ (quiet_no_app _ Q)) as [N1 N2].
    rewrite !count_app, I1, I2, N1, N2. unfold started. rewrite K.
    splits; try reflexivity; try apply Nat.add_0_r.
    intros Hi. rewrite forallb_app, Q, andb_true_r. apply I3. congruence.
Qed.

(** X6.  While the loop of [run] runs, the application is created at most
    once and never closed: [SimulationApp] has been created exactly once if
    [/started] answers true and never otherwise, [inst.close()] has not been
    called, and without an Instance the engine has received no call that
    loads anything.  A second [/start] only prints. *)
Theorem one_instance_per_run (h : list event) (s : daemon) :
  reaches h s ->
  count is_new_app h = b2n (started s) /\
  count is_inst_close h = 0%nat /\
  (started s = false -> engine_after no_engine h = no_engine) /\
  (started s = true ->
   handle start s =
   mkrun (Returned tt) s
         [stdout "Instance already running. Please /stop first."]).
Proof.
  intros Hr. destruct (reaches_one_instance h s Hr) as (I1 & I2 & I3).
  splits; try assumption.
  - unfold started. intros Hi. apply engine_after_quiet. apply I3.
    destruct (inst s); [discriminate|reflexivity].
  - unfold started. intros Hi. cbn [handle]. apply start_instance_running.
    destruct (inst s); [discriminate|discriminate].
Qed.

Lemma one_instance_per_run_witness :
  count is_new_app (fst (serve (usual_start ++ [start; start]) [] init))
  = 1%nat.
Proof.
  destruct (one_instance_per_run
              (fst (serve (usual_start ++ [start; start]) [] init))
              (snd (serve (usual_start ++ [start; start]) [] init)))
    as (A & _).
  - apply serve_reaches. apply reaches_init.
  - rewrite A. vm_compute. reflexivity.
Defined.

Lemma serve_all_run (rs : list request) :
  forall (h : list event) (s : daemon),
    exists l : list event,
      serve_all rs s = mkrun (Returned tt) (snd (serve rs h s)) l /\
      fst (serve rs h s) = (h ++ l)%list.
Proof.
  induction rs as [|r rs IH]; intros h s.
  - exists []. cbn. rewrite app_nil_r. split; reflexivity.
  - destruct (IH (h ++ emitted (handle r s))%list (final (handle r s)))
      as (l & E & El).
    exists (emitted (handle r s) ++ l)%list.
    cbn [serve_all serve]. unfold bind, served. rewrite E, El, app_assoc.
    split; reflexivity.
Qed.

(** How the loop ends, from a daemon it can reach: either every tick
    returned and [stop_instance] has run on a reachable daemon, or a tick
    raised on a reachable daemon and nothing was run after it. *)
Lemma run_loop_from (rounds : list (list request * dc_transform)) :
  forall (h : list event) (s : daemon),
    reaches h s ->
    exists (h' : list event) (s' : daemon),
      reaches (h ++ h') s' /\
      (run_loop rounds s
       = mkrun (Returned tt) (final (stop_instance s'))
               (h' ++ emitted (stop_instance s')) \/
       exists (e : exn) (live : dc_transform),
         outcome (tick_simulator live s') = Raised e /\
         run_loop rounds s
         = mkrun (Raised e) s' (h' ++ emitted (tick_simulator live s'))).
Proof.
  induction rounds as [|[rs live] rest IH]; intros h s Hr.
  - exists [], s. rewrite app_nil_r. split; [assumption|]. left.
    cbn [run_loop app]. rewrite stop_instance_run.
    destruct (inst s); [destruct (sim s)|]; reflexivity.
  - destruct (serve_all_run rs h s) as (l & E & El).
    pose proof (serve_reaches rs h s Hr) as Hr1. rewrite El in Hr1.
    set (s1 := snd (serve rs h s)) in *.
    assert (Erun : run_loop ((rs, live) :: rest) s
                   = match tick_simulator live s1 with
                     | mkrun (Returned _) s2 l2 =>
                         mkrun (outcome (run_loop rest s2))
                               (final (run_loop rest s2))
                               (l ++ l2 ++ emitted (run_loop rest s2))
                     | mkrun (Raised e) s2 l2 => mkrun (Raised e) s2 (l ++ l2)
                     end).
    { cbn [run_loop]. unfold bind. rewrite E.
      destruct (tick_simulator live s1) as [[[]|e] s2 l2];
        [destruct (run_loop rest s2)|]; reflexivity. }
    rewrite Erun. clear Erun.
    destruct (tick_outcome live s1) as (_ & _ & Hfin).
    destruct (tick_simulator live s1) as [o s2 l2] eqn:Et.
    destruct o as [[]|e].
    + pose proof (reaches_tick _ _ live s2 l2 Hr1 Et) as Hr2.
      destruct (IH _ _ Hr2) as (h' & s' & Hr3 & Hend).
      exists (l ++ l2 ++ h')%list, s'.
      split; [rewrite !app_assoc in *; exact Hr3|].
      destruct Hend as [Hend|(e & live' & He & Hend)]; rewrite Hend;
        cbn [outcome final emitted].
      * left. rewrite !app_assoc. reflexivity.
      * right. exists e, live'. split; [exact He|].
        rewrite !app_assoc. reflexivity.
    + exists l, s1. split; [exact Hr1|]. right.
      exists e, live. rewrite Et. cbn [outcome emitted].
      destruct (Hfin e eq_refl) as [_ F]. cbn [final] in F. subst s2.
      split; reflexivity.
Qed.

(** X7.  How [run] ends, for every schedule of requests and ticks up to the
    signal.  If no tick raises, [stop_instance] is the last thing run: the
    daemon is left without Instance and without Session, [inst.close()] has
    been called as often as [SimulationApp] was created, and the engine has
    nothing loaded.  If a tick raises, the cleanup is skipped: the daemon
    still has its Instance and its Session, the counter of the failed tick
    is a multiple of 6, the application has been created and
    [inst.close()] was never called. *)
Theorem run_loop_ends (rounds : list (list request * dc_transform)) :
  match outcome (run_loop rounds init) with
  | Returned _ =>
      inst (final (run_loop rounds init)) = None /\
      sim (final (run_loop rounds init)) = None /\
      count is_inst_close (emitted (run_loop rounds init))
      = count is_new_app (emitted (run_loop rounds init)) /\
      engine_after no_engine (emitted (run_loop rounds init)) = no_engine
  | Raised e =>
      drift_check_due (final (run_loop rounds init)) /\
      count is_new_app (emitted (run_loop rounds init)) = 1%nat /\
      count is_inst_close (emitted (run_loop rounds init)) = 0%nat /\
      app_running (engine_after no_engine (emitted (run_loop rounds init)))
      = true
  end.
Proof.
  destruct (run_loop_from rounds [] init reaches_init)
    as (h' & s' & Hr & [E|(e & live & He & E)]); cbn [app] in Hr; rewrite E;
    cbn [outcome final emitted];
    destruct (reaches_one_instance h' s' Hr) as (I1 & I2 & I3);
    destruct (reaches_consistent h' s' Hr) as [W (_ & _ & Htr)].
  - rewrite stop_instance_run, !count_app, engine_after_app, I1, I2.
    unfold started in *.
    destruct (inst s') as [a|] eqn:Ei.
    + destruct (sim s') eqn:Es; cbn; rewrite ?Es; splits; reflexivity.
    + assert (Es : sim s' = None).
      { destruct (sim s') eqn:Es; [|reflexivity].
        exfalso. apply W; [congruence|exact Ei]. }
      cbn [final emitted]. rewrite (engine_after_quiet h') by auto.
      splits; auto.
  - destruct (tick_outcome live s') as (_ & _ & Hfin).
    destruct (Hfin e He) as [D _]. pose proof D as (Hi & _).
    pose proof (tick_quiet live s') as Q.
    destruct (no_app_counts _ (quiet_no_app _ Q)) as [N1 N2].
    rewrite !count_app, engine_after_app, I1, I2, N1, N2.
    rewrite (engine_after_quiet _ _ Q).
    destruct (Htr Hi) as [(T1 & _) _].
    unfold started. destruct (inst s'); [|congruence].
    splits; auto.
Qed.

(** *** The cadence from any counter value *)

Lemma fires_mod (d i : Z) : (d | 60)%Z -> fires d (i mod 60) = fires d i.
Proof.
  intros H. unfold fires. rewrite Z.mod_mod_divide by assumption. reflexivity.
Qed.

Lemma multiples_mod (d : Z) (n : nat) :
  (d | 60)%Z -> forall i : Z, multiples d (i mod 60) n = multiples d i n.
Proof.
  intros H. induction n as [|n IH]; intros i; [reflexivity|].
  cbn [multiples]. rewrite fires_mod by assumption. f_equal.
  rewrite <- (IH (i mod 60 + 1)%Z), <- (IH (i + 1)%Z). f_equal.
  rewrite Z.add_mod_idemp_l by lia. reflexivity.
Qed.

(** Among any sixty consecutive counter values there are [60 / d] multiples
    of each of the periods 2, 6 and 60. *)
Lemma multiples_sixty (d i : Z) :
  In d [2; 6; 60]%Z -> multiples d i 60 = Z.to_nat (60 / d).
Proof.
  intros Hd.
  assert (Hdiv : (d | 60)%Z).
  { destruct Hd as [<-|[<-|[<-|[]]]];
      [exists 30%Z|exists 10%Z|exists 1%Z]; reflexivity. }
  rewrite <- multiples_mod by assumption.
  assert (Hr : (0 <= i mod 60 < 60)%Z) by (apply Z.mod_pos_bound; lia).
  assert (All : forallb (fun r =>
                  forallb (fun d => Nat.eqb (multiples d r 60)
                                            (Z.to_nat (60 / d)))
                          [2; 6; 60]%Z)
                  (map Z.of_nat (seq 0 60)) = true) by (vm_compute; reflexivity).
  rewrite forallb_forall in All.
  specialize (All (i mod 60)%Z).
  rewrite forallb_forall in All.
  apply Nat.eqb_eq. apply All; [|assumption].
  apply in_map_iff. exists (Z.to_nat (i mod 60)). split; [lia|].
  apply in_seq. lia.
Qed.

(** X8.  The cadence does not depend on where the counter stands.  Sixty
    consecutive ticks of a Session that all return tick [clock] 60 times,
    each of [diff_base], [lidar], [tf], [tf_sensors] 30 times and [rgbd] 10
    times, and evaluate [check_collided] exactly once, whatever the value of
    [sim_i] before the first of them;  the counter has advanced by 60 and
    Instance and Session are the same. *)
Theorem any_sixty_ticks (s : daemon) (lives : list dc_transform) :
  inst s <> None -> sim s <> None ->
  List.length lives = 60%nat ->
  outcome (ticks lives s) = Returned tt ->
  cadence_of (emitted (ticks lives s)) = mkcadence 60 30 30 30 30 10 1 /\
  sim_i (final (ticks lives s)) = (sim_i s + 60)%Z /\
  inst (final (ticks lives s)) = inst s /\
  sim (final (ticks lives s)) = sim s.
Proof.
  intros Hi Hs Hn Ho. apply run_returned in Ho.
  destruct (ticks_cadence lives s _ _ Hi Hs Ho) as (Ei & Einst & Esim & Ec).
  rewrite Hn in Ei, Ec. splits; try assumption.
  rewrite Ec. unfold expected_cadence.
  rewrite !multiples_sixty by (cbn; auto). reflexivity.
Qed.

Lemma any_sixty_ticks_witness :
  cadence_of (emitted (ticks (repeat standing_still 60) midway))
  = mkcadence 60 30 30 30 30 10 1.
Proof.
  destruct (any_sixty_ticks midway (repeat standing_still 60)) as (A & _).
  - discriminate.
  - discriminate.
  - reflexivity.
  - apply ticks_return; try discriminate. left. reflexivity.
  - exact A.
Defined.

(** *** The components [place_robot] disables and the tick ticks *)

Lemma disabled_paths_app (l1 l2 : list event) :
  disabled_paths (l1 ++ l2) = (disabled_paths l1 ++ disabled_paths l2)%list.
Proof. apply flat_map_app. Qed.

Lemma ticked_paths_app (l1 l2 : list event) :
  ticked_paths (l1 ++ l2) = (ticked_paths l1 ++ ticked_paths l2)%list.
Proof. apply flat_map_app. Qed.

Lemma stop_simulation_disables_nothing (s : daemon) :
  disabled_paths (emitted (stop_simulation s)) = [].
Proof. rewrite stop_simulation_run. destruct (sim s), (inst s); reflexivity. Qed.

Lemma start_simulation_disables_nothing (s : daemon) :
  disabled_paths (emitted (start_simulation s)) = [].
Proof.
  unfold start_simulation, stop_simulation; unfold_monad.
  destruct s as [[a|] [c|] n col dty [m|] [r|] sp m' r' sp' dc rb rdc];
    reflexivity.
Qed.

(** The paths a tick ticks are entries of [ROBOT_COMPONENTS]. *)
Lemma tick_ticked_paths (live : dc_transform) (s : daemon) :
  incl (ticked_paths (emitted (tick_simulator live s))) ROBOT_COMPONENTS_values.
Proof.
  destruct (inst s) as [a|] eqn:Ei.
  - destruct (sim s) as [c|] eqn:Es.
    + rewrite tick_active_run by congruence.
      destruct (check_dirty_cases s live) as (o & lc & E & Hl).
      rewrite E; cbn [outcome emitted].
      assert (Hc : ticked_paths lc = [])
        by (destruct Hl as [[-> _]| ->]; reflexivity).
      assert (Ht : incl (ticked_paths (tick_calls (sim_i s)))
                        ROBOT_COMPONENTS_values).
      { unfold tick_calls.
        destruct (sim_i s mod 2 =? 0)%Z, (sim_i s mod 6 =? 0)%Z;
          intros p Hp; cbn in Hp; cbn; tauto. }
      assert (Hk : ticked_paths (collision_calls (sim_i s)) = [])
        by (unfold collision_calls; destruct (sim_i s mod 60 =? 0)%Z;
            reflexivity).
      destruct ((sim_i s mod 6 =? 0)%Z && negb (sim_dirty s))%bool.
      * destruct o as [[|]|e]; cbn [emitted];
          rewrite !ticked_paths_app, Hc; try rewrite Hk; cbn [marker_calls];
          cbn [ticked_paths flat_map app]; rewrite ?app_nil_r; exact Ht.
      * cbn [emitted]. rewrite ticked_paths_app, Hk, app_nil_r. exact Ht.
    + unfold tick_simulator; unfold_monad; cbn. rewrite Ei, Es.
      intros p [].
  - unfold tick_simulator; unfold_monad; cbn. rewrite Ei. intros p [].
Qed.

(** X9.  [place_robot] and the components.  On a daemon that has the robot
    object of its loaded robot, [place_robot] sets the [enabled] property of
    each of the six entries of [ROBOT_COMPONENTS] to false, each exactly once
    and in the order of the dictionary, when there is an Instance and a
    robot was requested, and of none otherwise.  Every component a tick
    ticks is one of those six, and nothing else disables a component:
    [start_simulation] and [stop_simulation] change no property. *)
Theorem place_robot_disables_components (s : daemon) :
  (_robot_usd s <> None -> _robot s <> None) ->
  disabled_paths (emitted (place_robot s))
  = (if started s && match robot_usd s with Some _ => true | None => false end
     then enabled_properties else []) /\
  NoDup enabled_properties /\ List.length enabled_properties = 6%nat /\
  (forall (live : dc_transform) (s' : daemon) (p : string),
      In p (ticked_paths (emitted (tick_simulator live s'))) ->
      In (p ++ ".enabled") enabled_properties) /\
  disabled_paths (emitted (start_simulation s)) = [] /\
  disabled_paths (emitted (stop_simulation s)) = [].
Proof.
  intros R. splits.
  - unfold started. destruct (inst s) as [a|] eqn:Ei.
    2:{ rewrite (place_robot_no_instance s Ei). reflexivity. }
    destruct (robot_usd s) as [usd|] eqn:Er.
    2:{ rewrite (place_robot_no_robot s); [reflexivity|congruence|assumption]. }
    rewrite (place_robot_run s usd) by congruence. cbv zeta.
    pose proof (stop_simulation_disables_nothing s) as Q0.
    pose proof (stop_simulation_scene s) as (_ & [= S1 S2 S3 S4 S5 S6 S7 S8] & _).
    generalize dependent (stop_simulation s).
    intros r0 Q0 S1 S2 S3 S4 S5 S6 S7 S8.
    assert (Q1 : disabled_paths (load_robot_calls usd s) = [])
      by (unfold load_robot_calls; destruct (usd_differs _ _); reflexivity).
    pose proof (load_robot_scene (final r0)) as (_ & _ & _ & _ & _ & _ & _ & _ & I8).
    destruct (differs_from _ _).
    + destruct (_robot (load_robot (final r0))) eqn:Erb.
      * match goal with |- context [start_simulation ?x] =>
          pose proof (start_simulation_disables_nothing x) as Q3;
          generalize dependent (start_simulation x) end.
        intros r3 Q3. cbn [emitted andb].
        rewrite !disabled_paths_app, Q0, Q1, Q3, app_nil_r. reflexivity.
      * exfalso. destruct (I8 eq_refl) as [Eu El]. rewrite El, S8 in Erb.
        apply usd_differs_false in Eu. apply R; [|assumption]. congruence.
    + match goal with |- context [start_simulation ?x] =>
        pose proof (start_simulation_disables_nothing x) as Q3;
        generalize dependent (start_simulation x) end.
      intros r3 Q3. cbn [emitted andb].
      rewrite !disabled_paths_app, Q0, Q1, Q3, app_nil_r. reflexivity.
  - unfold enabled_properties, ROBOT_COMPONENTS_values. cbn.
    repeat (constructor; [cbn; intuition discriminate|]). constructor.
  - reflexivity.
  - intros live s' p Hp. apply tick_ticked_paths in Hp.
    unfold enabled_properties. apply in_map_iff. exists p. split; auto.
  - apply start_simulation_disables_nothing.
  - apply stop_simulation_disables_nothing.
Qed.

Lemma place_robot_disables_components_witness :
  disabled_paths (emitted (place_robot running_daemon)) = enabled_properties.
Proof.
  destruct (place_robot_disables_components running_daemon) as (A & _).
  - discriminate.
  - exact A.
Defined.

(** *** [/start] with a map *)

(** With Instance, map and robot, [place_robot] ends with a Session. *)
Lemma place_robot_starts_session (s : daemon) :
  inst s <> None -> map_usd s <> None -> robot_usd s <> None ->
  (_robot_usd s <> None -> _robot s <> None) ->
  sim (final (place_robot s)) <> None.
Proof.
  intros Hi Hm Hr R.
  destruct (robot_usd s) as [usd|] eqn:Er; [|congruence].
  rewrite (place_robot_run s usd) by congruence. cbv zeta.
  pose proof (stop_simulation_scene s)
    as (_ & [= S1 S2 S3 S4 S5 S6 S7 S8] & _).
  generalize dependent (stop_simulation s).
  intros r0 S1 S2 S3 S4 S5 S6 S7 S8.
  pose proof (load_robot_scene (final r0))
    as (I1 & Is & I2 & I3 & I4 & I5 & I6 & I7 & I8).
  assert (Starts : forall X : daemon,
             inst X = inst s -> map_usd X = map_usd s ->
             robot_usd X = Some usd ->
             sim (final (start_simulation X)) <> None).
  { intros X X1 X2 X3.
    destruct (start_simulation_cases X) as [Hok _].
    destruct Hok as (before & stopped & E & _).
    - apply missing_required_state_false. rewrite X1, X2, X3.
      splits; auto; discriminate.
    - rewrite E. cbn. discriminate. }
  destruct (differs_from _ _).
  - destruct (_robot (load_robot (final r0))) eqn:Erb.
    + match goal with |- context [start_simulation ?x] =>
        pose proof (Starts x) as H3;
        generalize dependent (start_simulation x) end.
      intros r3 H3. cbn [final]. apply H3; cbn; congruence.
    + exfalso. destruct (I8 eq_refl) as [Eu El]. rewrite El, S8 in Erb.
      apply usd_differs_false in Eu. apply R; [|assumption]. congruence.
  - match goal with |- context [start_simulation ?x] =>
      pose proof (Starts x) as H3;
      generalize dependent (start_simulation x) end.
    intros r3 H3. cbn [final]. apply H3; congruence.
Qed.

(** X10.  [/start] with a requested map, on a daemon the loop of [run] can
    reach and that has no Instance.  The map goes into the configuration of
    [SimulationApp]: the stage is not opened with [open_stage], the engine
    has the map, and with a robot requested the robot is spawned and a
    Session starts.  But [_map_usd] stays [None]: the map is not recorded
    as loaded.  A following [/open_environment], even without a new map,
    therefore opens the same map again, which forgets the robot, and with a
    robot requested spawns it a second time. *)
Theorem start_does_not_record_map (h : list event) (s : daemon) (usd : string) :
  reaches h s -> inst s = None -> map_usd s = Some usd ->
  count is_open_stage (emitted (handle start s)) = 0%nat /\
  _map_usd (final (handle start s)) = None /\
  stage_map (engine_after no_engine (h ++ emitted (handle start s)))
  = Some usd /\
  (robot_usd s <> None ->
   count is_add_reference (emitted (handle start s)) = 1%nat /\
   sim (final (handle start s)) <> None) /\
  count is_open_stage
        (emitted (handle (open_environment absent) (final (handle start s))))
  = 1%nat /\
  _map_usd (final (handle (open_environment absent) (final (handle start s))))
  = Some usd /\
  (robot_usd s <> None ->
   count is_add_reference
         (emitted (handle (open_environment absent) (final (handle start s))))
   = 1%nat).
Proof.
  intros Hr Hi Hm.
  destruct (reaches_consistent h s Hr) as [_ (_ & Hfresh & _)].
  destruct (Hfresh Hi) as [F1 F2].
  destruct (reaches_equipped h s Hr) as (R & _).
  pose proof (reaches_request h s start Hr) as Hr1.
  destruct (reaches_consistent _ _ Hr1) as [_ (_ & _ & Htr)].
  revert Hr1 Htr. change (handle start s) with (start_instance s).
  destruct (start_instance_fresh s Hi) as (E & El). rewrite E, El, Hm.
  set (s0 := set_inst (Some the_SimulationApp) s).
  destruct (place_robot_effect s0) as (E1 & E2 & E3 & E4 & E5 & L1 & _).
  assert (Sp : forall u, robot_usd s = Some u ->
                         count is_add_reference (emitted (place_robot s0))
                         = 1%nat /\
                         sim (final (place_robot s0)) <> None).
  { intros u Eu. split.
    - rewrite (place_robot_spawns s0 u); [|discriminate|exact Eu].
      cbn [robot_usd _robot_usd s0 set_inst]. rewrite Eu, F2. reflexivity.
    - apply place_robot_starts_session; cbn; try congruence. }
  set (s1 := final (place_robot s0)) in *.
  assert (Hi1 : inst s1 <> None) by (rewrite E1; discriminate).
  assert (Hm1 : map_usd s1 = Some usd) by (rewrite E2; exact Hm).
  assert (Hl1 : _map_usd s1 = None) by (rewrite E5; exact F1).
  generalize dependent (place_robot s0).
  intros r0 s1 E1 E2 E3 E4 E5 L1 Sp Hi1 Hm1 Hl1 Hr1 Htr.
  destruct (Htr Hi1) as [_ Hsync].
  rewrite handle_open_environment. cbn [with_environment].
  destruct (open_usd_effect s1) as (_ & _ & O3 & O4).
  assert (Hd : usd_differs (map_usd s1) (_map_usd s1) = true)
    by (rewrite Hm1, Hl1; reflexivity).
  splits.
  - rewrite count_app. exact L1.
  - exact Hl1.
  - rewrite Hsync; congruence.
  - intros Hrq. destruct (robot_usd s) as [u|] eqn:Eu; [|congruence].
    rewrite count_app. apply (Sp u eq_refl).
  - change (count is_open_stage ?l) with (fst (fst (loads l))).
    rewrite O3. destruct (inst s1); [|congruence]. rewrite Hm1, Hl1.
    reflexivity.
  - rewrite O4; congruence.
  - intros Hrq. destruct (robot_usd s) as [u|] eqn:Eu; [|congruence].
    rewrite (open_usd_run s1 usd Hi1 Hm1), Hd. cbv zeta.
    destruct (stop_simulation_scene s1)
      as (_ & [= S1 S2 S3 S4 S5 S6 S7 S8] & L0 & _).
    generalize dependent (stop_simulation s1).
    intros q0 S1 S2 S3 S4 S5 S6 S7 S8 L0.
    pose proof (place_robot_spawns
                  (set__map_usd (map_usd s1) (invalidate_scene (final q0))) u)
      as P.
    generalize dependent (place_robot
                            (set__map_usd (map_usd s1)
                               (invalidate_scene (final q0)))).
    intros q1 P. cbn [emitted].
    change (count is_add_reference ?l) with (snd (fst (loads l))).
    rewrite !loads_app, L0. cbn [fst snd loads count filter is_add_reference
                                   List.length Nat.add].
    assert (Eu1 : robot_usd (final q0) = Some u)
      by (rewrite S3, E3; exact Eu).
    rewrite P; [|cbn; rewrite S1; exact Hi1|cbn; exact Eu1].
    cbn. rewrite Eu1. reflexivity.
Qed.

Lemma start_does_not_record_map_witness :
  count is_open_stage
        (emitted (handle (open_environment absent)
                    (final (handle start
                              (snd (serve [open_environment (given "map.usd")]
                                          [] init))))))
  = 1%nat.
Proof.
  destruct (start_does_not_record_map
              (fst (serve [open_environment (given "map.usd")] [] init))
              (snd (serve [open_environment (given "map.usd")] [] init))
              "map.usd") as (_ & _ & _ & _ & A & _).
  - apply serve_reaches. apply reaches_init.
  - reflexivity.
  - reflexivity.
  - exact A.
Defined.

(** *** The drift check at and around the placement pose *)

(** Every quaternion but the zero one is normalised to norm 1. *)
Lemma UnitQuaternion_normalised (s x y z : R) :
  ~ (s = 0%R /\ x = 0%R /\ y = 0%R /\ z = 0%R) ->
  exists q : quaternion,
    UnitQuaternion s x y z = Some q /\
    (qs q * qs q + qx q * qx q + qy q * qy q + qz q * qz q = 1)%R.
Proof.
  intros Hnz. unfold UnitQuaternion. cbv zeta.
  destruct (Req_dec_T (quat_norm s x y z) 0) as [E|E].
  - exfalso. apply Hnz. apply quat_norm_zero. exact E.
  - eexists. split; [reflexivity|]. cbn [qs qx qy qz].
    assert (Hn : (quat_norm s x y z * quat_norm s x y z
                  = s * s + x * x + y * y + z * z)%R)
      by (unfold quat_norm; apply sqrt_sqrt; nra).
    set (n := quat_norm s x y z) in *.
    replace (s / n * (s / n) + x / n * (x / n) + y / n * (y / n)
             + z / n * (z / n))%R
      with ((s * s + x * x + y * y + z * z) / (n * n))%R by (field; exact E).
    rewrite <- Hn. field. exact E.
Qed.

Lemma SE3_of_translation_rotation (v : vec3) (q : quaternion) :
  SE3_mul (SE3_translation v) (quat_SE3 q) = mkSE3 (quat_R q) v.
Proof.
  destruct q as [s x y z], v as [a b c].
  unfold SE3_mul, SE3_translation, quat_SE3, quat_R, mat3_mul, mat3_apply,
    vec3_add, mat3_id.
  cbn [rot t m00 m01 m02 m10 m11 m12 m20 m21 m22 v0 v1 v2 qs qx qy qz].
  f_equal; f_equal; ring.
Qed.

(** The rotation matrix of a unit quaternion is orthogonal. *)
Lemma quat_R_orthogonal (q : quaternion) :
  (qs q * qs q + qx q * qx q + qy q * qy q + qz q * qz q = 1)%R ->
  mat3_mul (mat3_transpose (quat_R q)) (quat_R q) = mat3_id.
Proof.
  destruct q as [s x y z]. cbn [qs qx qy qz]. intros H.
  unfold quat_R, mat3_mul, mat3_transpose, mat3_id.
  cbn [m00 m01 m02 m10 m11 m12 m20 m21 m22 qs qx qy qz].
  f_equal; nsatz.
Qed.

(** A transform built from a translation and a unit quaternion is undone by
    its inverse. *)
Lemma SE3_inv_mul_self (v : vec3) (q : quaternion) :
  (qs q * qs q + qx q * qx q + qy q * qy q + qz q * qz q = 1)%R ->
  SE3_mul (SE3_inv (SE3_mul (SE3_translation v) (quat_SE3 q)))
          (SE3_mul (SE3_translation v) (quat_SE3 q))
  = SE3_identity.
Proof.
  intros H. rewrite SE3_of_translation_rotation.
  unfold SE3_mul, SE3_inv, SE3_identity. cbn [rot t].
  rewrite (quat_R_orthogonal q H). f_equal.
  generalize (mat3_transpose (quat_R q)). intros m. destruct v as [a b c].
  unfold vec3_add, vec3_opp, mat3_apply. cbn [v0 v1 v2]. f_equal; ring.
Qed.

Lemma yaw_deg_mat3_id (v : vec3) : yaw_deg (mkSE3 mat3_id v) = 0%R.
Proof.
  unfold yaw_deg, yaw_rad, mat3_id. cbn.
  rewrite Rabs_R0. destruct (Req_dec_T 0 1); [lra|].
  rewrite atan2_0_pos by lra. ring.
Qed.

(** X11.  The drift check agrees with the placement.  If a start pose was
    requested whose orientation is not the zero quaternion, and the engine
    reports the robot exactly where [place_robot] has put it (the position
    times 100, the same quaternion with the scalar last), then [check_dirty]
    returns [False], after one pose query, whatever the pose is: the scaling
    by 100 and the two quaternion orders of [_to_SE3] and [_dc_tf_to_SE3]
    match those of [set_world_pose]. *)
Theorem placement_is_not_dirty (s : daemon) (sp : pose) :
  start_pose s = Some (of_pose sp) -> _dc s <> None ->
  ~ zero_orientation (of_pose sp) ->
  check_dirty (reported_at sp) s
  = mkrun (Returned false) s [evaluated "check_dirty"; get_rigid_body_pose].
Proof.
  intros Hp Hd Hnz.
  assert (Hnz' : ~ (q_s sp = 0%R /\ q_x sp = 0%R /\ q_y sp = 0%R /\
                    q_z sp = 0%R)).
  { intros (A & B & C & D). apply Hnz. unfold zero_orientation, of_pose.
    cbn [a_qs a_qx a_qy a_qz]. rewrite A, B, C, D. auto. }
  destruct (UnitQuaternion_normalised (q_s sp) (q_x sp) (q_y sp) (q_z sp) Hnz')
    as (q & Eq & Hq).
  set (placed := SE3_mul (SE3_translation
                            (mkvec3 (t_x sp * 100) (t_y sp * 100)
                                    (t_z sp * 100)))
                         (quat_SE3 q)).
  assert (E1 : _to_SE3 (scale_translation sp) = Some placed).
  { unfold _to_SE3, scale_translation. cbn [q_s q_x q_y q_z t_x t_y t_z].
    rewrite !Rmult_1_r, Eq. reflexivity. }
  assert (E2 : _dc_tf_to_SE3 (reported_at sp) = Some placed).
  { unfold _dc_tf_to_SE3, reported_at. cbn [r_w r_x r_y r_z p_x p_y p_z].
    rewrite Eq. reflexivity. }
  rewrite (check_dirty_returns s (reported_at sp) sp placed placed Hp E1 Hd E2).
  unfold placed. rewrite (SE3_inv_mul_self _ q Hq).
  assert (F : drifted SE3_identity = false).
  { unfold drifted. apply orb_false_iff. split; apply Rgtb_false.
    - unfold planar_norm, SE3_identity, DIRTY_EPSILON_DIST. cbn.
      replace (0 * 0 + 0 * 0)%R with 0%R by ring. rewrite sqrt_0. lra.
    - unfold SE3_identity, DIRTY_EPSILON_YAW. rewrite yaw_deg_mat3_id, Rabs_R0.
      lra. }
  rewrite F. reflexivity.
Qed.

Lemma placement_is_not_dirty_witness :
  check_dirty (reported_at (mkpose 0 0 0 2 3 4 5))
              (set_start_pose (Some (of_pose (mkpose 0 0 0 2 3 4 5))) running_daemon)
  = mkrun (Returned false)
          (set_start_pose (Some (of_pose (mkpose 0 0 0 2 3 4 5))) running_daemon)
          [evaluated "check_dirty"; get_rigid_body_pose].
Proof.
  apply (placement_is_not_dirty
           (set_start_pose (Some (of_pose (mkpose 0 0 0 2 3 4 5))) running_daemon)
           (mkpose 0 0 0 2 3 4 5)).
  - reflexivity.
  - discriminate.
  - unfold zero_orientation. cbn. intros (_ & _ & _ & [= F]). lra.
Defined.



(** *** Which routes leave a Session *)

Lemma running_daemon_reachable :
  reaches (fst (serve usual_start [] init)) running_daemon.
Proof.
  rewrite <- running_daemon_served. apply serve_reaches. apply reaches_init.
Qed.

Lemma stop_simulation_no_session_call (s : daemon) :
  count is_new_session (emitted (stop_simulation s)) = 0%nat.
Proof. rewrite stop_simulation_run. destruct (sim s), (inst s); reflexivity. Qed.

Lemma missing_required_state_same (s s' : daemon) :
  inst s' = inst s -> map_usd s' = map_usd s -> robot_usd s' = robot_usd s ->
  missing_required_state s' = missing_required_state s.
Proof. intros E1 E2 E3. unfold missing_required_state. rewrite E1, E2, E3. reflexivity. Qed.

(** [start_simulation] without a Session to stop. *)
Lemma start_simulation_idle_session (s : daemon) :
  sim s = None ->
  session_renewed (start_simulation s) \/ session_absent (start_simulation s).
Proof.
  intros Hs. rewrite (start_simulation_idle s Hs).
  destruct (missing_required_state s) eqn:M.
  - right. unfold session_absent. cbn [final emitted]. splits; auto.
  - left. unfold session_renewed. cbn [final emitted]. splits.
    + exists s. reflexivity.
    + rewrite <- M. apply missing_required_state_same; reflexivity.
    + reflexivity.
Qed.

(** Whatever precedes it, a step that ends in [start_simulation] on a daemon
    without Session, after calls that create no Session. *)
Lemma ends_in_start_simulation (X : daemon) (before : list event) :
  sim X = None -> count is_new_session before = 0%nat ->
  session_renewed (mkrun (outcome (start_simulation X))
                         (final (start_simulation X))
                         (before ++ emitted (start_simulation X))) \/
  session_absent (mkrun (outcome (start_simulation X))
                        (final (start_simulation X))
                        (before ++ emitted (start_simulation X))).
Proof.
  intros Hs Hb.
  destruct (start_simulation_idle_session X Hs) as [(A & B & C)|(A & B & C)];
    [left|right]; unfold session_renewed, session_absent;
    cbn [final emitted]; rewrite count_app, Hb, C; splits; auto.
Qed.

Lemma place_robot_session (s : daemon) :
  inst s <> None -> (sim s = None \/ robot_usd s <> None) ->
  (_robot_usd s <> None -> _robot s <> None) ->
  session_renewed (place_robot s) \/ session_absent (place_robot s).
Proof.
  intros Hi Hb R.
  destruct (robot_usd s) as [usd|] eqn:Er.
  2:{ rewrite (place_robot_no_robot s Hi Er). right.
      unfold session_absent. cbn [final emitted].
      assert (M : missing_required_state s = true)
        by (unfold missing_required_state; rewrite Er;
            destruct (inst s), (map_usd s); reflexivity).
      splits; auto.
      destruct Hb as [Hb|Hb]; [exact Hb|congruence]. }
  rewrite (place_robot_run s usd) by congruence. cbv zeta.
  pose proof (stop_simulation_scene s)
    as (_ & [= S1 S2 S3 S4 S5 S6 S7 S8] & _ & Hs0).
  specialize (Hs0 Hi).
  pose proof (stop_simulation_no_session_call s) as C0.
  generalize dependent (stop_simulation s).
  intros r0 S1 S2 S3 S4 S5 S6 S7 S8 Hs0 C0.
  pose proof (load_robot_scene (final r0))
    as (I1 & Is & I2 & I3 & I4 & I5 & I6 & I7 & I8).
  assert (C1 : count is_new_session (load_robot_calls usd s) = 0%nat)
    by (unfold load_robot_calls;
        destruct (usd_differs (robot_usd s) (_robot_usd s)); reflexivity).
  destruct (differs_from _ _).
  - destruct (_robot (load_robot (final r0))) eqn:Erb.
    + rewrite !app_assoc.
      apply ends_in_start_simulation; [cbn; congruence|].
      rewrite !count_app, C0, C1. reflexivity.
    + exfalso. destruct (I8 eq_refl) as [Eu El]. rewrite El, S8 in Erb.
      apply usd_differs_false in Eu. apply R; [|assumption]. congruence.
  - rewrite !app_assoc.
    apply ends_in_start_simulation; [congruence|].
    rewrite !count_app, C0, C1. reflexivity.
Qed.

Lemma open_usd_session (s : daemon) :
  inst s <> None -> map_usd s <> None ->
  (_robot_usd s <> None -> _robot s <> None) ->
  session_renewed (open_usd s) \/ session_absent (open_usd s).
Proof.
  intros Hi Hm R.
  destruct (map_usd s) as [usd|] eqn:Em; [|congruence].
  rewrite (open_usd_run s usd) by congruence. cbv zeta.
  pose proof (stop_simulation_scene s)
    as (_ & [= S1 S2 S3 S4 S5 S6 S7 S8] & _ & Hs0).
  specialize (Hs0 Hi).
  pose proof (stop_simulation_no_session_call s) as C0.
  generalize dependent (stop_simulation s).
  intros r0 S1 S2 S3 S4 S5 S6 S7 S8 Hs0 C0.
  assert (Lift : forall (X : daemon) (before : list event),
             count is_new_session before = 0%nat ->
             session_renewed (place_robot X) \/ session_absent (place_robot X) ->
             session_renewed (mkrun (outcome (place_robot X))
                                    (final (place_robot X))
                                    (before ++ emitted (place_robot X))) \/
             session_absent (mkrun (outcome (place_robot X))
                                   (final (place_robot X))
                                   (before ++ emitted (place_robot X)))).
  { intros X before Hbef [(A & B & C)|(A & B & C)]; [left|right];
      unfold session_renewed, session_absent; cbn [final emitted];
      rewrite count_app, Hbef, C; splits; auto. }
  destruct (usd_differs _ _).
  - rewrite app_assoc. apply Lift; [rewrite count_app, C0; reflexivity|].
    apply place_robot_session; cbn; try congruence. left. exact Hs0.
  - rewrite app_assoc. apply Lift; [rewrite count_app, C0; reflexivity|].
    apply place_robot_session; try congruence.
    + left. exact Hs0.
    + rewrite S6, S8. exact R.
Qed.

Lemma no_instance_no_session (s : daemon) (l : list event) :
  inst s = None -> sim s = None -> count is_new_session l = 0%nat ->
  session_absent (mkrun (Returned tt) s l).
Proof.
  intros Hi Hs Hl. unfold session_absent. cbn [final emitted].
  splits; auto. unfold missing_required_state. rewrite Hi. reflexivity.
Qed.

Lemma stops_short_dec (r : request) (s : daemon) :
  stops_short r s \/ ~ stops_short r s.
Proof.
  destruct r as [e|rb ps| | | |]; cbn [stops_short];
    try (right; intros F; exact F).
  - destruct (inst s), (assigned e (map_usd s));
      first [left; split; congruence|right; intros [A B]; congruence].
  - destruct (parse_error ps), (inst s), (assigned rb (robot_usd s));
      first [left; left; congruence|left; right; split; congruence
            |right; intros [A|[A B]]; congruence].
Qed.

(** A route that stops short leaves the Session as it is. *)
Lemma stops_short_keeps (r : request) (s : daemon) :
  stops_short r s ->
  sim (final (handle r s)) = sim s /\
  sim_i (final (handle r s)) = sim_i s /\
  sim_dirty (final (handle r s)) = sim_dirty s /\
  sim_collided (final (handle r s)) = sim_collided s /\
  count is_new_session (emitted (handle r s)) = 0%nat.
Proof.
  destruct r as [e|rb ps| | | |]; cbn [stops_short]; try contradiction.
  - intros [Hi Hm]. rewrite handle_open_environment.
    destruct (with_environment_frame e s) as (F1 & _ & _ & _ & _ & F6 & _).
    rewrite open_usd_no_map by congruence. cbn [final emitted].
    destruct e, s; splits; reflexivity.
  - intros H. rewrite handle_place_robot_at.
    destruct (with_robot_frame rb ps s) as (F1 & _ & _ & F4 & _).
    assert (F : sim (with_robot rb ps s) = sim s /\
                sim_i (with_robot rb ps s) = sim_i s /\
                sim_dirty (with_robot rb ps s) = sim_dirty s /\
                sim_collided (with_robot rb ps s) = sim_collided s)
      by (destruct rb as [| |usd], ps as [| |[arr|]], s; splits; reflexivity).
    destruct (parse_error ps) as [e|]; cbn [final emitted].
    + splits; try apply F. reflexivity.
    + destruct H as [H|[Hi Hr]]; [congruence|].
      rewrite place_robot_no_robot by congruence. cbn [final emitted].
      splits; try apply F. reflexivity.
Qed.

(** Every route that does not stop short, except [/stop_sim] and except a
    [/start] that finds an Instance, leaves a new Session or none. *)
Lemma session_renewed_or_absent (h : list event) (s : daemon) (r : request) :
  reaches h s -> r <> stop_sim -> (r = start -> inst s = None) ->
  ~ stops_short r s ->
  session_renewed (handle r s) \/ session_absent (handle r s).
Proof.
  intros Hr Hns Hst Hsh.
  destruct (reaches_consistent h s Hr) as [W _]. unfold well_formed in W.
  destruct (reaches_equipped h s Hr) as (R & _).
  destruct r as [e|rb ps| | | |]; cbn [stops_short] in Hsh.
  - rewrite handle_open_environment.
    destruct (with_environment_frame e s) as (F1 & F2 & _ & _ & _ & F6 & _).
    assert (F : _robot_usd (with_environment e s) = _robot_usd s /\
                _robot (with_environment e s) = _robot s)
      by (destruct e; split; reflexivity).
    destruct F as (F4 & F5).
    destruct (inst s) as [a|] eqn:Ei.
    + apply open_usd_session; [congruence| |rewrite F4, F5; exact R].
      rewrite F6. intros F. apply Hsh. split; [discriminate|exact F].
    + rewrite open_usd_no_instance by congruence. right.
      apply no_instance_no_session; try congruence; try reflexivity.
      rewrite F2. destruct (sim s) eqn:Es; [|reflexivity].
      exfalso. apply W; [discriminate|reflexivity].
  - rewrite handle_place_robot_at.
    destruct (with_robot_frame rb ps s)
      as (F1 & F2 & _ & F3 & _ & F4 & _ & F5 & _).
    destruct (parse_error ps) as [e|];
      [exfalso; apply Hsh; left; discriminate|].
    destruct (inst s) as [a|] eqn:Ei.
    + apply place_robot_session; [congruence| |rewrite F4, F5; exact R].
      right. rewrite F3. intros F. apply Hsh. right.
      split; [discriminate|exact F].
    + rewrite place_robot_no_instance by congruence. right.
      apply no_instance_no_session; try congruence; try reflexivity.
      rewrite F2. destruct (sim s) eqn:Es; [|reflexivity].
      exfalso. apply W; [discriminate|reflexivity].
  - (* /restart_sim *)
    destruct (stop_simulation_scene s) as (O1 & [= S1 _] & _ & Hs0).
    destruct (bind_final stop_simulation (fun _ => start_simulation) s tt O1)
      as (E & El & Eo).
    pose proof (stop_simulation_no_session_call s) as C0.
    assert (Hstop : sim (final (stop_simulation s)) = None).
    { destruct (inst s) eqn:Ei; [apply Hs0; discriminate|].
      rewrite (stop_simulation_no_instance s Ei).
      destruct (sim s) eqn:Es; [|reflexivity].
      exfalso. apply W; [discriminate|reflexivity]. }
    destruct (ends_in_start_simulation (final (stop_simulation s))
                (emitted (stop_simulation s)) Hstop C0)
      as [(A & B & C)|(A & B & C)]; [left|right];
      unfold session_renewed, session_absent; cbn [handle];
      rewrite E, El; cbn [final emitted] in A, B, C; splits; auto.
  - (* /start *)
    specialize (Hst eq_refl). cbn [handle].
    assert (Hsim : sim s = None).
    { destruct (sim s) eqn:Es; [|reflexivity].
      exfalso. apply W; [discriminate|assumption]. }
    destruct (start_instance_fresh s Hst) as (E & El).
    destruct (map_usd s) as [usd|] eqn:Em.
    + destruct (place_robot_session (set_inst (Some the_SimulationApp) s))
        as [(A & B & C)|(A & B & C)];
        [discriminate|left; exact Hsim|exact R|left|right];
        unfold session_renewed, session_absent; rewrite E, El, count_app, C;
        splits; auto.
    + right. unfold session_absent. rewrite E, El. cbn.
      unfold missing_required_state. cbn. rewrite Em. splits; auto.
  - (* /start_sim *)
    cbn [handle]. destruct (start_simulation_cases s) as [Hok Hmiss].
    destruct (missing_required_state s) eqn:M.
    + destruct (Hmiss eq_refl) as (A & B & _). right.
      destruct (sim s) as [c|] eqn:Es.
      * rewrite B; [|discriminate|apply W; discriminate].
        unfold session_absent. cbn [final emitted]. splits; try reflexivity.
        rewrite <- M. apply missing_required_state_same; reflexivity.
      * rewrite A by reflexivity. unfold session_absent. cbn [final emitted].
        splits; auto.
    + destruct (Hok eq_refl) as (before & stopped & E & Hc). left.
      destruct (start_simulation_scene s) as (_ & Hsc & _).
      apply missing_required_state_scene in Hsc. rewrite M in Hsc.
      revert Hsc. rewrite E. intros Hsc.
      unfold session_renewed. cbn [final emitted] in *.
      rewrite count_app, Hc. splits; try reflexivity.
      * exists stopped. reflexivity.
      * exact Hsc.
  - congruence.
Qed.



(** *** The collision flag *)

Lemma stop_simulation_collided (s : daemon) :
  sim_collided (final (stop_simulation s)) = sim_collided s.
Proof. rewrite stop_simulation_run. destruct (sim s), (inst s); reflexivity. Qed.

Lemma start_simulation_collided (s : daemon) :
  sim_collided s = false -> sim_collided (final (start_simulation s)) = false.
Proof.
  unfold start_simulation, stop_simulation; unfold_monad.
  destruct s as [[a|] [c|] n col dty [m|] [r|] sp m' r' sp' dc rb rdc];
    cbn; auto.
Qed.

Lemma place_robot_collided (s : daemon) :
  sim_collided s = false -> sim_collided (final (place_robot s)) = false.
Proof.
  intros Hc.
  destruct (inst s) as [a|] eqn:Ei.
  2:{ rewrite (place_robot_no_instance s Ei). exact Hc. }
  destruct (robot_usd s) as [usd|] eqn:Er.
  2:{ rewrite (place_robot_no_robot s); [exact Hc|congruence|assumption]. }
  rewrite (place_robot_run s usd) by congruence. cbv zeta.
  pose proof (stop_simulation_collided s) as C0. rewrite Hc in C0.
  generalize dependent (stop_simulation s). intros r0 C0.
  assert (C1 : sim_collided (load_robot (final r0)) = false)
    by (unfold load_robot;
        destruct (usd_differs (robot_usd (final r0)) (_robot_usd (final r0)));
        exact C0).
  destruct (differs_from _ _).
  - destruct (_robot (load_robot (final r0))).
    + match goal with |- context [start_simulation ?x] =>
        pose proof (start_simulation_collided x) as C3;
        generalize dependent (start_simulation x) end.
      intros r3 C3. cbn [final]. apply C3. exact C1.
    + exact C1.
  - match goal with |- context [start_simulation ?x] =>
      pose proof (start_simulation_collided x) as C3;
      generalize dependent (start_simulation x) end.
    intros r3 C3. cbn [final]. apply C3. exact C1.
Qed.

Lemma open_usd_collided (s : daemon) :
  sim_collided s = false -> sim_collided (final (open_usd s)) = false.
Proof.
  intros Hc.
  destruct (inst s) as [a|] eqn:Ei.
  2:{ rewrite (open_usd_no_instance s Ei). exact Hc. }
  destruct (map_usd s) as [usd|] eqn:Em.
  2:{ rewrite (open_usd_no_map s); [exact Hc|congruence|assumption]. }
  rewrite (open_usd_run s usd) by congruence. cbv zeta.
  pose proof (stop_simulation_collided s) as C0. rewrite Hc in C0.
  generalize dependent (stop_simulation s). intros r0 C0.
  destruct (usd_differs _ _);
    match goal with |- context [place_robot ?x] =>
      pose proof (place_robot_collided x) as C1;
      generalize dependent (place_robot x) end;
    intros r1 C1; cbn [final]; apply C1; exact C0.
Qed.

Lemma handle_collided (r : request) (s : daemon) :
  sim_collided s = false -> sim_collided (final (handle r s)) = false.
Proof.
  intros Hc. destruct r as [e|rb ps| | | |].
  - rewrite handle_open_environment. apply open_usd_collided.
    destruct e; exact Hc.
  - rewrite handle_place_robot_at.
    destruct (with_robot_frame rb ps s)
      as (_ & _ & _ & _ & _ & _ & _ & _ & F & _).
    destruct (parse_error ps); cbn [final]; [congruence|].
    apply place_robot_collided. congruence.
  - destruct (stop_simulation_scene s) as (O1 & _).
    destruct (bind_final stop_simulation (fun _ => start_simulation) s tt O1)
      as (E & _).
    cbn [handle]. rewrite E. apply start_simulation_collided.
    rewrite stop_simulation_collided. exact Hc.
  - cbn [handle]. destruct (inst s) as [a|] eqn:Ei.
    + rewrite start_instance_running by congruence. exact Hc.
    + destruct (start_instance_fresh s Ei) as (E & _). rewrite E.
      destruct (map_usd s); [|exact Hc].
      apply place_robot_collided. exact Hc.
  - cbn [handle]. apply start_simulation_collided. exact Hc.
  - cbn [handle]. rewrite stop_simulation_collided. exact Hc.
Qed.

Lemma tick_collided (live : dc_transform) (s : daemon) :
  sim_collided s = false ->
  sim_collided (final (tick_simulator live s)) = false.
Proof.
  intros Hc.
  destruct (inst s) as [a|] eqn:Ei.
  - destruct (sim s) as [c|] eqn:Es.
    + rewrite tick_active_run by congruence.
      destruct (check_dirty_cases s live) as (o & lc & E & _).
      rewrite E; cbn [outcome emitted]. unfold after_collision_check.
      destruct ((sim_i s mod 6 =? 0)%Z && negb (sim_dirty s))%bool.
      * destruct o as [b|e]; cbn [final]; [|exact Hc].
        destruct (sim_i s mod 60 =? 0)%Z; cbn; auto.
      * cbn [final]. destruct (sim_i s mod 60 =? 0)%Z; cbn; auto.
    + unfold tick_simulator; unfold_monad; cbn. rewrite Ei, Es. exact Hc.
  - unfold tick_simulator; unfold_monad; cbn. rewrite Ei. exact Hc.
Qed.

(** X14.  The collision flag is never raised.  [check_collided] answers
    [False] on every daemon, so [sim_collided] is false in every daemon the
    loop of [run] can reach, and stays false through every route and every
    tick, even one that raises. *)
Theorem never_collided (h : list event) (s : daemon) :
  reaches h s ->
  sim_collided s = false /\
  (forall r : request, sim_collided (final (handle r s)) = false) /\
  (forall live : dc_transform,
      sim_collided (final (tick_simulator live s)) = false) /\
  (forall s' : daemon, outcome (check_collided s') = Returned false).
Proof.
  intros Hr.
  assert (Hc : sim_collided s = false).
  { induction Hr as [|h s r _ IH|h s live s' l _ IH E].
    - reflexivity.
    - apply handle_collided. exact IH.
    - pose proof (tick_collided live s IH) as T. rewrite E in T. exact T. }
  splits.
  - exact Hc.
  - intros r. apply handle_collided. exact Hc.
  - intros live. apply tick_collided. exact Hc.
  - intros s'. reflexivity.
Qed.

Lemma never_collided_witness : sim_collided running_daemon = false.
Proof.
  destruct (never_collided (fst (serve usual_start [] init)) running_daemon
                           running_daemon_reachable) as (A & _).
  exact A.
Defined.

(** *** What is loaded, exactly *)

(** X15.  [place_robot] loads exactly what differs.  On a daemon that has
    the robot object of its loaded robot, [place_robot] opens no map, spawns
    the robot once if the requested robot is not the loaded one and not at
    all otherwise, and teleports it once if the requested pose (the default
    pose if none was requested) is not the loaded pose and not at all
    otherwise;  without an Instance or a requested robot it loads nothing.
    The two tests are independent: a new robot at the pose of the old one is
    spawned but [set_world_pose] is not called for it. *)
Theorem place_robot_loads_what_differs (s : daemon) :
  (_robot_usd s <> None -> _robot s <> None) ->
  loads (emitted (place_robot s)) = robot_loads s /\
  (forall usd : string,
      inst s <> None -> robot_usd s = Some usd ->
      _robot_usd (final (place_robot s)) = Some usd /\
      _start_pose (final (place_robot s)) = Some (requested_pose s) /\
      (usd_differs (Some usd) (_robot_usd s) = true ->
       In (add_reference_to_stage usd ROBOT_PRIM_PATH)
          (emitted (place_robot s))) /\
      (differs_from (requested_pose s) (_start_pose s) = true ->
       In (set_world_pose (position (requested_pose s))
                          (orientation (requested_pose s)))
          (emitted (place_robot s)))).
Proof.
  intros R. unfold robot_loads.
  destruct (inst s) as [a|] eqn:Ei.
  2:{ rewrite (place_robot_no_instance s Ei). split; [reflexivity|].
      intros usd H. congruence. }
  destruct (robot_usd s) as [usd|] eqn:Er.
  2:{ rewrite (place_robot_no_robot s); [|congruence|assumption].
      split; [reflexivity|]. intros usd _ H. congruence. }
  rewrite (place_robot_run s usd) by congruence. cbv zeta.
  pose proof (stop_simulation_scene s)
    as (_ & [= S1 S2 S3 S4 S5 S6 S7 S8] & L0 & _).
  pose proof (loads_load_robot_calls usd s) as Lc. rewrite Er in Lc.
  assert (Hin : usd_differs (Some usd) (_robot_usd s) = true ->
                In (add_reference_to_stage usd ROBOT_PRIM_PATH)
                   (load_robot_calls usd s)).
  { intros H. unfold load_robot_calls. rewrite Er, H. left. reflexivity. }
  generalize dependent (stop_simulation s).
  intros r0 S1 S2 S3 S4 S5 S6 S7 S8 L0.
  pose proof (load_robot_scene (final r0))
    as (I1 & Is & I2 & I3 & I4 & I5 & I6 & I7 & I8).
  assert (Hu : _robot_usd (load_robot (final r0)) = Some usd).
  { apply usd_differs_false in I7. congruence. }
  rewrite I6, S7.
  destruct (differs_from (requested_pose s) (_start_pose s)) eqn:Ed.
  - destruct (_robot (load_robot (final r0))) eqn:Erb.
    + match goal with |- context [start_simulation ?x] =>
        destruct (start_simulation_scene x)
          as (_ & [= T1 T2 T3 T4 T5 T6 T7 T8] & L3);
        generalize dependent (start_simulation x) end.
      intros r3 T1 T2 T3 T4 T5 T6 T7 T8 L3. cbn [final emitted].
      cbn in T6, T7. split.
      * rewrite !loads_app, L0, Lc, L3, loads_disable_calls.
        change (loads (move_calls (requested_pose s))) with (0, 0, 1)%nat.
        cbn. f_equal. f_equal. lia.
      * intros usd' _ [= <-]. splits.
        -- congruence.
        -- exact T7.
        -- intros H. apply in_or_app. left. apply in_or_app. right. auto.
        -- intros _. apply in_or_app. right. left. reflexivity.
    + exfalso. destruct (I8 eq_refl) as [Eu El]. rewrite El, S8 in Erb.
      apply usd_differs_false in Eu. apply R; [|assumption]. congruence.
  - match goal with |- context [start_simulation ?x] =>
      destruct (start_simulation_scene x)
        as (_ & [= T1 T2 T3 T4 T5 T6 T7 T8] & L3);
      generalize dependent (start_simulation x) end.
    intros r3 T1 T2 T3 T4 T5 T6 T7 T8 L3. cbn [final emitted]. split.
    + rewrite !loads_app, L0, Lc, L3, loads_disable_calls.
      cbn. f_equal. f_equal. lia.
    + intros usd' _ [= <-]. splits.
      * congruence.
      * rewrite T7, I6, S7.
        destruct (_start_pose s) as [q|]; cbn in Ed; [|discriminate].
        apply array_differs_false in Ed. congruence.
      * intros H. apply in_or_app. left. apply in_or_app. right. auto.
      * discriminate.
Qed.

Lemma place_robot_loads_what_differs_witness :
  loads (emitted (place_robot (set_robot_usd (Some "other.usd") running_daemon)))
  = (0, 1, 0)%nat.
Proof.
  destruct (place_robot_loads_what_differs
              (set_robot_usd (Some "other.usd") running_daemon)) as (A & _).
  - discriminate.
  - rewrite A. unfold robot_loads. cbn.
    rewrite pose_differs_refl. reflexivity.
Defined.

Lemma serve_session_routes (rs : list request) :
  forall (h : list event) (s : daemon),
    forallb session_route rs = true ->
    scene (snd (serve rs h s)) = scene s /\
    exists l : list event,
      fst (serve rs h s) = (h ++ l)%list /\
      loads l = (0, 0, 0)%nat /\
      forallb quiet l = true /\
      disabled_paths l = [].
Proof.
  induction rs as [|r rs IH]; intros h s H.
  - split; [reflexivity|]. exists []. rewrite app_nil_r. splits; reflexivity.
  - cbn [forallb] in H. apply andb_true_iff in H. destruct H as [Hr Hrs].
    cbn [serve].
    destruct (IH (h ++ emitted (handle r s))%list (final (handle r s)) Hrs)
      as (Hsc & l & El & Ll & Ql & Dl).
    assert (One : scene (final (handle r s)) = scene s /\
                  loads (emitted (handle r s)) = (0, 0, 0)%nat /\
                  forallb quiet (emitted (handle r s)) = true /\
                  disabled_paths (emitted (handle r s)) = []).
    { destruct r; try discriminate; cbn [handle].
      - destruct (stop_simulation_scene s) as (O1 & S1 & L1 & _).
        destruct (bind_final stop_simulation (fun _ => start_simulation) s tt
                             O1) as (E & Ee & _).
        destruct (start_simulation_scene (final (stop_simulation s)))
          as (_ & S2 & L2).
        rewrite E, Ee, loads_app, L1, L2, forallb_app, disabled_paths_app,
          stop_simulation_quiet, start_simulation_quiet,
          stop_simulation_disables_nothing, start_simulation_disables_nothing.
        splits; try reflexivity. congruence.
      - destruct (start_simulation_scene s) as (_ & S2 & L2).
        splits; auto using start_simulation_quiet,
                  start_simulation_disables_nothing.
      - destruct (stop_simulation_scene s) as (_ & S2 & L2 & _).
        splits; auto using stop_simulation_quiet,
                  stop_simulation_disables_nothing. }
    destruct One as (S1 & L1 & Q1 & D1).
    split; [congruence|].
    exists (emitted (handle r s) ++ l)%list.
    rewrite El, app_assoc, loads_app, L1, Ll, forallb_app, Q1, Ql,
      disabled_paths_app, D1, Dl.
    splits; reflexivity.
Qed.

(** X16.  Stopping and starting Sessions costs no load.  Any sequence of
    [/stop_sim], [/start_sim] and [/restart_sim] leaves what is requested
    and what is recorded as loaded (Instance, maps, robots, poses, robot
    object) as it was, and makes no call that opens a map, spawns or
    teleports a robot, creates or closes the application, or changes a
    component property: the engine keeps its stage. *)
Theorem session_routes_load_nothing (rs : list request) (h : list event)
        (s : daemon) (g : engine) :
  forallb session_route rs = true ->
  scene (snd (serve rs h s)) = scene s /\
  exists l : list event,
    fst (serve rs h s) = (h ++ l)%list /\
    loads l = (0, 0, 0)%nat /\
    disabled_paths l = [] /\
    count is_new_app l = 0%nat /\ count is_inst_close l = 0%nat /\
    engine_after g l = g.
Proof.
  intros H. destruct (serve_session_routes rs h s H)
    as (Hsc & l & El & Ll & Ql & Dl).
  split; [exact Hsc|]. exists l.
  destruct (no_app_counts l (quiet_no_app l Ql)) as [N1 N2].
  splits; auto. apply engine_after_quiet. exact Ql.
Qed.

Lemma session_routes_load_nothing_witness :
  scene (snd (serve [stop_sim; start_sim; restart_sim] [] midway))
  = scene midway.
Proof.
  destruct (session_routes_load_nothing [stop_sim; start_sim; restart_sim] []
                                        midway no_engine) as (A & _).
  - reflexivity.
  - exact A.
Defined.

(** *** The marker file over a whole run *)

Lemma stop_simulation_not_tick_only (s : daemon) :
  forallb not_tick_only (emitted (stop_simulation s)) = true.
Proof. rewrite stop_simulation_run. destruct (sim s), (inst s); reflexivity. Qed.

Lemma start_simulation_not_tick_only (s : daemon) :
  forallb not_tick_only (emitted (start_simulation s)) = true.
Proof.
  unfold start_simulation, stop_simulation; unfold_monad.
  destruct s as [[a|] [c|] n col dty [m|] [r|] sp m' r' sp' dc rb rdc];
    reflexivity.
Qed.

Lemma place_robot_not_tick_only (s : daemon) :
  forallb not_tick_only (emitted (place_robot s)) = true.
Proof.
  destruct (inst s) as [a|] eqn:Ei.
  2:{ rewrite (place_robot_no_instance s Ei). reflexivity. }
  destruct (robot_usd s) as [usd|] eqn:Er.
  2:{ rewrite (place_robot_no_robot s); [reflexivity|congruence|assumption]. }
  rewrite (place_robot_run s usd) by congruence. cbv zeta.
  pose proof (stop_simulation_not_tick_only s) as Q0.
  generalize dependent (stop_simulation s). intros r0 Q0.
  assert (Q1 : forallb not_tick_only (load_robot_calls usd s) = true)
    by (unfold load_robot_calls;
        destruct (usd_differs (robot_usd s) (_robot_usd s)); reflexivity).
  destruct (differs_from _ _).
  - destruct (_robot (load_robot (final r0))).
    + match goal with |- context [start_simulation ?x] =>
        pose proof (start_simulation_not_tick_only x) as Q3;
        generalize dependent (start_simulation x) end.
      intros r3 Q3. cbn [emitted]. rewrite !forallb_app, Q0, Q1, Q3.
      reflexivity.
    + cbn [emitted]. rewrite !forallb_app, Q0, Q1. reflexivity.
  - match goal with |- context [start_simulation ?x] =>
      pose proof (start_simulation_not_tick_only x) as Q3;
      generalize dependent (start_simulation x) end.
    intros r3 Q3. cbn [emitted]. rewrite !forallb_app, Q0, Q1, Q3.
    reflexivity.
Qed.

Lemma open_usd_not_tick_only (s : daemon) :
  forallb not_tick_only (emitted (open_usd s)) = true.
Proof.
  destruct (inst s) as [a|] eqn:Ei.
  2:{ rewrite (open_usd_no_instance s Ei). reflexivity. }
  destruct (map_usd s) as [usd|] eqn:Em.
  2:{ rewrite (open_usd_no_map s); [reflexivity|congruence|assumption]. }
  rewrite (open_usd_run s usd) by congruence. cbv zeta.
  pose proof (stop_simulation_not_tick_only s) as Q0.
  generalize dependent (stop_simulation s). intros r0 Q0.
  destruct (usd_differs _ _);
    match goal with |- context [place_robot ?x] =>
      pose proof (place_robot_not_tick_only x) as Q1;
      generalize dependent (place_robot x) end;
    intros r1 Q1; cbn [emitted]; rewrite !forallb_app, Q0, Q1; reflexivity.
Qed.

(** No route makes a call that belongs to the tick. *)
Lemma handle_not_tick_only (r : request) (s : daemon) :
  forallb not_tick_only (emitted (handle r s)) = true.
Proof.
  destruct r as [e|rb ps| | | |].
  - rewrite handle_open_environment. apply open_usd_not_tick_only.
  - rewrite handle_place_robot_at.
    destruct (parse_error ps); [reflexivity|].
    apply place_robot_not_tick_only.
  - destruct (stop_simulation_scene s) as (O1 & _).
    destruct (bind_final stop_simulation (fun _ => start_simulation) s tt O1)
      as (_ & El & _).
    cbn [handle].
    rewrite El, forallb_app, stop_simulation_not_tick_only,
      start_simulation_not_tick_only. reflexivity.
  - cbn [handle]. destruct (inst s) as [a|] eqn:Ei.
    + rewrite start_instance_running by congruence. reflexivity.
    + destruct (start_instance_fresh s Ei) as (_ & El). rewrite El.
      rewrite forallb_app. destruct (map_usd s); [|reflexivity].
      rewrite place_robot_not_tick_only. reflexivity.
  - cbn [handle]. apply start_simulation_not_tick_only.
  - cbn [handle]. apply stop_simulation_not_tick_only.
Qed.

(** A tick makes no other calls than those of [tick_only]. *)
Lemma tick_tick_only (live : dc_transform) (s : daemon) :
  forallb tick_only (emitted (tick_simulator live s)) = true.
Proof.
  destruct (inst s) as [a|] eqn:Ei.
  - destruct (sim s) as [c|] eqn:Es.
    + rewrite tick_active_run by congruence.
      destruct (check_dirty_cases s live) as (o & lc & E & Hl).
      rewrite E; cbn [outcome emitted].
      assert (Hc : forallb tick_only lc = true)
        by (destruct Hl as [[-> _]| ->]; reflexivity).
      assert (Ht : forallb tick_only (tick_calls (sim_i s)) = true)
        by (unfold tick_calls;
            destruct (sim_i s mod 2 =? 0)%Z, (sim_i s mod 6 =? 0)%Z; reflexivity).
      assert (Hk : forallb tick_only (collision_calls (sim_i s)) = true)
        by (unfold collision_calls; destruct (sim_i s mod 60 =? 0)%Z;
            reflexivity).
      destruct ((sim_i s mod 6 =? 0)%Z && negb (sim_dirty s))%bool.
      * destruct o as [[|]|e]; cbn [emitted]; rewrite !forallb_app, Ht, Hc;
          try rewrite Hk; reflexivity.
      * cbn [emitted]. rewrite forallb_app, Ht, Hk. reflexivity.
    + unfold tick_simulator; unfold_monad; cbn. rewrite Ei, Es. reflexivity.
  - unfold tick_simulator; unfold_monad; cbn. rewrite Ei. reflexivity.
Qed.

Lemma not_tick_only_no_touch (l : list event) :
  forallb not_tick_only l = true -> count is_touch l = 0%nat.
Proof.
  unfold count. induction l as [|e l IH]; [reflexivity|].
  cbn [forallb]. intros H. apply andb_true_iff in H. destruct H as [He Hl].
  destruct e; try discriminate; cbn; auto.
Qed.

Lemma tick_only_no_session_call (l : list event) :
  forallb tick_only l = true -> count is_new_session l = 0%nat.
Proof.
  unfold count. induction l as [|e l IH]; [reflexivity|].
  cbn [forallb]. intros H. apply andb_true_iff in H. destruct H as [He Hl].
  destruct e; try discriminate; cbn; auto.
Qed.

(** The Sessions created so far pay for the marker files touched so far,
    and a Session that is not dirty has not been paid for yet. *)
Lemma reaches_marker (h : list event) (s : daemon) :
  reaches h s ->
  (count is_touch h
   + match sim s with Some _ => b2n (negb (sim_dirty s)) | None => 0 end
   <= count is_new_session h)%nat.
Proof.
  intros Hr. pose proof Hr as Hr0.
  induction Hr as [|h s r Hr IH|h s live s' l Hr IH E].
  - cbn. lia.
  - specialize (IH Hr).
    rewrite !count_app, (not_tick_only_no_touch _ (handle_not_tick_only r s)).
    destruct (reaches_consistent h s Hr) as [W _].
    assert (Keep : forall s1 : daemon,
               (sim s1 = None \/ (sim s1 = sim s /\ sim_dirty s1 = sim_dirty s)) ->
               (count is_touch h + 0
                + match sim s1 with Some _ => b2n (negb (sim_dirty s1)) | None => 0 end
                <= count is_new_session h + 0)%nat).
    { intros s1 [H|[H1 H2]]; [rewrite H; lia|rewrite H1, H2; lia]. }
    assert (Cases : r = stop_sim \/ (r = start /\ inst s <> None) \/
                    (r <> stop_sim /\ (r = start -> inst s = None))).
    { destruct r; auto; try (right; right; split; congruence).
      destruct (inst s); [right; left; split; congruence|].
      right; right; split; congruence. }
    destruct Cases as [->|[[-> Hi]|[H1 H2]]].
    + cbn [handle]. rewrite stop_simulation_no_session_call.
      apply Keep. rewrite stop_simulation_run.
      destruct (sim s) eqn:Es, (inst s) eqn:Ei; cbn; auto.
    + cbn [handle]. rewrite start_instance_running by assumption.
      cbn [final emitted]. change (count is_new_session [_]) with 0%nat.
      apply Keep. auto.
    + destruct (stops_short_dec r s) as [Sh|Sh].
      * destruct (stops_short_keeps r s Sh) as (K1 & _ & K3 & _ & C).
        rewrite C. apply Keep. right. split; assumption.
      * destruct (session_renewed_or_absent h s r Hr H1 H2 Sh)
          as [((X & EX) & _ & C)|(A & _ & C)]; rewrite C.
        -- rewrite EX. cbn. lia.
        -- rewrite A. lia.
  - specialize (IH Hr).
    pose proof (tick_tick_only live s) as T. rewrite E in T. cbn [emitted] in T.
    rewrite !count_app, (tick_only_no_session_call l T).
    destruct (inst s) as [a|] eqn:Ei.
    + destruct (sim s) as [c|] eqn:Es.
      * destruct (tick_dirty_step live s) as (_ & K & Hd & _); try congruence.
        rewrite E in K, Hd. cbn [final emitted] in K, Hd.
        unfold drift_calls in Hd. cbn [snd] in Hd. rewrite K, Es.
        destruct (sim_dirty s), (sim_dirty s'); cbn in *; lia.
      * unfold tick_simulator in E; unfold_monad; cbn in E.
        rewrite Ei, Es in E. injection E as <- <-. rewrite Es. cbn. lia.
    + unfold tick_simulator in E; unfold_monad; cbn in E.
      rewrite Ei in E. injection E as <- <-. cbn. lia.
Qed.

(** X17.  The marker file over a whole run.  In every history the loop of
    [run] can produce, the marker file has been touched at most as often as
    Sessions have been created, and strictly less often while the current
    Session is not dirty: one Session touches the marker at most once.  No
    route touches the marker, queries the pose, steps the simulation or
    ticks a component, and no tick makes any other call than those. *)
Theorem marker_once_per_session (h : list event) (s : daemon) :
  reaches h s ->
  (count is_touch h <= count is_new_session h)%nat /\
  (sim s <> None -> sim_dirty s = false ->
   (count is_touch h < count is_new_session h)%nat) /\
  (forall r : request,
      forallb not_tick_only (emitted (handle r s)) = true /\
      count is_touch (emitted (handle r s)) = 0%nat) /\
  (forall live : dc_transform,
      forallb tick_only (emitted (tick_simulator live s)) = true /\
      count is_new_session (emitted (tick_simulator live s)) = 0%nat).
Proof.
  intros Hr. pose proof (reaches_marker h s Hr) as M. splits.
  - lia.
  - intros Hs Hd. rewrite Hd in M. destruct (sim s); [cbn in M; lia|congruence].
  - intros r. split; [apply handle_not_tick_only|].
    apply not_tick_only_no_touch. apply handle_not_tick_only.
  - intros live. split; [apply tick_tick_only|].
    apply tick_only_no_session_call. apply tick_tick_only.
Qed.

Lemma marker_once_per_session_witness :
  (count is_touch (fst (serve usual_start [] init))
   < count is_new_session (fst (serve usual_start [] init)))%nat.
Proof.
  destruct (marker_once_per_session (fst (serve usual_start [] init))
                                    running_daemon running_daemon_reachable)
    as (_ & A & _).
  apply A; [discriminate|reflexivity].
Defined.
